(** * cursor-exporter: a shallow embedding of [export-cursor.py]

    The exporter reads conversation threads and their message "bubbles"
    from Cursor's key-value stores, renders every thread as a markdown
    document and writes it below an output directory, skipping threads
    whose document is still current; it ends by writing the history of
    terminal commands into a document of its own.

    Conventions of the embedding.
    - Values decoded from the store are Python objects produced by
      [json.loads]; they are modelled by the type [json].  JSON numbers
      are restricted to integers.
    - A Python [str] is modelled by [string]; one [ascii] stands for one
      character.  Case folding and white space follow the ASCII range.
    - A Python function that may raise returns a [result]; the exception
      classes that the source distinguishes are kept apart in [exn].
    - What the source obtains from outside the repository (the JSON
      parser and printer, [repr] of containers, local-time formatting,
      the wall clock, the SQL engine, the file system) enters the
      definitions as an explicit argument. *)

From Stdlib Require Import String Ascii List ZArith Lia Bool Arith DecimalString.
From Stdlib Require Import Permutation Sorted.
Import ListNotations.
Open Scope string_scope.

Set Implicit Arguments.
Set Warnings "-register-all".

(** List concatenation, kept apart from string concatenation [++]. *)
Notation "l +++ m" := (List.app l m) (at level 60, right associativity).

(* ------------------------------------------------------------------ *)
(** ** Exceptions and results *)

Inductive exn : Type :=
| JSONDecodeError
| TypeError
| AttributeError
| KeyError
| ValueError
| OperationalError
| DatabaseError
| Unmodelled.          (* Python behaviour outside the embedding *)

Inductive result (A : Type) : Type :=
| Ok (a : A)
| Raise (e : exn).

Arguments Ok {A} a.
Arguments Raise {A} e.

Definition bind {A B : Type} (c : result A) (k : A -> result B) : result B :=
  match c with
  | Ok a => k a
  | Raise e => Raise e
  end.

Notation "x <- c ;; k" := (bind c (fun x => k))
  (at level 61, c at next level, right associativity).
Notation "' p <- c ;; k" := (bind c (fun x => let 'p := x in k))
  (at level 61, p pattern, c at next level, right associativity).

Fixpoint mapM {A B : Type} (f : A -> result B) (l : list A) : result (list B) :=
  match l with
  | [] => Ok []
  | x :: xs => y <- f x ;; ys <- mapM f xs ;; Ok (y :: ys)
  end.

(** [for x in l: acc.extend(f(x))]: the lines contributed by each element,
    in order, stopping at the first exception. *)
Fixpoint concatM {A B : Type} (f : A -> result (list B)) (l : list A) : result (list B) :=
  match l with
  | [] => Ok []
  | x :: xs => ys <- f x ;; zs <- concatM f xs ;; Ok (ys +++ zs)
  end.

Definition is_ok {A : Type} (r : result A) : bool :=
  match r with Ok _ => true | Raise _ => false end.

(* ------------------------------------------------------------------ *)
(** ** Strings *)

Definition dquote : ascii := "034"%char.
Definition newline : ascii := "010"%char.
Definition backslash : ascii := "092"%char.

(** [str.isspace] on the ASCII range. *)
Definition is_space (c : ascii) : bool :=
  let n := nat_of_ascii c in
  (((9 <=? n) && (n <=? 13)) || ((28 <=? n) && (n <=? 32)))%nat.

Fixpoint lstrip_by (p : ascii -> bool) (s : string) : string :=
  match s with
  | EmptyString => EmptyString
  | String c s' => if p c then lstrip_by p s' else s
  end.

Fixpoint rstrip_by (p : ascii -> bool) (s : string) : string :=
  match s with
  | EmptyString => EmptyString
  | String c s' =>
      match rstrip_by p s' with
      | EmptyString => if p c then EmptyString else String c EmptyString
      | r => String c r
      end
  end.

(** [s.strip()] and [s.strip(chars)]. *)
Definition strip_by (p : ascii -> bool) (s : string) : string :=
  rstrip_by p (lstrip_by p s).

Definition strip (s : string) : string := strip_by is_space s.

Definition nonempty (s : string) : bool :=
  match s with EmptyString => false | _ => true end.

(** [s.split(sep)] for a one-character separator: never the empty list. *)
Fixpoint split_on (sep : ascii) (s : string) : list string :=
  match s with
  | EmptyString => [EmptyString]
  | String c s' =>
      if Ascii.eqb c sep then EmptyString :: split_on sep s'
      else match split_on sep s' with
           | [] => [String c EmptyString]
           | w :: ws => String c w :: ws
           end
  end.

(** [s[:n]] and [s[n:]]. *)
Fixpoint str_take (n : nat) (s : string) : string :=
  match n, s with
  | S n', String c s' => String c (str_take n' s')
  | _, _ => EmptyString
  end.

Fixpoint str_drop (n : nat) (s : string) : string :=
  match n, s with
  | S n', String _ s' => str_drop n' s'
  | _, _ => s
  end.

(** [s[-n:]] for [n > 0]. *)
Definition str_last (n : nat) (s : string) : string :=
  str_drop (String.length s - n) s.

(** [s.replace(old, new)] for a one-character [old]. *)
Fixpoint replace_char (old : ascii) (new : string) (s : string) : string :=
  match s with
  | EmptyString => EmptyString
  | String c s' =>
      if Ascii.eqb c old then new ++ replace_char old new s'
      else String c (replace_char old new s')
  end.

Definition lower_char (c : ascii) : ascii :=
  let n := nat_of_ascii c in
  if ((65 <=? n) && (n <=? 90))%nat then ascii_of_nat (n + 32) else c.

Fixpoint lower (s : string) : string :=
  match s with
  | EmptyString => EmptyString
  | String c s' => String (lower_char c) (lower s')
  end.

(** [s.startswith(p)]. *)
Fixpoint starts_with (p s : string) : bool :=
  match p, s with
  | EmptyString, _ => true
  | String a p', String b s' => Ascii.eqb a b && starts_with p' s'
  | String _ _, EmptyString => false
  end.

(** [sub in s] for strings. *)
Fixpoint contains (sub s : string) : bool :=
  starts_with sub s ||
  match s with
  | EmptyString => false
  | String _ s' => contains sub s'
  end.

Definition ends_with (suffix s : string) : bool :=
  String.eqb (str_last (String.length suffix) s) suffix
  && (String.length suffix <=? String.length s)%nat.

(** [s.rfind(c)]: the index of the last occurrence. *)
Fixpoint rfind (c : ascii) (s : string) : option nat :=
  match s with
  | EmptyString => None
  | String a s' =>
      match rfind c s' with
      | Some i => Some (S i)
      | None => if Ascii.eqb a c then Some 0 else None
      end
  end.

(** [s.find(c)]: the index of the first occurrence. *)
Fixpoint find_char (c : ascii) (s : string) : option nat :=
  match s with
  | EmptyString => None
  | String a s' =>
      if Ascii.eqb a c then Some 0
      else match find_char c s' with
           | Some i => Some (S i)
           | None => None
           end
  end.

Definition join (sep : string) (l : list string) : string := String.concat sep l.

(** [str(n)] for an integer. *)
Definition str_of_Z (n : Z) : string := NilZero.string_of_int (Z.to_int n).

Definition str_of_nat (n : nat) : string := str_of_Z (Z.of_nat n).

(** The digits of [format(n, ',')]: groups of three from the right. *)
Fixpoint group3 (digits : list ascii) : list ascii :=
  match digits with
  | a :: b :: c :: ((_ :: _) as rest) => a :: b :: c :: ","%char :: group3 rest
  | _ => digits
  end.

Definition str_of_Z_commas (n : Z) : string :=
  let digits := list_ascii_of_string (str_of_Z (Z.abs n)) in
  let grouped := string_of_list_ascii (rev (group3 (rev digits))) in
  if (n <? 0)%Z then "-" ++ grouped else grouped.

(* ------------------------------------------------------------------ *)
(** ** JSON values as Python objects *)

Inductive json : Type :=
| JNull
| JBool (b : bool)
| JInt (n : Z)
| JStr (s : string)
| JList (items : list json)
| JDict (fields : list (string * json)).

Definition fields_t : Type := list (string * json).

(** Key lookup in a decoded object. *)
Fixpoint lookup (k : string) (d : fields_t) : option json :=
  match d with
  | [] => None
  | (k', v) :: d' => if String.eqb k k' then Some v else lookup k d'
  end.

(** [bool(v)]. *)
Definition truthy (v : json) : bool :=
  match v with
  | JNull => false
  | JBool b => b
  | JInt n => negb (n =? 0)%Z
  | JStr s => nonempty s
  | JList l => match l with [] => false | _ => true end
  | JDict d => match d with [] => false | _ => true end
  end.

(** [v.get(k, default)]: only a [dict] has the method. *)
Definition get (v : json) (k : string) (default : json) : result json :=
  match v with
  | JDict d => Ok (match lookup k d with Some x => x | None => default end)
  | _ => Raise AttributeError
  end.

(** [a or b], with [b] already evaluated. *)
Definition py_or (a b : json) : json := if truthy a then a else b.

Definition is_dict (v : json) : bool :=
  match v with JDict _ => true | _ => false end.

Definition is_str (v : json) : bool :=
  match v with JStr _ => true | _ => false end.

Definition is_none (v : json) : bool :=
  match v with JNull => true | _ => false end.

(** The integer behind a value usable in arithmetic: [bool] is a subclass of [int]. *)
Definition as_int (v : json) : option Z :=
  match v with
  | JInt n => Some n
  | JBool b => Some (if b then 1 else 0)%Z
  | _ => None
  end.

(** [v == s] for a string literal [s]. *)
Definition eq_str (v : json) (s : string) : bool :=
  match v with JStr t => String.eqb t s | _ => false end.

(** [len(v)]. *)
Definition py_len (v : json) : result nat :=
  match v with
  | JStr s => Ok (String.length s)
  | JList l => Ok (List.length l)
  | JDict d => Ok (List.length d)
  | _ => Raise TypeError
  end.

Fixpoint chars_of (s : string) : list json :=
  match s with
  | EmptyString => []
  | String c s' => JStr (String c EmptyString) :: chars_of s'
  end.

(** The elements a [for] loop over [v] visits. *)
Definition py_iter (v : json) : result (list json) :=
  match v with
  | JList l => Ok l
  | JDict d => Ok (map (fun kv => JStr (fst kv)) d)
  | JStr s => Ok (chars_of s)
  | _ => Raise TypeError
  end.

(** A string method called on [v]: anything but a [str] lacks it. *)
Definition the_str (v : json) : result string :=
  match v with
  | JStr s => Ok s
  | _ => Raise AttributeError
  end.

(** [sep.join(v)]: every element has to be a [str]. *)
Definition join_value (sep : string) (v : json) : result string :=
  items <- py_iter v ;;
  strs <- mapM (fun x => match x with JStr s => Ok s | _ => Raise TypeError end) items ;;
  Ok (join sep strs).

(** [len(s.split('\n')) if s else 0]. *)
Definition line_count (v : json) : result nat :=
  if truthy v then s <- the_str v ;; Ok (List.length (split_on newline s))
  else Ok 0.

(** [enumerate(l, 1)]. *)
Fixpoint enumerate_from {A : Type} (i : nat) (l : list A) : list (nat * A) :=
  match l with
  | [] => []
  | x :: xs => (i, x) :: enumerate_from (S i) xs
  end.

(** [v != 0]. *)
Definition ne_zero (v : json) : bool :=
  match v with
  | JInt n => negb (n =? 0)%Z
  | JBool b => b
  | _ => true
  end.

(** The resolved role of a message. *)
Inductive role : Type := User | Assistant | UnknownRole.

Definition role_eqb (a b : role) : bool :=
  match a, b with
  | User, User | Assistant, Assistant | UnknownRole, UnknownRole => true
  | _, _ => false
  end.

Definition role_name (r : role) : string :=
  match r with
  | User => "user"
  | Assistant => "assistant"
  | UnknownRole => "unknown"
  end.

(** [role.title()] on the three names above. *)
Definition role_title (r : role) : string :=
  match r with
  | User => "User"
  | Assistant => "Assistant"
  | UnknownRole => "Unknown"
  end.

(* ------------------------------------------------------------------ *)
(** ** The store and the output directory *)

(** One store instance, seen through the queries the exporter sends to it.
    A row value is [None] for SQL NULL.  A query raises when the engine
    refuses it ([OperationalError] for a missing table). *)
Record connection : Type := {
  (* SELECT substr(key, ...) AS cid, value FROM cursorDiskKV
     WHERE key LIKE 'composerData:%' *)
  composer_rows : result (list (string * option string));
  (* fetchone() of SELECT value FROM ItemTable WHERE key = 'composer.composerData' *)
  all_composers_row : result (option (option string));
  (* SELECT key, value FROM cursorDiskKV WHERE key LIKE 'bubbleId:%' ORDER BY ... *)
  bubble_rows : result (list (string * option string));
  (* fetchone() of SELECT value FROM cursorDiskKV WHERE key = ? *)
  context_row : string -> result (option (option string))
}.

(** The stores of one run. *)
Record environment : Type := {
  (* os.path.exists(global_db) *)
  global_db_exists : bool;
  (* connect_db_readonly(global_db) *)
  global_db : result connection;
  (* connect_db_readonly(db_path) for each path of get_workspace_db_paths() *)
  workspace_dbs : list (result connection)
}.

(** The item table of the global store, seen through the two queries of
    the terminal history; each is the [fetchone()] of its query. *)
Record item_table : Type := {
  (* SELECT value FROM ItemTable WHERE key = 'terminal.history.entries.commands' *)
  commands_row : result (option (option string));
  (* SELECT value FROM ItemTable WHERE key = 'terminal.history.entries.dirs' *)
  dirs_row : result (option (option string))
}.

(** A file of the output directory: its text, and [st_mtime * 1000]
    rounded down to an integer (the comparison with an integer timestamp
    does not see the fraction). *)
Record file : Type := {
  f_text : string;
  f_mtime_ms : Z
}.

(** The output directory: the entries in the order [glob] lists them. *)
Definition directory : Type := list (string * file).

(** An insertion-ordered [dict]: the first entry with an equal key is the
    binding of the key. *)
Fixpoint assoc_get {K V : Type} (eqb : K -> K -> bool) (k : K) (d : list (K * V))
  : option V :=
  match d with
  | [] => None
  | (k', v) :: d' => if eqb k k' then Some v else assoc_get eqb k d'
  end.

(** [d[k] = v]: in place when the key is bound, at the end otherwise. *)
Fixpoint assoc_set {K V : Type} (eqb : K -> K -> bool) (k : K) (v : V) (d : list (K * V))
  : list (K * V) :=
  match d with
  | [] => [(k, v)]
  | (k', v') :: d' =>
      if eqb k k' then (k', v) :: d' else (k', v') :: assoc_set eqb k v d'
  end.


(* ------------------------------------------------------------------ *)
(** ** A reference run-time

    The exporter is parametric in the decoder, the printers and the
    local-time formatter of its run-time.  To run it on concrete stores
    the examples below fix one run-time: a decoder for JSON texts without
    fractions, exponents and [\u] escapes, the two printers for values
    whose strings need no escape beyond the common ones, and formatting
    in UTC from the epoch to the year 9999. *)

Definition nl : string := String newline EmptyString.

Definition json_ws (c : ascii) : bool :=
  let n := nat_of_ascii c in
  ((n =? 32) || (n =? 9) || (n =? 10) || (n =? 13))%nat.

Definition is_digit (c : ascii) : bool :=
  let n := nat_of_ascii c in ((48 <=? n) && (n <=? 57))%nat.

Definition unescape (c : ascii) : option ascii :=
  if Ascii.eqb c dquote then Some dquote
  else if Ascii.eqb c backslash then Some backslash
  else if Ascii.eqb c "/"%char then Some "/"%char
  else if Ascii.eqb c "b"%char then Some "008"%char
  else if Ascii.eqb c "f"%char then Some "012"%char
  else if Ascii.eqb c "n"%char then Some newline
  else if Ascii.eqb c "r"%char then Some "013"%char
  else if Ascii.eqb c "t"%char then Some "009"%char
  else None.

(** The text of a string literal after its opening quote, and what follows it. *)
Fixpoint parse_string_body (s : string) : option (string * string) :=
  match s with
  | EmptyString => None
  | String c rest =>
      if Ascii.eqb c dquote then Some (EmptyString, rest)
      else if Ascii.eqb c backslash then
        match rest with
        | String e rest' =>
            match unescape e, parse_string_body rest' with
            | Some ch, Some (body, after) => Some (String ch body, after)
            | _, _ => None
            end
        | EmptyString => None
        end
      else if (nat_of_ascii c <? 32)%nat then None
      else match parse_string_body rest with
           | Some (body, after) => Some (String c body, after)
           | None => None
           end
  end.

Fixpoint take_digits (s : string) : string * string :=
  match s with
  | String c rest =>
      if is_digit c then let r := take_digits rest in (String c (fst r), snd r)
      else (EmptyString, s)
  | EmptyString => (EmptyString, EmptyString)
  end.

Definition Z_of_digits (digits : string) : Z :=
  fold_left (fun acc c => (10 * acc + Z.of_nat (nat_of_ascii c - 48))%Z)
            (list_ascii_of_string digits) 0%Z.

(** An integer literal at the head of [s]; a fraction or an exponent is refused. *)
Definition parse_int (s : string) : option (json * string) :=
  let negative := starts_with "-" s in
  let body := if negative then str_drop 1 s else s in
  let r := take_digits body in
  let digits := fst r in
  let after := snd r in
  let leading_zero := starts_with "0" digits && (1 <? String.length digits)%nat in
  let float_follows := starts_with "." after || starts_with "e" after || starts_with "E" after in
  if nonempty digits && negb leading_zero && negb float_follows then
    Some (JInt (if negative then - Z_of_digits digits else Z_of_digits digits)%Z, after)
  else None.

Definition expect (word : string) (v : json) (s : string) : option (json * string) :=
  if starts_with word s then Some (v, str_drop (String.length word) s) else None.

Fixpoint parse_value (fuel : nat) (s : string) : option (json * string) :=
  match fuel with
  | O => None
  | S fuel' =>
      match lstrip_by json_ws s with
      | EmptyString => None
      | String c rest as s1 =>
          if Ascii.eqb c "{"%char then
            match lstrip_by json_ws rest with
            | String c' rest' as members =>
                if Ascii.eqb c' "}"%char then Some (JDict [], rest')
                else parse_members fuel' members []
            | EmptyString => None
            end
          else if Ascii.eqb c "["%char then
            match lstrip_by json_ws rest with
            | String c' rest' as elements =>
                if Ascii.eqb c' "]"%char then Some (JList [], rest')
                else parse_elements fuel' elements []
            | EmptyString => None
            end
          else if Ascii.eqb c dquote then
            match parse_string_body rest with
            | Some (body, after) => Some (JStr body, after)
            | None => None
            end
          else if Ascii.eqb c "t"%char then expect "true" (JBool true) s1
          else if Ascii.eqb c "f"%char then expect "false" (JBool false) s1
          else if Ascii.eqb c "n"%char then expect "null" JNull s1
          else parse_int s1
      end
  end

with parse_members (fuel : nat) (s : string) (acc : fields_t) : option (json * string) :=
  match fuel with
  | O => None
  | S fuel' =>
      match lstrip_by json_ws s with
      | String c rest =>
          if Ascii.eqb c dquote then
            match parse_string_body rest with
            | Some (key, after_key) =>
                match lstrip_by json_ws after_key with
                | String colon after_colon =>
                    if Ascii.eqb colon ":"%char then
                      match parse_value fuel' after_colon with
                      | Some (v, after_value) =>
                          let acc' := assoc_set String.eqb key v acc in
                          match lstrip_by json_ws after_value with
                          | String d after =>
                              if Ascii.eqb d ","%char then parse_members fuel' after acc'
                              else if Ascii.eqb d "}"%char then Some (JDict acc', after)
                              else None
                          | EmptyString => None
                          end
                      | None => None
                      end
                    else None
                | EmptyString => None
                end
            | None => None
            end
          else None
      | EmptyString => None
      end
  end

with parse_elements (fuel : nat) (s : string) (acc : list json) : option (json * string) :=
  match fuel with
  | O => None
  | S fuel' =>
      match parse_value fuel' s with
      | Some (v, after_value) =>
          match lstrip_by json_ws after_value with
          | String d after =>
              if Ascii.eqb d ","%char then parse_elements fuel' after (acc +++ [v])
              else if Ascii.eqb d "]"%char then Some (JList (acc +++ [v]), after)
              else None
          | EmptyString => None
          end
      | None => None
      end
  end.

Definition ref_loads (s : string) : option json :=
  match parse_value (2 * String.length s + 2) s with
  | Some (v, after) =>
      match lstrip_by json_ws after with
      | EmptyString => Some v
      | _ => None
      end
  | None => None
  end.

(** Escapes shared by the two printers. *)
Fixpoint escape_with (quote : ascii) (s : string) : string :=
  match s with
  | EmptyString => EmptyString
  | String c rest =>
      (if Ascii.eqb c quote then String backslash (String quote EmptyString)
       else if Ascii.eqb c backslash then String backslash (String backslash EmptyString)
       else if Ascii.eqb c newline then String backslash "n"
       else if Ascii.eqb c "009"%char then String backslash "t"
       else if Ascii.eqb c "013"%char then String backslash "r"
       else String c EmptyString) ++ escape_with quote rest
  end.

Definition json_quote (s : string) : string :=
  String dquote (escape_with dquote s) ++ String dquote EmptyString.

Definition repr_quote (s : string) : string :=
  if contains "'" s && negb (contains (String dquote EmptyString) s)
  then String dquote (escape_with dquote s) ++ String dquote EmptyString
  else "'" ++ escape_with "'"%char s ++ "'".

Fixpoint ref_repr (v : json) : string :=
  match v with
  | JNull => "None"
  | JBool true => "True"
  | JBool false => "False"
  | JInt n => str_of_Z n
  | JStr s => repr_quote s
  | JList l => "[" ++ join ", " (map ref_repr l) ++ "]"
  | JDict d =>
      "{" ++ join ", " (map (fun kv => repr_quote (fst kv) ++ ": " ++ ref_repr (snd kv)) d)
          ++ "}"
  end.

Fixpoint spaces (n : nat) : string :=
  match n with
  | O => EmptyString
  | S n' => String " "%char (spaces n')
  end.

Fixpoint dumps_at (level : nat) (v : json) : string :=
  match v with
  | JNull => "null"
  | JBool true => "true"
  | JBool false => "false"
  | JInt n => str_of_Z n
  | JStr s => json_quote s
  | JList [] => "[]"
  | JList l =>
      "[" ++ nl
        ++ join ("," ++ nl)
                (map (fun x => spaces (2 * S level) ++ dumps_at (S level) x) l)
        ++ nl ++ spaces (2 * level) ++ "]"
  | JDict [] => "{}"
  | JDict d =>
      "{" ++ nl
        ++ join ("," ++ nl)
                (map (fun kv => spaces (2 * S level) ++ json_quote (fst kv) ++ ": "
                                  ++ dumps_at (S level) (snd kv)) d)
        ++ nl ++ spaces (2 * level) ++ "}"
  end.

Definition ref_dumps (v : json) : string := dumps_at 0 v.

(** Civil dates from days since the epoch. *)
Definition civil_of_days (days : Z) : Z * Z * Z :=
  let z := (days + 719468)%Z in
  let era := (z / 146097)%Z in
  let doe := (z - era * 146097)%Z in
  let yoe := ((doe - doe / 1460 + doe / 36524 - doe / 146096) / 365)%Z in
  let doy := (doe - (365 * yoe + yoe / 4 - yoe / 100))%Z in
  let mp := ((5 * doy + 2) / 153)%Z in
  let d := (doy - (153 * mp + 2) / 5 + 1)%Z in
  let m := (if mp <? 10 then mp + 3 else mp - 9)%Z in
  let y := (yoe + era * 400 + (if m <=? 2 then 1 else 0))%Z in
  (y, m, d).

Definition pad2 (n : Z) : string :=
  if (n <? 10)%Z then "0" ++ str_of_Z n else str_of_Z n.

Definition ref_strftime (fmt : string) (ms : Z) : result string :=
  if ((0 <=? ms) && (ms <? 253402300800000))%Z then
    let secs := (ms / 1000)%Z in
    let '(y, m, d) := civil_of_days (secs / 86400) in
    let sod := (secs mod 86400)%Z in
    let date := str_of_Z y ++ "-" ++ pad2 m ++ "-" ++ pad2 d in
    let hh := pad2 (sod / 3600) in
    let mm := pad2 ((sod mod 3600) / 60) in
    let ss := pad2 (sod mod 60) in
    if String.eqb fmt "%Y-%m-%dT%H%M" then Ok (date ++ "T" ++ hh ++ mm)
    else if String.eqb fmt "%Y-%m-%d %H:%M:%S" then Ok (date ++ " " ++ hh ++ ":" ++ mm ++ ":" ++ ss)
    else Raise Unmodelled
  else Raise Unmodelled.

(** JSON text is written with [q] around names: [q "a"] is the text of the string "a". *)
Definition q (s : string) : string := json_quote s.

(** *** Sample records *)

(** A store whose queries return nothing. *)
Definition empty_store : connection :=
  {| composer_rows := Ok []; all_composers_row := Ok None; bubble_rows := Ok [];
     context_row := fun _ => Ok None |}.

(** The text of an object with one string member. *)
Definition one_member (name value : string) : string :=
  "{" ++ q name ++ ": " ++ q value ++ "}".

Definition tool_call (name arg value : string) : json :=
  JDict [("name", JStr name); ("rawArgs", JStr (one_member arg value))].

Definition user_says : json := JDict [("type", JInt 1); ("text", JStr "Fix the bug")].
Definition agent_says : json := JDict [("type", JInt 2); ("text", JStr "Done.")].
Definition agent_silent : json := JDict [("type", JInt 2)].
Definition agent_lists : json :=
  JDict [("type", JInt 2); ("toolFormerData", tool_call "list_dir" "target_directory" "src")].
Definition agent_deletes : json :=
  JDict [("type", JInt 2); ("toolFormerData", tool_call "delete_file" "target_file" "old.py")].
(** Actions together with context of its own ([isAgentic]), no content. *)
Definition agent_reads_agentic : json :=
  JDict [("type", JInt 2); ("isAgentic", JBool true);
         ("toolFormerData", tool_call "read_file" "target_file" "a.py")].
(** Bubbles without a type tag or role field: their role is unknown. *)
Definition untyped_lists : json :=
  JDict [("toolFormerData", tool_call "list_dir" "target_directory" "src")].
Definition untyped_note : json := JDict [("text", JStr "note")].
(** A user-typed bubble that carries a tool invocation only. *)
Definition user_lists : json :=
  JDict [("type", JInt 1); ("toolFormerData", tool_call "list_dir" "target_directory" "src")].

(** The text of an object with a type tag and a message text. *)
Definition message_text (tag : string) (text : string) : string :=
  "{" ++ q "type" ++ ": " ++ tag ++ ", " ++ q "text" ++ ": " ++ q text ++ "}".

(** A global store with the given thread record and the given bubbles of
    the thread "abc12345-77", and no workspace store. *)
Definition store_with (record : string) (bubbles : list string) : connection :=
  {| composer_rows := Ok [("abc12345-77", Some record)];
     all_composers_row := Ok None;
     bubble_rows :=
       Ok (map (fun entry => ("bubbleId:abc12345-77:b" ++ str_of_nat (fst entry),
                              Some (snd entry)))
               (enumerate_from 1 bubbles));
     context_row := fun _ => Ok None |}.

Definition env_with (record : string) (bubbles : list string) : environment :=
  {| global_db_exists := true;
     global_db := Ok (store_with record bubbles);
     workspace_dbs := [] |}.

Definition dated_record : string :=
  "{" ++ q "createdAt" ++ ": 1700000000000, " ++ q "lastUpdatedAt" ++ ": 1700000600000}".

Definition silent_then_reply : list string :=
  ["{" ++ q "type" ++ ": 2}"; message_text "2" "Done."].

(** The clock of a first and of a later run. *)
Definition first_clock (k : nat) : string * Z := ("2023-11-15 09:00:00", 1700038800000%Z).

Definition writable (path : string) : bool := true.

(** The text of a version of a thread record. *)
Definition version_text (stamp name : string) : string :=
  "{" ++ q "lastUpdatedAt" ++ ": " ++ stamp ++ ", " ++ q "name" ++ ": " ++ q name ++ "}".

(** A store instance that holds one keyed record of the thread "thread-0001". *)
Definition instance_with (record : string) : connection :=
  {| composer_rows := Ok [("thread-0001", Some record)];
     all_composers_row := Ok None;
     bubble_rows := Ok [];
     context_row := fun _ => Ok None |}.

(** A global instance that holds the thread twice: as a keyed record and
    as an entry of the aggregate record. *)
Definition instance_with_both (keyed aggregate : string) : connection :=
  {| composer_rows := Ok [("thread-0001", Some keyed)];
     all_composers_row :=
       Ok (Some (Some ("{" ++ q "allComposers" ++ ": [" ++ aggregate ++ "]}")));
     bubble_rows := Ok [];
     context_row := fun _ => Ok None |}.

Definition aggregate_text (stamp name : string) : string :=
  "{" ++ q "composerId" ++ ": " ++ q "thread-0001" ++ ", " ++ q "lastUpdatedAt" ++ ": "
      ++ stamp ++ ", " ++ q "name" ++ ": " ++ q name ++ "}".

Definition workspaces_only (dbs : list connection) : environment :=
  {| global_db_exists := false;
     global_db := Raise OperationalError;
     workspace_dbs := map Ok dbs |}.

Definition global_and (global : connection) (dbs : list connection) : environment :=
  {| global_db_exists := true;
     global_db := Ok global;
     workspace_dbs := map Ok dbs |}.

Definition version (stamp : Z) (name : string) : json :=
  JDict [("lastUpdatedAt", JInt stamp); ("name", JStr name)].

(** The document of the dated thread as a run at [now] writes it. *)
Definition dated_document (now : string) : string :=
  join nl [ "# Untitled Conversation"; "";
            "**Exported:** " ++ now ++ "  ";
            "**Thread ID:** `abc12345-77`  ";
            "**Created:** 2023-11-14 22:13:20  ";
            "**Last Updated:** 2023-11-14 22:23:20  ";
            "**Messages:** 2  "; "";
            "**[User]** Fix the bug"; ""; ""; "---"; "";
            "**[Agent]** Done."; "" ].


Definition dated_directory : directory :=
  [("2023-11-14T2213-Fix-the-bug-abc12345.md",
    {| f_text := dated_document "2023-11-15 09:00:00"; f_mtime_ms := 1700038800000 |})].

(** The stores of the example for C3: a global instance with a version
    stamped 5, and three workspace instances with versions stamped 10, 7
    and 10. *)
Definition four_versions : environment :=
  global_and (instance_with (version_text "5" "global"))
             [instance_with (version_text "10" "first");
              instance_with (version_text "7" "second");
              instance_with (version_text "10" "third")].


(** *** More sample records *)

(** An assistant message with thinking text, and an assistant bubble that
    holds thinking text and a tool invocation but no body. *)
Definition agent_thinks_aloud : json :=
  JDict [("type", JInt 2); ("text", JStr "Done.");
         ("thinking", JDict [("text", JStr "Check the tests")])].
Definition agent_thinks_and_lists : json :=
  JDict [("type", JInt 2);
         ("thinking", JDict [("text", JStr "Look around")]);
         ("toolFormerData", tool_call "list_dir" "target_directory" "src")].

(** A bubble whose thinking record has no text. *)
Definition thinking_without_text : fields_t :=
  [("type", JInt 2); ("thinking", JDict [("text", JNull)])].

(** The text of a thread record with a creation timestamp only. *)
Definition created_text (stamp : string) : string :=
  "{" ++ q "createdAt" ++ ": " ++ stamp ++ "}".

(** A store instance that holds the given keyed records. *)
Definition keyed_instance (records : list (string * string)) : connection :=
  {| composer_rows := Ok (map (fun r => (fst r, Some (snd r))) records);
     all_composers_row := Ok None;
     bubble_rows := Ok [];
     context_row := fun _ => Ok None |}.

Definition old_and_new : environment :=
  workspaces_only [keyed_instance [("thread-old", created_text "100");
                                   ("thread-new", created_text "200")]].

(** A global instance whose aggregate record has an entry with a number
    for an id. *)
Definition numbered_thread : environment :=
  {| global_db_exists := true;
     global_db :=
       Ok {| composer_rows := Ok [];
             all_composers_row :=
               Ok (Some (Some ("{" ++ q "allComposers" ++ ": [{" ++ q "composerId"
                                   ++ ": 7}]}")));
             bubble_rows := Ok [];
             context_row := fun _ => Ok None |};
     workspace_dbs := [] |}.

(** A command history of two commands, [ls] then [make test]. *)
Definition two_commands : string :=
  "{" ++ q "entries" ++ ": [{" ++ q "key" ++ ": " ++ q "ls" ++ "}, {"
      ++ q "key" ++ ": " ++ q "make test" ++ "}]}".

(** A directory that holds a file of the user's own. *)
Definition own_notes : directory :=
  [("notes.md", {| f_text := "keep"; f_mtime_ms := 1 |})].

(** Four versions of one thread, the newest in the last workspace
    instance. *)
Definition newest_last : environment :=
  global_and (instance_with (version_text "5" "global"))
             [instance_with (version_text "10" "first");
              instance_with (version_text "7" "second");
              instance_with (version_text "12" "third")].

(** A title with characters that file names do not take. *)
Definition awkward_title : string :=
  "Fix: the " ++ String dquote "bug" ++ String dquote "/now?".

(** A global store that cannot be read, a workspace store without its
    table, and a workspace store with one thread. *)
Definition broken_and_old : environment :=
  {| global_db_exists := true;
     global_db := Raise DatabaseError;
     workspace_dbs :=
       [Raise OperationalError; Ok (keyed_instance [("thread-old", created_text "100")])] |}.

(** A global store without a command history, and one with the history of
    the two commands. *)
Definition no_history : result item_table :=
  Ok {| commands_row := Ok None; dirs_row := Ok None |}.



(** An assistant bubble that shows nothing but carries a token count. *)
Definition counted_silent : json :=
  JDict [("type", JInt 2); ("tokenCount", JDict [("inputTokens", JInt 5)])].

(* ------------------------------------------------------------------ *)
(** ** The exporter *)

Section Exporter.

(** [json.loads] on a [str]: [None] stands for [JSONDecodeError]. *)
Variable json_loads : string -> option json.
(** [json.dumps(v, ensure_ascii=False, indent=2)]. *)
Variable json_dumps : json -> string.
(** [str(v)] for a list or a dict. *)
Variable py_repr : json -> string.
(** [datetime.fromtimestamp(ms / 1000).strftime(fmt)], in local time;
    it raises outside the platform's range. *)
Variable strftime : string -> Z -> result string.

(** [str(v)], as an f-string formats a value. *)
Definition py_str (v : json) : string :=
  match v with
  | JNull => "None"
  | JBool true => "True"
  | JBool false => "False"
  | JInt n => str_of_Z n
  | JStr s => s
  | JList _ | JDict _ => py_repr v
  end.

(** *** Role and content resolution (lines 211-232, 599-619) *)

Definition extract_message_content (bubble : json) : result string :=
  c1 <- get bubble "content" JNull ;;
  c2 <- get bubble "text" JNull ;;
  c3 <- get bubble "richText" JNull ;;
  c4 <- get bubble "message" JNull ;;
  let content := py_or c1 (py_or c2 (py_or c3 (py_or c4 (JStr "")))) in
  if is_dict content then Ok (json_dumps content)
  else Ok (strip (py_str content)).

Definition extract_thinking_content (bubble : json) : result string :=
  thinking <- get bubble "thinking" (JDict []) ;;
  if is_dict thinking then
    text <- get thinking "text" (JStr "") ;;
    s <- the_str text ;;
    Ok (strip s)
  else Ok "".

Definition user_tokens : list string := ["user"; "human"; "client"].
Definition assistant_tokens : list string :=
  ["assistant"; "ai"; "agent"; "bot"; "model"].

Definition mem_str (s : string) (l : list string) : bool :=
  existsb (String.eqb s) l.

Definition role_of_string (r : json) : role :=
  match r with
  | JStr s =>
      let role_lower := lower s in
      if mem_str role_lower user_tokens then User
      else if mem_str role_lower assistant_tokens then Assistant
      else UnknownRole
  | _ => UnknownRole
  end.

Definition get_message_role (bubble : json) : result role :=
  bubble_type <- get bubble "type" JNull ;;
  let by_fields :=
    r1 <- get bubble "role" JNull ;;
    r2 <- get bubble "authorRole" JNull ;;
    r3 <- get bubble "sender" JNull ;;
    Ok (role_of_string (py_or r1 (py_or r2 r3))) in
  match as_int bubble_type with
  | Some 1%Z => Ok User
  | Some 2%Z => Ok Assistant
  | _ => by_fields
  end.

(** *** Per-message context (lines 235-249) *)

Definition get_message_context (conn : connection) (cid : string) (bubble_id : json)
  : result json :=
  let context_key := "messageRequestContext:" ++ cid ++ ":" ++ py_str bubble_id in
  row <- context_row conn context_key ;;
  match row with
  | Some (Some value) =>
      if nonempty value then
        match json_loads value with
        | Some v => Ok v
        | None => Ok (JDict [])
        end
      else Ok (JDict [])
  | _ => Ok (JDict [])
  end.

(** *** Action formatting (lines 259-596) *)

Definition format_code_block (code prefix : string) : list string :=
  if nonempty (strip code) then map (fun line => prefix ++ line) (split_on newline code)
  else [].

(** Lines 287-294: the arguments that [rawArgs] gives. *)
Definition args_of_raw (raw_args : json) : json :=
  if truthy raw_args then
    match raw_args with
    | JStr s => match json_loads s with Some v => v | None => JDict [] end
    | _ => raw_args
    end
  else JDict [].

(** Lines 296-306: the fallback to [params] when there are no arguments yet. *)
Definition args_of_params (args params : json) : json :=
  if negb (truthy args) && truthy params then
    match params with
    | JStr params_str =>
        match json_loads params_str with
        | Some (JDict params_data) => JDict params_data
        | _ => args
        end
    | _ => args
    end
  else args.

Definition parse_args (tool_former_data : json) : result json :=
  raw_args <- get tool_former_data "rawArgs" JNull ;;
  params <- get tool_former_data "params" JNull ;;
  Ok (args_of_params (args_of_raw raw_args) params).

(** Lines 308-314: only [JSONDecodeError] is caught. *)
Definition parse_result (tool_former_data : json) : result json :=
  raw_result <- get tool_former_data "result" (JStr "") ;;
  if truthy raw_result then
    match raw_result with
    | JStr s => match json_loads s with Some v => Ok v | None => Ok (JDict []) end
    | _ => Raise TypeError
    end
  else Ok (JDict []).

Definition fmt_code_result (code_result : json) : result (list string) :=
  match code_result with
  | JDict d =>
      match lookup "codeBlock" d with
      | Some code_block =>
          file_path <- get code_block "relativeWorkspacePath" (JStr "") ;;
          start_line <- get code_block "startLine" (JStr "") ;;
          end_line <- get code_block "endLine" (JStr "") ;;
          if truthy file_path then
            if truthy start_line && truthy end_line then
              Ok ["   📁 " ++ py_str file_path ++ ":" ++ py_str start_line
                    ++ "-" ++ py_str end_line]
            else Ok ["   📁 " ++ py_str file_path]
          else Ok []
      | None => Ok []
      end
  | _ => Ok []
  end.

Definition fmt_codebase_search (args result_data : json) : result (list string) :=
  query <- get args "query" (JStr "") ;;
  target_dirs <- get args "target_directories" (JList []) ;;
  scope <- (if truthy target_dirs then
              ds <- py_iter target_dirs ;;
              Ok ["   → Scope: " ++ join ", " (map py_str ds)]
            else Ok []) ;;
  code_results <- get result_data "codeResults" (JList []) ;;
  found <- (if truthy code_results then
              n <- py_len code_results ;;
              items <- py_iter code_results ;;
              ls <- concatM fmt_code_result items ;;
              Ok (("   → Found " ++ str_of_nat n ++ " result(s)") :: ls)
            else Ok []) ;;
  Ok (["🔍 Searched: " ++ py_str query] +++ scope +++ found).

Definition fmt_read_file (args : json) : result (list string) :=
  file_path <- get args "target_file" (JStr "") ;;
  offset <- get args "offset" JNull ;;
  limit <- get args "limit" JNull ;;
  if truthy file_path then
    range <- (if negb (is_none offset) || negb (is_none limit) then
                let first := py_or offset (JInt 1) in
                upto <- (if truthy limit then
                           match as_int first, as_int limit with
                           | Some a, Some b => Ok ("-" ++ str_of_Z (a + b - 1))
                           | _, _ => Raise TypeError
                           end
                         else Ok "") ;;
                Ok (" (lines " ++ py_str first ++ upto ++ ")")
              else Ok "") ;;
    Ok ["📖 Read file: " ++ py_str file_path ++ range]
  else
    Ok ["📖 Read file: (args unavailable)"].

Definition fmt_write (args : json) : result (list string) :=
  file_path <- get args "file_path" (JStr "") ;;
  contents <- get args "contents" (JStr "") ;;
  n <- line_count contents ;;
  if truthy file_path then
    written <- (if (0 <? n)%nat then
                  code <- the_str contents ;;
                  Ok (["   → " ++ str_of_nat n ++ " lines written"; "   Contents:"]
                        +++ format_code_block code "   | ")
                else Ok []) ;;
    Ok (("✏️ Write file: " ++ py_str file_path) :: written)
  else
    Ok ["✏️ Write file: (args unavailable)"].

Definition fmt_search_replace (args : json) : result (list string) :=
  file_path <- get args "file_path" (JStr "") ;;
  old_string <- get args "old_string" (JStr "") ;;
  new_string <- get args "new_string" (JStr "") ;;
  replace_all <- get args "replace_all" (JBool false) ;;
  let head :=
    if truthy file_path then "🔧 Edit file: " ++ py_str file_path
    else "🔧 Edit file: (args unavailable)" in
  diff <- (if truthy file_path && (truthy old_string || truthy new_string) then
             old_s <- the_str old_string ;;
             let old_block :=
               if nonempty (strip old_s)
               then "   Old:" :: format_code_block old_s "   - " else [] in
             new_s <- the_str new_string ;;
             let new_block :=
               if nonempty (strip new_s)
               then "   New:" :: format_code_block new_s "   + " else [] in
             old_line_count <- line_count old_string ;;
             new_line_count <- line_count new_string ;;
             let net_change := (Z.of_nat new_line_count - Z.of_nat old_line_count)%Z in
             let summary :=
               if (0 <? net_change)%Z
               then ["   → Net change: +" ++ str_of_Z net_change ++ " line(s)"]
               else if (net_change <? 0)%Z
               then ["   → Net change: " ++ str_of_Z net_change ++ " line(s)"]
               else [] in
             Ok (old_block +++ new_block +++ summary)
           else Ok []) ;;
  Ok ([head] +++ diff
        +++ (if truthy replace_all then ["   → Replace all occurrences"] else [])).

Definition fmt_run_terminal_cmd (args result_data : json) : result (list string) :=
  command <- get args "command" (JStr "") ;;
  is_background <- get args "is_background" (JBool false) ;;
  let head :=
    if truthy command then
      "💻 Run: `" ++ py_str command ++ "`"
        ++ (if truthy is_background then " (background)" else "")
    else "💻 Run: (args unavailable)" in
  output <- get result_data "output" (JStr "") ;;
  let out_block :=
    match output with
    | JStr s =>
        let result_stripped := strip s in
        if nonempty s && nonempty result_stripped
        then "   Output:" :: format_code_block result_stripped "   | "
        else []
    | _ => []
    end in
  exit_code <- get result_data "exitCode" JNull ;;
  let exit_line :=
    if negb (is_none exit_code) && ne_zero exit_code
    then ["   → Exit code: " ++ py_str exit_code] else [] in
  Ok ([head] +++ out_block +++ exit_line).

Definition fmt_grep (args result_data : json) : result (list string) :=
  pattern <- get args "pattern" (JStr "") ;;
  path <- get args "path" (JStr "") ;;
  output_mode <- get args "output_mode" (JStr "content") ;;
  glob <- get args "glob" JNull ;;
  case_insensitive <- get args "-i" (JBool false) ;;
  let grep_opts :=
    (if truthy case_insensitive then ["-i"] else [])
      +++ (if truthy glob then ["--glob " ++ py_str glob] else []) in
  let joined := join " " grep_opts in
  let opts_str := if nonempty joined then " (" ++ joined ++ ")" else joined in
  let head :=
    if truthy path
    then "🔎 Grep" ++ opts_str ++ ": '" ++ py_str pattern ++ "' in " ++ py_str path
    else "🔎 Grep" ++ opts_str ++ ": '" ++ py_str pattern ++ "'" in
  summary <- (if eq_str output_mode "files_with_matches" then
                files <- get result_data "files" (JList []) ;;
                if truthy files then
                  n <- py_len files ;;
                  Ok ["   → Found in " ++ str_of_nat n ++ " file(s)"]
                else Ok []
              else if eq_str output_mode "count" then
                Ok ["   → Output: match counts"]
              else Ok []) ;;
  Ok (head :: summary).

Definition fmt_list_dir (args : json) : result (list string) :=
  dir_path <- get args "target_directory" (JStr "") ;;
  ignore_globs <- get args "ignore_globs" (JList []) ;;
  ignoring <- (if truthy ignore_globs then
                 globs <- join_value ", " ignore_globs ;;
                 Ok ["   → Ignoring: " ++ globs]
               else Ok []) ;;
  Ok (("📂 Listed directory: " ++ py_str dir_path) :: ignoring).

Definition fmt_glob_file_search (args : json) : result (list string) :=
  pattern <- get args "glob_pattern" (JStr "") ;;
  target_dir <- get args "target_directory" (JStr "") ;;
  Ok (("🔍 File search: " ++ py_str pattern)
        :: (if truthy target_dir then ["   → In: " ++ py_str target_dir] else [])).

Definition fmt_delete_file (args : json) : result (list string) :=
  file_path <- get args "target_file" (JStr "") ;;
  Ok ["🗑️ Delete file: " ++ py_str file_path].

Definition fmt_edit_notebook (args : json) : result (list string) :=
  notebook <- get args "target_notebook" (JStr "") ;;
  cell_idx <- get args "cell_idx" (JStr "") ;;
  is_new <- get args "is_new_cell" (JBool false) ;;
  Ok ["📓 Edit notebook: " ++ py_str notebook
        ++ (if truthy is_new then " (new cell at " ++ py_str cell_idx ++ ")"
            else " (cell " ++ py_str cell_idx ++ ")")].

Definition fmt_todo_item (todo : json) : result (list string) :=
  if is_dict todo then
    status <- get todo "status" (JStr "unknown") ;;
    content <- get todo "content" (JStr "") ;;
    Ok ["   - [" ++ py_str status ++ "] " ++ py_str content]
  else Ok [].

Definition fmt_todo_write (args : json) : result (list string) :=
  todos <- get args "todos" (JList []) ;;
  merge <- get args "merge" (JBool false) ;;
  n <- py_len todos ;;
  items <- py_iter todos ;;
  ls <- concatM fmt_todo_item items ;;
  Ok (("📝 TODO: " ++ (if truthy merge then "Update" else "Create") ++ " "
         ++ str_of_nat n ++ " item(s)") :: ls).

Definition fmt_web_reference (entry : nat * json) : result (list string) :=
  let '(i, ref) := entry in
  if is_dict ref then
    title <- get ref "title" (JStr "Untitled") ;;
    chunk <- get ref "chunk" (JStr "") ;;
    Ok (("   " ++ str_of_nat i ++ ". " ++ py_str title)
          :: (if truthy chunk then ["      " ++ py_str chunk] else []))
  else Ok [].

Definition fmt_web_search (args result_data : json) : result (list string) :=
  search_term <- get args "search_term" (JStr "") ;;
  results <- (if truthy result_data && is_dict result_data then
                references <- get result_data "references" (JList []) ;;
                if truthy references then
                  n <- py_len references ;;
                  items <- py_iter references ;;
                  ls <- concatM fmt_web_reference (enumerate_from 1 items) ;;
                  Ok (("   → " ++ str_of_nat n ++ " result(s)") :: ls)
                else
                  rejected <- get result_data "rejected" JNull ;;
                  if truthy rejected
                  then Ok ["   → Search was rejected/cancelled"] else Ok []
              else Ok []) ;;
  Ok (("🌐 Web search: " ++ py_str search_term) :: results).

Definition key_arg_names : list string :=
  ["file_path"; "target_file"; "path"; "query"; "pattern"].

(** [f"{key}={str(args[key])}"] when [key in args and args[key]]. *)
Definition fmt_key_arg (args : json) (key : string) : result (list string) :=
  match args with
  | JDict d =>
      match lookup key d with
      | Some v => if truthy v then Ok [key ++ "=" ++ py_str v] else Ok []
      | None => Ok []
      end
  | JList l => if existsb (fun x => eq_str x key) l then Raise TypeError else Ok []
  | JStr s => if contains key s then Raise TypeError else Ok []
  | _ => Raise TypeError
  end.

Definition fmt_generic (tool_name args : json) : result (list string) :=
  shown <- (if truthy args then
              key_args <- concatM (fmt_key_arg args) key_arg_names ;;
              match key_args with
              | [] => Ok []
              | _ => Ok ["   → " ++ join ", " key_args]
              end
            else Ok []) ;;
  Ok (("🔧 " ++ py_str tool_name) :: shown).

(** Lines 284-549: the lines of the tool invocation itself. *)
Definition tool_actions (tool_former_data : json) : result (list string) :=
  if is_dict tool_former_data then
    tool_name <- get tool_former_data "name" (JStr "") ;;
    args <- parse_args tool_former_data ;;
    result_data <- parse_result tool_former_data ;;
    if eq_str tool_name "codebase_search" then fmt_codebase_search args result_data
    else if eq_str tool_name "read_file" then fmt_read_file args
    else if eq_str tool_name "write" then fmt_write args
    else if eq_str tool_name "search_replace" then fmt_search_replace args
    else if eq_str tool_name "run_terminal_cmd" then fmt_run_terminal_cmd args result_data
    else if eq_str tool_name "grep" then fmt_grep args result_data
    else if eq_str tool_name "list_dir" then fmt_list_dir args
    else if eq_str tool_name "glob_file_search" then fmt_glob_file_search args
    else if eq_str tool_name "delete_file" then fmt_delete_file args
    else if eq_str tool_name "edit_notebook" then fmt_edit_notebook args
    else if eq_str tool_name "todo_write" then fmt_todo_write args
    else if eq_str tool_name "web_search" then fmt_web_search args result_data
    else if truthy tool_name then fmt_generic tool_name args
    else Ok []
  else Ok [].

Definition fmt_bubble_web_result (entry : nat * json) : result (list string) :=
  let '(i, res) := entry in
  if is_dict res then
    title <- get res "title" (JStr "Untitled") ;;
    url <- get res "url" (JStr "") ;;
    snippet <- get res "snippet" (JStr "") ;;
    chunk <- get res "chunk" (JStr "") ;;
    if truthy title || truthy url then
      Ok ([("   " ++ str_of_nat i ++ ". " ++ py_str title)]
            +++ (if truthy url then ["      URL: " ++ py_str url] else [])
            +++ (if truthy snippet then ["      Snippet: " ++ py_str snippet] else [])
            +++ (if truthy chunk then ["      Content: " ++ py_str chunk] else []))
    else Ok []
  else Ok [].

Definition fmt_docs_ref (ref : json) : result (list string) :=
  if is_dict ref then
    title <- get ref "title" (JStr "") ;;
    url <- get ref "url" (JStr "") ;;
    Ok ((if truthy title then ["   - " ++ py_str title] else [])
          +++ (if truthy url then ["     " ++ py_str url] else []))
  else Ok [].

Definition fmt_web_ref (ref : json) : result (list string) :=
  if is_dict ref then
    url <- get ref "url" JNull ;;
    if truthy url then Ok ["🔗 " ++ py_str url] else Ok []
  else Ok [].

(** Lines 551-594: the reference blocks stored on the bubble itself. *)
Definition aux_actions (bubble : json) : result (list string) :=
  web_search <- get bubble "aiWebSearchResults" (JList []) ;;
  l1 <- (if truthy web_search then
           n <- py_len web_search ;;
           items <- py_iter web_search ;;
           ls <- concatM fmt_bubble_web_result (enumerate_from 1 items) ;;
           Ok (("🌐 Additional web search results: " ++ str_of_nat n ++ " result(s)") :: ls)
         else Ok []) ;;
  docs_refs <- get bubble "docsReferences" (JList []) ;;
  l2 <- (if truthy docs_refs then
           n <- py_len docs_refs ;;
           items <- py_iter docs_refs ;;
           ls <- concatM fmt_docs_ref items ;;
           Ok (("📚 Docs: " ++ str_of_nat n ++ " reference(s)") :: ls)
         else Ok []) ;;
  web_refs <- get bubble "webReferences" (JList []) ;;
  l3 <- (if truthy web_refs then
           items <- py_iter web_refs ;;
           concatM fmt_web_ref items
         else Ok []) ;;
  context_pieces <- get bubble "contextPieces" (JList []) ;;
  l4 <- (if truthy context_pieces then
           n <- py_len context_pieces ;;
           Ok ["📋 Context: " ++ str_of_nat n ++ " piece(s)"]
         else Ok []) ;;
  Ok (l1 +++ l2 +++ l3 +++ l4).

Definition extract_intermediate_actions (bubble : json) : result (list string) :=
  tool_former_data <- get bubble "toolFormerData" (JDict []) ;;
  tool <- tool_actions tool_former_data ;;
  aux <- aux_actions bubble ;;
  Ok (tool +++ aux).

(** *** File names (lines 622-663) *)

Definition format_timestamp_filename (timestamp_ms : json) : result string :=
  match as_int timestamp_ms with
  | Some ms => strftime "%Y-%m-%dT%H%M" ms
  | None => Raise TypeError
  end.

(** The replacement table of [slugify_title], in the order of the dict. *)
Definition replacements : list (ascii * string) :=
  [ ("/"%char, "-"); (backslash, "-"); (":"%char, "-"); ("*"%char, "-");
    ("?"%char, "-"); (dquote, ""); ("<"%char, "-"); (">"%char, "-");
    ("|"%char, "-"); (" "%char, "-") ].

(** [re.sub(r'-+', '-', s)]. *)
Fixpoint collapse_dashes (s : string) : string :=
  match s with
  | EmptyString => EmptyString
  | String c s' =>
      if Ascii.eqb c "-"%char then
        match s' with
        | String c' _ => if Ascii.eqb c' "-"%char then collapse_dashes s'
                         else String c (collapse_dashes s')
        | EmptyString => String c EmptyString
        end
      else String c (collapse_dashes s')
  end.

Definition is_dash (c : ascii) : bool := Ascii.eqb c "-"%char.

Definition slugify_title (title : string) (max_length : nat) : string :=
  let first_line := match split_on newline title with
                    | l :: _ => l
                    | [] => EmptyString
                    end in
  let title1 := str_take max_length first_line in
  let title2 := fold_left (fun t r => replace_char (fst r) (snd r) t) replacements title1 in
  let title3 := strip_by is_dash (collapse_dashes title2) in
  if nonempty title3 then title3 else "untitled".

Definition generate_filename (thread_data : json) (cid : string) (first_message : string)
  : result string :=
  created_at <- get thread_data "createdAt" (JInt 0) ;;
  timestamp_str <- format_timestamp_filename created_at ;;
  name <- get thread_data "name" JNull ;;
  title <- the_str (py_or name (JStr first_message)) ;;
  let title_slug := slugify_title title 50 in
  let cid_short := str_take 8 cid in
  Ok (timestamp_str ++ "-" ++ title_slug ++ "-" ++ cid_short ++ ".md").

(** *** The per-bubble context block (lines 738-922) *)

(** [if v: heading(len(v)); for x in v: ...; append("")]. *)
Definition listing (heading : nat -> string) (v : json)
    (each : json -> result (list string)) : result (list string) :=
  if truthy v then
    n <- py_len v ;;
    items <- py_iter v ;;
    ls <- concatM each items ;;
    Ok (heading n :: ls +++ [""])
  else Ok [].

Definition ctx_file (file_info : json) : result (list string) :=
  match file_info with
  | JDict d =>
      match lookup "path" d with
      | Some p => Ok ["- `" ++ py_str p ++ "`"]
      | None => Ok []
      end
  | _ => Ok []
  end.

Definition todo_line (todo : json) : result string :=
  todo_content <- get todo "content" (JStr "Unknown") ;;
  todo_status <- get todo "status" (JStr "unknown") ;;
  Ok ("- [" ++ py_str todo_status ++ "] " ++ py_str todo_content).

Definition ctx_todo (todo : json) : result (list string) :=
  match todo with
  | JDict _ => l <- todo_line todo ;; Ok [l]
  | JStr s =>
      match json_loads s with
      | Some (JDict d) => l <- todo_line (JDict d) ;; Ok [l]
      | _ => Ok ["- " ++ s]
      end
  | _ => Ok ["- " ++ py_str todo]
  end.

Definition ctx_terminal_file (term_file : json) : result (list string) :=
  Ok ["- " ++ py_str term_file].

Definition ctx_rule (rule : json) : result (list string) :=
  match rule with
  | JDict _ =>
      text <- get rule "text" (JStr "") ;;
      rule_content <- get rule "content" text ;;
      if truthy rule_content then Ok ["- " ++ py_str rule_content] else Ok []
  | JStr s => Ok ["- " ++ s]
  | _ => Ok []
  end.

Definition ctx_git_diff (diff : json) : result (list string) :=
  if is_dict diff then
    file_path <- get diff "path" (JStr "Unknown") ;;
    diff_content <- get diff "diff" (JStr "") ;;
    body <- (if truthy diff_content then
               text <- the_str diff_content ;;
               Ok (["  ```diff"]
                     +++ map (fun line => "  " ++ line) (split_on newline text)
                     +++ ["  ```"])
             else Ok []) ;;
    Ok (("- " ++ py_str file_path) :: body)
  else Ok [].

(** [v[:8]]; slicing a dict raises ([KeyError] from Python 3.12 on). *)
Definition slice8 (v : json) : result json :=
  match v with
  | JStr s => Ok (JStr (str_take 8 s))
  | JList l => Ok (JList (firstn 8 l))
  | _ => Raise TypeError
  end.

Definition ctx_commit (commit : json) : result (list string) :=
  if is_dict commit then
    sha_full <- get commit "sha" (JStr "") ;;
    sha <- slice8 sha_full ;;
    message <- get commit "message" (JStr "No message") ;;
    Ok ["- " ++ py_str sha ++ ": " ++ py_str message]
  else Ok [].

Definition ctx_pull_request (pr : json) : result (list string) :=
  if is_dict pr then
    number <- get pr "number" (JStr "") ;;
    title <- get pr "title" (JStr "No title") ;;
    Ok ["- PR #" ++ py_str number ++ ": " ++ py_str title]
  else Ok [].

Definition ctx_lint (lint : json) : result (list string) :=
  if is_dict lint then
    severity <- get lint "severity" (JStr "error") ;;
    message <- get lint "message" (JStr "Unknown") ;;
    file_path <- get lint "file" (JStr "") ;;
    line <- get lint "line" (JStr "") ;;
    Ok ["- [" ++ py_str severity ++ "] " ++ py_str message
          ++ (if truthy file_path then
                " (" ++ py_str file_path
                  ++ (if truthy line then ":" ++ py_str line else "") ++ ")"
              else "")]
  else Ok [].

Definition ctx_human_change (change : json) : result (list string) :=
  if is_dict change then
    file_path <- get change "file" (JStr "Unknown") ;;
    change_type <- get change "type" (JStr "edit") ;;
    Ok ["- " ++ py_str change_type ++ ": " ++ py_str file_path]
  else Ok [].

Definition ctx_folder (folder : json) : result (list string) :=
  match folder with
  | JDict _ =>
      name <- get folder "name" (JStr "Unknown") ;;
      folder_path <- get folder "path" name ;;
      Ok ["- " ++ py_str folder_path]
  | JStr s => Ok ["- " ++ s]
  | _ => Ok []
  end.

Definition ctx_recent_file (file : json) : result (list string) :=
  match file with
  | JDict _ =>
      alt <- get file "file" (JStr "") ;;
      file_path <- get file "path" alt ;;
      if truthy file_path then Ok ["- " ++ py_str file_path] else Ok []
  | JStr s => Ok ["- " ++ s]
  | _ => Ok []
  end.

Definition ctx_image (img : json) : result (list string) :=
  match img with
  | JDict _ =>
      filename <- get img "filename" (JStr "Unnamed") ;;
      img_name <- get img "name" filename ;;
      mime <- get img "mimeType" (JStr "unknown") ;;
      img_type <- get img "type" mime ;;
      Ok ["- " ++ py_str img_name ++ " (" ++ py_str img_type ++ ")"]
  | JStr s => Ok ["- " ++ s]
  | _ => Ok []
  end.

(** [a + b] on decoded values. *)
Definition py_add (a b : json) : result json :=
  match a, b with
  | JList x, JList y => Ok (JList (x +++ y))
  | JStr x, JStr y => Ok (JStr (x ++ y))
  | _, _ =>
      match as_int a, as_int b with
      | Some x, Some y => Ok (JInt (x + y))
      | _, _ => Raise TypeError
      end
  end.

Definition plural_heading (label : string) (n : nat) : string :=
  "**" ++ label ++ " (" ++ str_of_nat n ++ "):**".

(** Lines 740-801: the lines drawn from the stored context record. *)
Definition stored_context_info (context_data : json) : result (list string) :=
  if truthy context_data then
    files <- get context_data "files" (JList []) ;;
    l1 <- listing (plural_heading "Files Referenced") files ctx_file ;;
    todos <- get context_data "todos" (JList []) ;;
    l2 <- listing (fun n => "**[TODOs]** (" ++ str_of_nat n ++ ")") todos ctx_todo ;;
    terminal_files <- get context_data "terminalFiles" (JList []) ;;
    l3 <- listing (plural_heading "Terminal Context") terminal_files ctx_terminal_file ;;
    cursor_rules <- get context_data "cursorRules" (JList []) ;;
    l4 <- listing (plural_heading "Cursor Rules") cursor_rules ctx_rule ;;
    Ok (l1 +++ l2 +++ l3 +++ l4)
  else Ok [].

(** Lines 803-922: the lines drawn from the bubble itself. *)
Definition bubble_context_info (bubble : json) : result (list string) :=
  git_diffs <- get bubble "gitDiffs" (JList []) ;;
  l1 <- listing (plural_heading "Git Diffs") git_diffs ctx_git_diff ;;
  commits <- get bubble "commits" (JList []) ;;
  l2 <- listing (plural_heading "Git Commits") commits ctx_commit ;;
  pull_requests <- get bubble "pullRequests" (JList []) ;;
  l3 <- listing (plural_heading "Pull Requests") pull_requests ctx_pull_request ;;
  lints <- get bubble "lints" (JList []) ;;
  approx_lints <- get bubble "approximateLintErrors" (JList []) ;;
  multi_lints <- get bubble "multiFileLinterErrors" (JList []) ;;
  some_lints <- py_add lints approx_lints ;;
  all_lints <- py_add some_lints multi_lints ;;
  l4 <- listing (plural_heading "Linting Issues") all_lints ctx_lint ;;
  human_changes <- get bubble "humanChanges" (JList []) ;;
  l5 <- listing (plural_heading "Human Edits") human_changes ctx_human_change ;;
  folders <- get bubble "attachedFolders" (JList []) ;;
  folders_new <- get bubble "attachedFoldersNew" (JList []) ;;
  l6 <- listing (plural_heading "Attached Folders") (py_or folders folders_new) ctx_folder ;;
  recently_viewed <- get bubble "recentlyViewedFiles" (JList []) ;;
  l7 <- listing (plural_heading "Recently Viewed Files") recently_viewed ctx_recent_file ;;
  images <- get bubble "images" (JList []) ;;
  l8 <- listing (plural_heading "Images") images ctx_image ;;
  is_agentic <- get bubble "isAgentic" JNull ;;
  let l9 := if truthy is_agentic then ["**Mode:** Agentic"; ""] else [] in
  Ok (l1 +++ l2 +++ l3 +++ l4 +++ l5 +++ l6 +++ l7 +++ l8 +++ l9).

(** *** The transcript renderer (lines 666-1007) *)

Fixpoint sum_tokens (bubbles : list json) (total_in total_out : Z) : result (Z * Z) :=
  match bubbles with
  | [] => Ok (total_in, total_out)
  | bubble :: rest =>
      token_count <- get bubble "tokenCount" (JDict []) ;;
      if is_dict token_count then
        i <- get token_count "inputTokens" (JInt 0) ;;
        match as_int i with
        | Some a =>
            o <- get token_count "outputTokens" (JInt 0) ;;
            match as_int o with
            | Some b => sum_tokens rest (total_in + a)%Z (total_out + b)%Z
            | None => Raise TypeError
            end
        | None => Raise TypeError
        end
      else sum_tokens rest total_in total_out
  end.

(** [f['name']]. *)
Definition index_name (f : json) : result json :=
  match f with
  | JDict d => match lookup "name" d with Some v => Ok v | None => Raise KeyError end
  | _ => Raise TypeError
  end.

Definition must_be_str (v : json) : result string :=
  match v with JStr s => Ok s | _ => Raise TypeError end.

Definition strftime_seconds (timestamp_ms : json) : result string :=
  match as_int timestamp_ms with
  | Some ms => strftime "%Y-%m-%d %H:%M:%S" ms
  | None => Raise TypeError
  end.

(** The line that carries the wall-clock reading [now] of the run. *)
Definition exported_line (now : string) : string := "**Exported:** " ++ now ++ "  ".

(** Lines 668-716.  [now] is [datetime.now().strftime('%Y-%m-%d %H:%M:%S')]. *)
Definition header_lines (now : string) (thread_data : json) (cid : string)
    (bubbles : list json) : result (list string) :=
  thread_name <- get thread_data "name" (JStr "Untitled Conversation") ;;
  created_at <- get thread_data "createdAt" (JInt 0) ;;
  updated_at <- get thread_data "lastUpdatedAt" created_at ;;
  created_str <- strftime_seconds created_at ;;
  updated_str <- strftime_seconds updated_at ;;
  totals <- sum_tokens bubbles 0 0 ;;
  let total_input_tokens := fst totals in
  let total_output_tokens := snd totals in
  let tokens :=
    if (0 <? total_input_tokens)%Z || (0 <? total_output_tokens)%Z then
      ["**Tokens:** " ++ str_of_Z_commas (total_input_tokens + total_output_tokens)
         ++ " (" ++ str_of_Z_commas total_input_tokens ++ " in / "
         ++ str_of_Z_commas total_output_tokens ++ " out)  "]
    else [] in
  context <- get thread_data "context" JNull ;;
  context_lines <-
    (if truthy context then
       context_files <- (if is_dict context then get context "files" (JList [])
                         else Ok (JList [])) ;;
       if truthy context_files then
         items <- py_iter context_files ;;
         names <- mapM index_name items ;;
         strs <- mapM must_be_str names ;;
         Ok ["**Context:** " ++ join ", " strs ++ "  "; ""]
       else Ok []
     else Ok []) ;;
  Ok ([ "# " ++ py_str thread_name;
        "";
        exported_line now;
        "**Thread ID:** `" ++ cid ++ "`  ";
        "**Created:** " ++ created_str ++ "  ";
        "**Last Updated:** " ++ updated_str ++ "  ";
        "**Messages:** " ++ str_of_nat (List.length bubbles) ++ "  " ]
        +++ tokens +++ [""] +++ context_lines).

(** What one iteration of the loop computes about its bubble (lines 723-922). *)
Record view : Type := {
  v_content : string;
  v_role : role;
  v_thinking : string;
  v_actions : list string;
  v_context_info : list string
}.

Definition bubble_context (conn : connection) (cid : string) (bubble : json)
  : result json :=
  bubble_id <- get bubble "bubbleId" (JStr "") ;;
  if truthy bubble_id then get_message_context conn cid bubble_id
  else Ok (JDict []).

Definition bubble_view (conn : connection) (cid : string) (bubble : json)
  : result view :=
  content <- extract_message_content bubble ;;
  role <- get_message_role bubble ;;
  context_data <- bubble_context conn cid bubble ;;
  thinking_content <- extract_thinking_content bubble ;;
  actions <- extract_intermediate_actions bubble ;;
  stored <- stored_context_info context_data ;;
  own <- bubble_context_info bubble ;;
  Ok {| v_content := content; v_role := role; v_thinking := thinking_content;
        v_actions := actions; v_context_info := stored +++ own |}.

Definition has_lines (l : list string) : bool :=
  match l with [] => false | _ => true end.

Definition has_content (v : view) : bool := nonempty (strip (v_content v)).

(** Line 925: nothing to show. *)
Definition is_empty_view (v : view) : bool :=
  negb (has_content v) && negb (has_lines (v_actions v))
  && negb (has_lines (v_context_info v)) && negb (nonempty (v_thinking v)).

(** Line 934: only actions to show. *)
Definition is_action_only (v : view) : bool :=
  negb (has_content v) && has_lines (v_actions v)
  && negb (has_lines (v_context_info v)) && negb (nonempty (v_thinking v)).

Definition context_fields : list string :=
  ["files"; "todos"; "terminalFiles"; "cursorRules"].

(** Lines 951-955. *)
Definition next_context_fields (next_context_data : json) : result (list string) :=
  if truthy next_context_data then
    concatM (fun field =>
               v <- get next_context_data field JNull ;;
               Ok (if truthy v then [field] else []))
            context_fields
  else Ok [].

(** Lines 942-961: the test of the look-ahead; the actions of the next
    bubble when it joins the block. *)
Definition next_action_only (conn : connection) (cid : string) (next_bubble : json)
  : result (option (list string)) :=
  next_content <- extract_message_content next_bubble ;;
  next_context_data <- bubble_context conn cid next_bubble ;;
  next_actions <- extract_intermediate_actions next_bubble ;;
  next_thinking <- extract_thinking_content next_bubble ;;
  next_context_info <- next_context_fields next_context_data ;;
  if negb (nonempty (strip next_content)) && has_lines next_actions
     && negb (has_lines next_context_info) && negb (nonempty next_thinking)
  then Ok (Some next_actions)
  else Ok None.

(** Lines 940-961: the inner loop from [j = i + 1]; the result is
    [all_actions] and [j - (i + 1)]. *)
Fixpoint lookahead (conn : connection) (cid : string) (following : list json)
    (all_actions : list string) : result (list string * nat) :=
  match following with
  | [] => Ok (all_actions, 0)
  | next_bubble :: rest =>
      joined <- next_action_only conn cid next_bubble ;;
      match joined with
      | Some next_actions =>
          r <- lookahead conn cid rest (all_actions +++ next_actions) ;;
          Ok (fst r, S (snd r))
      | None => Ok (all_actions, 0)
      end
  end.

Definition separator : list string := [""; "---"; ""].

(** Lines 929-931. *)
Definition transition (last_role : option role) (r : role) : list string :=
  match last_role with
  | Some l => if role_eqb l r then [] else separator
  | None => []
  end.

(** Lines 964-967. *)
Definition actions_block (all_actions : list string) : list string :=
  ["**[Actions]**"] +++ map (fun action => "- " ++ action) all_actions +++ [""].

(** Lines 974-1002. *)
Definition bubble_lines (v : view) : list string :=
  (if nonempty (v_thinking v) then ["**[Thinking]** " ++ v_thinking v; ""] else [])
  +++ (if has_content v then
         [match v_role v with
          | User => "**[User]** " ++ v_content v
          | Assistant => "**[Agent]** " ++ v_content v
          | r => "**[" ++ role_title r ++ "]** " ++ v_content v
          end]
       else [])
  +++ (if has_lines (v_context_info v) then
         (if has_content v then [""] else []) +++ v_context_info v
       else [])
  +++ (if has_lines (v_actions v) && has_content v then
         [""; "**[Actions]**"] +++ map (fun action => "- " ++ action) (v_actions v)
       else [])
  +++ [""].

(** Lines 719-1005: the loop over the bubbles from index [i].  [bubbles]
    is the part of the list from [i] on, less the [skip] bubbles a
    look-ahead has consumed already ([i = j]).  The result is the final
    [last_role] and [md_lines]. *)
Fixpoint render_loop (conn : connection) (cid : string) (bubbles : list json)
    (skip : nat) (last_role : option role) (md_lines : list string)
  : result (option role * list string) :=
  match bubbles with
  | [] => Ok (last_role, md_lines)
  | bubble :: rest =>
      match skip with
      | S k => render_loop conn cid rest k last_role md_lines
      | O =>
          v <- bubble_view conn cid bubble ;;
          if is_empty_view v then render_loop conn cid rest 0 last_role md_lines
          else
            let md_lines1 := md_lines +++ transition last_role (v_role v) in
            if is_action_only v then
              r <- lookahead conn cid rest (v_actions v) ;;
              render_loop conn cid rest (snd r) (Some Assistant)
                          (md_lines1 +++ actions_block (fst r))
            else
              render_loop conn cid rest 0 (Some (v_role v))
                          (md_lines1 +++ bubble_lines v)
      end
  end.

Definition markdown_lines (now : string) (thread_data : json) (cid : string)
    (bubbles : list json) (conn : connection) : result (list string) :=
  md_lines <- header_lines now thread_data cid bubbles ;;
  r <- render_loop conn cid bubbles 0 None md_lines ;;
  Ok (snd r).

Definition format_conversation_markdown (now : string) (thread_data : json)
    (cid : string) (bubbles : list json) (filename : string) (conn : connection)
  : result string :=
  md_lines <- markdown_lines now thread_data cid bubbles conn ;;
  Ok (join (String newline EmptyString) md_lines).

(** *** Thread reconstruction (lines 61-152) *)

(** Keys of a Python [dict] among decoded values: lists and dicts are not
    hashable; [True == 1] and [False == 0]. *)
Definition hashable (k : json) : bool :=
  match k with
  | JList _ | JDict _ => false
  | _ => true
  end.

Definition key_eqb (a b : json) : bool :=
  match a, b with
  | JNull, JNull => true
  | JStr x, JStr y => String.eqb x y
  | _, _ =>
      match as_int a, as_int b with
      | Some x, Some y => Z.eqb x y
      | _, _ => false
      end
  end.

(** [a > b]: integers by value, strings by character code; the ordering
    of two lists is not modelled. *)
Definition py_gt (a b : json) : result bool :=
  match as_int a, as_int b with
  | Some x, Some y => Ok (y <? x)%Z
  | _, _ =>
      match a, b with
      | JStr x, JStr y => Ok (String.ltb y x)
      | JList _, JList _ => Raise Unmodelled
      | _, _ => Raise TypeError
      end
  end.

Definition threads_t : Type := list (json * json).

(** Lines 66-83: the keyed records.  A missing table yields nothing. *)
Definition keyed_threads (conn : connection) : result threads_t :=
  match composer_rows conn with
  | Ok rows =>
      Ok (flat_map (fun row : string * option string =>
                      match snd row with
                      | Some value_blob =>
                          match json_loads value_blob with
                          | Some data => [(JStr (fst row), data)]
                          | None => []
                          end
                      | None => []
                      end) rows)
  | Raise OperationalError => Ok []
  | Raise e => Raise e
  end.

Definition composer_entry (composer : json) : threads_t :=
  match composer with
  | JDict d =>
      match lookup "composerId" d with
      | Some cid => [(cid, composer)]
      | None => []
      end
  | _ => []
  end.

(** Lines 85-104: the aggregate record with its [allComposers] array. *)
Definition aggregate_threads (conn : connection) : result threads_t :=
  match all_composers_row conn with
  | Ok (Some (Some value)) =>
      if nonempty value then
        match json_loads value with
        | Some (JDict d) =>
            match lookup "allComposers" d with
            | Some composers =>
                match py_iter composers with
                | Ok items => Ok (flat_map composer_entry items)
                | Raise _ => Ok []
                end
            | None => Ok []
            end
        | _ => Ok []
        end
      else Ok []
  | Ok _ => Ok []
  | Raise OperationalError => Ok []
  | Raise e => Raise e
  end.

Definition get_composer_threads (conn : connection) : result threads_t :=
  keyed <- keyed_threads conn ;;
  aggregate <- aggregate_threads conn ;;
  Ok (keyed +++ aggregate).

(** Lines 121-122; an exception ends the loop and keeps what was stored. *)
Fixpoint merge_global (threads : threads_t) (all_threads : threads_t) : threads_t :=
  match threads with
  | [] => all_threads
  | (cid, data) :: rest =>
      if hashable cid then merge_global rest (assoc_set key_eqb cid data all_threads)
      else all_threads
  end.

Definition last_updated (data : json) : result json := get data "lastUpdatedAt" (JInt 0).

(** Line 141. *)
Definition is_newer (data old : json) : result bool :=
  a <- last_updated data ;;
  b <- last_updated old ;;
  py_gt a b.

(** Lines 139-142; an exception ends the loop and keeps what was stored. *)
Fixpoint merge_workspace (threads : threads_t) (all_threads : threads_t) : threads_t :=
  match threads with
  | [] => all_threads
  | (cid, data) :: rest =>
      if hashable cid then
        match assoc_get key_eqb cid all_threads with
        | None => merge_workspace rest (assoc_set key_eqb cid data all_threads)
        | Some old =>
            match is_newer data old with
            | Ok true => merge_workspace rest (assoc_set key_eqb cid data all_threads)
            | Ok false => merge_workspace rest all_threads
            | Raise _ => all_threads
            end
        end
      else all_threads
  end.

Definition threads_of (db : result connection) : result threads_t :=
  conn <- db ;; get_composer_threads conn.

Definition merge_global_db (env : environment) : threads_t :=
  if global_db_exists env then
    match threads_of (global_db env) with
    | Ok threads => merge_global threads []
    | Raise _ => []
    end
  else [].

Definition merge_workspace_db (all_threads : threads_t) (db : result connection)
  : threads_t :=
  match threads_of db with
  | Ok threads => merge_workspace threads all_threads
  | Raise _ => all_threads
  end.

(** Lines 111-145: [all_threads] before sorting. *)
Definition merged_threads (env : environment) : threads_t :=
  fold_left merge_workspace_db (workspace_dbs env) (merge_global_db env).

(** Line 151: a stable sort on [createdAt], greatest first. *)
Fixpoint insert_desc (x : json * (json * json)) (sorted : list (json * (json * json)))
  : result (list (json * (json * json))) :=
  match sorted with
  | [] => Ok [x]
  | y :: rest =>
      lt <- py_gt (fst y) (fst x) ;;
      if lt then tl <- insert_desc x rest ;; Ok (y :: tl)
      else Ok (x :: y :: rest)
  end.

Fixpoint sort_desc (keyed : list (json * (json * json)))
  : result (list (json * (json * json))) :=
  match keyed with
  | [] => Ok []
  | x :: rest => tl <- sort_desc rest ;; insert_desc x tl
  end.

Definition created_at_key (item : json * json) : result (json * (json * json)) :=
  k <- get (snd item) "createdAt" (JInt 0) ;; Ok (k, item).

Definition sorted_threads (all_threads : threads_t) : result threads_t :=
  keyed <- mapM created_at_key all_threads ;;
  sorted <- sort_desc keyed ;;
  Ok (map snd sorted).

Definition get_all_composer_threads (env : environment) : result threads_t :=
  sorted_threads (merged_threads env).

(** *** The batch bubble aggregator (lines 178-208) *)

(** The thread id inside a key [bubbleId:{cid}:{bubble_id}]. *)
Definition bubble_key_cid (key : string) : option string :=
  let rest := str_drop 9 key in
  match find_char ":"%char rest with
  | Some colon => Some (str_take colon rest)
  | None => None
  end.

(** [result.setdefault(cid, []).append(bubble)]. *)
Definition append_bubble (cid : string) (bubble : json)
    (result : list (string * list json)) : list (string * list json) :=
  match assoc_get String.eqb cid result with
  | Some bubbles => assoc_set String.eqb cid (bubbles +++ [bubble]) result
  | None => assoc_set String.eqb cid [bubble] result
  end.

Definition batch_step (cid_set : list string) (result : list (string * list json))
    (row : string * option string) : list (string * list json) :=
  match bubble_key_cid (fst row) with
  | None => result
  | Some cid =>
      if mem_str cid cid_set then
        match snd row with
        | Some value_blob =>
            match json_loads value_blob with
            | Some bubble => append_bubble cid bubble result
            | None => result
            end
        | None => result
        end
      else result
  end.

Definition get_bubbles_batch (conn : connection) (cid_set : list string)
  : result (list (string * list json)) :=
  rows <- bubble_rows conn ;;
  Ok (fold_left (batch_step cid_set) rows []).

(** *** The incremental export controller (lines 1010-1114)

    The output directory is passed in and returned.  Console output is
    not part of the embedding. *)

(** [Path.name]: the final component of a relative path. *)
Definition path_name (path : string) : string :=
  match rfind "/"%char path with
  | Some i => str_drop (S i) path
  | None => path
  end.

(** [Path.stem]: the final component without its last suffix. *)
Definition stem (path : string) : string :=
  let name := path_name path in
  match rfind "."%char name with
  | Some i => if ((0 <? i) && (i <? String.length name - 1))%nat
              then str_take i name else name
  | None => name
  end.

(** [output_path.glob('*.md')]: the entries directly below the directory. *)
Definition glob_md (dir : directory) : directory :=
  filter (fun entry => ends_with ".md" (fst entry) && negb (contains "/" (fst entry))) dir.

(** The fingerprint of a thread id and the one read back off a file name. *)
Definition fingerprint (cid : string) : string := str_take 8 cid.
Definition file_fingerprint (name : string) : string := str_last 8 (stem name).

(** Lines 1053-1055. *)
Definition index_existing (dir : directory) : list (string * file) :=
  fold_left (fun existing_by_cid entry =>
               assoc_set String.eqb (file_fingerprint (fst entry)) (snd entry)
                         existing_by_cid)
            (glob_md dir) [].

(** Line 1064. *)
Definition thread_updated (thread_data : json) : result json :=
  created_at <- get thread_data "createdAt" (JInt 0) ;;
  get thread_data "lastUpdatedAt" created_at.

(** Lines 1063-1068: is the thread skipped as up to date? *)
Definition is_up_to_date (existing_by_cid : list (string * file)) (cid : string)
    (thread_data : json) : result bool :=
  let cid_short := fingerprint cid in
  thread_updated_ms <- thread_updated thread_data ;;
  if truthy thread_updated_ms then
    match assoc_get String.eqb cid_short existing_by_cid with
    | Some f =>
        match as_int thread_updated_ms with
        | Some updated => Ok (updated <=? f_mtime_ms f)%Z
        | None => Raise TypeError
        end
    | None => Ok false
    end
  else Ok false.

(** Lines 1061-1069: the threads that need an export. *)
Fixpoint partition_threads (existing_by_cid : list (string * file)) (threads : threads_t)
  : result (list (string * json)) :=
  match threads with
  | [] => Ok []
  | (JStr cid, thread_data) :: rest =>
      current <- is_up_to_date existing_by_cid cid thread_data ;;
      needs_export <- partition_threads existing_by_cid rest ;;
      Ok (if current then needs_export else (cid, thread_data) :: needs_export)
  | _ :: _ => Raise TypeError
  end.

(** Lines 1082-1087. *)
Fixpoint first_content (bubbles : list json) : result string :=
  match bubbles with
  | [] => Ok ""
  | bubble :: rest =>
      content <- extract_message_content bubble ;;
      if nonempty (strip content) then Ok content else first_content rest
  end.

Definition write_file (path text : string) (mtime_ms : Z) (dir : directory) : directory :=
  assoc_set String.eqb path {| f_text := text; f_mtime_ms := mtime_ms |} dir.

(** Lines 1073-1114 for one thread.  The state is the directory and the
    number of documents rendered so far; the document rendered as number
    [k] reads [fst (clock k)] as the formatted wall-clock time, and its
    file gets the modification time [snd (clock k)].  [can_write] tells
    whether the file can be opened for writing. *)
Definition export_thread (conn : connection) (can_write : string -> bool)
    (clock : nat -> string * Z) (bubbles_by_cid : list (string * list json))
    (state : directory * nat) (thread : string * json) : result (directory * nat) :=
  let cid := fst thread in
  let thread_data := snd thread in
  let bubbles := match assoc_get String.eqb cid bubbles_by_cid with
                 | Some bs => bs
                 | None => []
                 end in
  match bubbles with
  | [] => Ok state
  | _ :: _ =>
      first <- first_content bubbles ;;
      if nonempty first then
        filename <- generate_filename thread_data cid first ;;
        markdown_content <-
          format_conversation_markdown (fst (clock (snd state))) thread_data cid
                                       bubbles filename conn ;;
        if can_write filename then
          Ok (write_file filename markdown_content (snd (clock (snd state))) (fst state),
              S (snd state))
        else Ok (fst state, S (snd state))
      else Ok state
  end.

Fixpoint export_threads (conn : connection) (can_write : string -> bool)
    (clock : nat -> string * Z) (bubbles_by_cid : list (string * list json))
    (needs_export : list (string * json)) (state : directory * nat)
  : result (directory * nat) :=
  match needs_export with
  | [] => Ok state
  | thread :: rest =>
      state' <- export_thread conn can_write clock bubbles_by_cid state thread ;;
      export_threads conn can_write clock bubbles_by_cid rest state'
  end.

(** *** The terminal history (lines 1289-1376) *)

(** [json.loads(s)], raising. *)
Definition loads (s : string) : result json :=
  match json_loads s with
  | Some v => Ok v
  | None => Raise JSONDecodeError
  end.

(** [v[-n:]] for [n > 0]: only sequences can be sliced. *)
Definition last_items (n : nat) (v : json) : result json :=
  match v with
  | JList l => Ok (JList (skipn (List.length l - n) l))
  | JStr s => Ok (JStr (str_last n s))
  | _ => Raise TypeError
  end.

(** [reversed(v)] for the sequences a slice yields. *)
Definition py_reversed (v : json) : result (list json) :=
  match v with
  | JList l => Ok (rev l)
  | JStr s => Ok (rev (chars_of s))
  | _ => Raise TypeError
  end.

(** [sub in v] for a string [sub]. *)
Definition py_contains (sub : string) (v : json) : result bool :=
  match v with
  | JStr s => Ok (contains sub s)
  | JList l => Ok (existsb (fun x => eq_str x sub) l)
  | JDict d => Ok (existsb (fun kv => String.eqb sub (fst kv)) d)
  | _ => Raise TypeError
  end.

(** [s.replace(old, new)] for the two-character [old] made of [a] and [b]. *)
Fixpoint replace_pair (a b : ascii) (new : string) (s : string) : string :=
  match s with
  | String x ((String y rest) as s') =>
      if Ascii.eqb x a && Ascii.eqb y b then new ++ replace_pair a b new rest
      else String x (replace_pair a b new s')
  | _ => s
  end.

(** The two characters backslash and [n], as a command of several lines
    is stored. *)
Definition escaped_newline : string := String backslash "n".

(** Lines 1324-1343: one entry of the command history.  [total] is
    [len(commands)] and [shown] is [len(commands[-50:])]. *)
Definition history_command (total shown : nat) (entry : nat * json)
  : result (list string) :=
  let '(i, cmd_entry) := entry in
  if is_dict cmd_entry then
    command <- get cmd_entry "key" (JStr "") ;;
    shell_info <- get cmd_entry "value" (JDict []) ;;
    shell_type <- (if is_dict shell_info then get shell_info "shellType" (JStr "unknown")
                   else Ok (JStr "unknown")) ;;
    let number := str_of_nat (total - shown + i + 1) in
    several_lines <- py_contains escaped_newline command ;;
    if several_lines then
      text <- the_str command ;;
      let clean_cmd :=
        replace_pair backslash "n"
                     (" " ++ String backslash (String backslash (String newline "    ")))
                     text in
      Ok ["### Command " ++ number ++ " (" ++ py_str shell_type ++ ")";
          "```bash"; clean_cmd; "```"; ""]
    else
      Ok ["**" ++ number ++ ".** `" ++ py_str command ++ "` (" ++ py_str shell_type ++ ")";
          ""]
  else Ok [].

(** Lines 1357-1360: one entry of the directory history. *)
Definition history_dir (entry : nat * json) : result (list string) :=
  let '(i, dir_entry) := entry in
  if is_dict dir_entry then
    directory <- get dir_entry "key" (JStr "") ;;
    Ok ["**" ++ str_of_nat (i + 1) ++ ".** `" ++ py_str directory ++ "`"]
  else Ok [].

(** Lines 1346-1361. *)
Definition history_dirs (dirs_result : option (option string)) : result (list string) :=
  match dirs_result with
  | Some (Some value) =>
      if nonempty value then
        dirs_data <- loads value ;;
        dirs <- get dirs_data "entries" (JList []) ;;
        if truthy dirs then
          recent <- last_items 20 dirs ;;
          entries <- py_reversed recent ;;
          ls <- concatM history_dir (enumerate_from 0 entries) ;;
          Ok (["## Recent Directories"; ""] +++ ls +++ [""])
        else Ok []
      else Ok []
  | _ => Ok []
  end.

(** Lines 1307-1361: the lines of the document, from the text of the
    commands record.  [now] is the formatted wall-clock reading. *)
Definition terminal_history_lines (now : string) (value : string)
    (dirs_result : option (option string)) : result (list string) :=
  commands_data <- loads value ;;
  commands <- get commands_data "entries" (JList []) ;;
  total <- py_len commands ;;
  recent <- last_items 50 commands ;;
  shown <- py_len recent ;;
  entries <- py_reversed recent ;;
  command_lines <- concatM (history_command total shown) (enumerate_from 0 entries) ;;
  dir_lines <- history_dirs dirs_result ;;
  Ok ([ "# Terminal History";
        "";
        "**Exported:** " ++ now ++ "  ";
        "**Total Commands:** " ++ str_of_nat total ++ "  ";
        "";
        "## Recent Commands";
        "" ]
        +++ command_lines +++ dir_lines).

(** Lines 1291-1366: what is to be written, if anything. *)
Definition terminal_history_document (store : result item_table) (now : string)
  : result (option string) :=
  table <- store ;;
  commands_result <- commands_row table ;;
  dirs_result <- dirs_row table ;;
  match commands_result with
  | Some (Some value) =>
      if nonempty value then
        md_lines <- terminal_history_lines now value dirs_result ;;
        Ok (Some (join (String newline EmptyString) md_lines))
      else Ok None
  | _ => Ok None
  end.

(** The whole function: every exception is caught (line 1374), and then
    nothing is written.  [store] is the second connection the function
    opens to the global store; the file gets the modification time
    [mtime_ms]. *)
Definition export_terminal_history (store : result item_table)
    (can_write : string -> bool) (now : string) (mtime_ms : Z) (dir : directory)
  : directory :=
  match terminal_history_document store now with
  | Ok (Some text) =>
      if can_write "terminal-history.md"
      then write_file "terminal-history.md" text mtime_ms dir
      else dir
  | _ => dir
  end.

(** *** The run (lines 1010-1122) *)

(** Lines 1031-1033. *)
Fixpoint filter_created (min_timestamp_ms : Z) (threads : threads_t) : result threads_t :=
  match threads with
  | [] => Ok []
  | (cid, data) :: rest =>
      created_at <- get data "createdAt" (JInt 0) ;;
      match as_int created_at with
      | Some c =>
          tl <- filter_created min_timestamp_ms rest ;;
          Ok (if (min_timestamp_ms <=? c)%Z then (cid, data) :: tl else tl)
      | None => Raise TypeError
      end
  end.

(** The whole run.  [history] is the connection that
    [export_terminal_history] opens to the global store once the threads
    are written (line 1117); the terminal history reads the clock after
    the documents rendered before it. *)
Definition export_conversations (env : environment) (history : result item_table)
    (can_write : string -> bool) (clock : nat -> string * Z)
    (min_timestamp_ms : option Z) (dir : directory)
  : result directory :=
  all_threads <- get_all_composer_threads env ;;
  threads <- match min_timestamp_ms with
             | Some m => if (m =? 0)%Z then Ok all_threads else filter_created m all_threads
             | None => Ok all_threads
             end ;;
  if global_db_exists env then
    conn <- global_db env ;;
    let existing_by_cid := index_existing dir in
    needs_export <- partition_threads existing_by_cid threads ;;
    bubbles_by_cid <- get_bubbles_batch conn (map fst needs_export) ;;
    final <- export_threads conn can_write clock bubbles_by_cid needs_export (dir, 0) ;;
    Ok (export_terminal_history history can_write
                                (fst (clock (snd final))) (snd (clock (snd final)))
                                (fst final))
  else Ok dir.

(** *** Notions used to state the properties *)

(** Equality of two strings up to the case of ASCII letters. *)
Fixpoint ci_eqb (s t : string) : bool :=
  match s, t with
  | EmptyString, EmptyString => true
  | String a s', String b t' => Ascii.eqb (lower_char a) (lower_char b) && ci_eqb s' t'
  | _, _ => false
  end.

Definition ci_mem (s : string) (tokens : list string) : bool := existsb (ci_eqb s) tokens.

(** A field of an object, [None] (that is [JNull]) when absent. *)
Definition field (d : fields_t) (k : string) : json :=
  match lookup k d with
  | Some v => v
  | None => JNull
  end.

(** The role a type tag decides. *)
Definition tag_role (tag : json) : option role :=
  match as_int tag with
  | Some 1%Z => Some User
  | Some 2%Z => Some Assistant
  | _ => None
  end.

Definition token_role (s : string) : role :=
  if ci_mem s user_tokens then User
  else if ci_mem s assistant_tokens then Assistant
  else UnknownRole.

Fixpoint first_truthy (vs : list json) : option json :=
  match vs with
  | [] => None
  | v :: rest => if truthy v then Some v else first_truthy rest
  end.

Fixpoint first_string (vs : list json) : option string :=
  match vs with
  | [] => None
  | JStr s :: _ => Some s
  | _ :: rest => first_string rest
  end.

Definition role_fields (d : fields_t) : list json :=
  [field d "role"; field d "authorRole"; field d "sender"].

(** Role resolution with the first non-empty (truthy) field deciding. *)
Definition resolved_role (d : fields_t) : role :=
  match tag_role (field d "type") with
  | Some r => r
  | None =>
      match first_truthy (role_fields d) with
      | Some (JStr s) => token_role s
      | _ => UnknownRole
      end
  end.

(** Role resolution with the first string among the fields deciding. *)
Definition first_string_role (d : fields_t) : role :=
  match tag_role (field d "type") with
  | Some r => r
  | None =>
      match first_string (role_fields d) with
      | Some s => token_role s
      | None => UnknownRole
      end
  end.




(** What the loop emits, item by item: a bubble rendered on its own, or an
    [[Actions]] block that merges the bubbles a look-ahead has collected.
    [it_role] is the resolved role of the bubble the item starts at. *)
Record item : Type := {
  it_block : bool;
  it_role : role;
  it_lines : list string
}.

(** The role the loop records after an item (lines 971 and 1004). *)
Definition it_recorded (it : item) : role :=
  if it_block it then Assistant else it_role it.

Fixpoint emitted_items (conn : connection) (cid : string) (bubbles : list json)
    (skip : nat) : result (list item) :=
  match bubbles with
  | [] => Ok []
  | bubble :: rest =>
      match skip with
      | S k => emitted_items conn cid rest k
      | O =>
          v <- bubble_view conn cid bubble ;;
          if is_empty_view v then emitted_items conn cid rest 0
          else if is_action_only v then
            r <- lookahead conn cid rest (v_actions v) ;;
            items <- emitted_items conn cid rest (snd r) ;;
            Ok ({| it_block := true; it_role := v_role v;
                   it_lines := actions_block (fst r) |} :: items)
          else
            items <- emitted_items conn cid rest 0 ;;
            Ok ({| it_block := false; it_role := v_role v;
                   it_lines := bubble_lines v |} :: items)
      end
  end.

(** The body of the document from its items: the separator stands before
    an item exactly when an item came before it and the role recorded for
    that one differs from the item's own. *)
Fixpoint assemble (previous : option role) (items : list item) : list string :=
  match items with
  | [] => []
  | it :: rest =>
      (match previous with
       | Some recorded => if role_eqb recorded (it_role it) then [] else separator
       | None => []
       end)
      +++ it_lines it +++ assemble (Some (it_recorded it)) rest
  end.

Fixpoint final_role (previous : option role) (items : list item) : option role :=
  match items with
  | [] => previous
  | it :: rest => final_role (Some (it_recorded it)) rest
  end.

(** The number of items whose role differs from the one recorded before. *)
Fixpoint transitions (previous : option role) (items : list item) : nat :=
  match items with
  | [] => 0
  | it :: rest =>
      (match previous with
       | Some recorded => if role_eqb recorded (it_role it) then 0 else 1
       | None => 0
       end)
      + transitions (Some (it_recorded it)) rest
  end.

Definition rule_line : string := "---".

(** The file the export controller finds under a fingerprint: the last
    listed markdown file such that the last 8 characters of its stem (the
    whole stem when it is shorter) are the fingerprint. *)
Definition indexed_file (dir : directory) (fp : string) : option file :=
  match find (fun entry => String.eqb fp (file_fingerprint (fst entry))) (rev (glob_md dir)) with
  | Some entry => Some (snd entry)
  | None => None
  end.

(** The last-update timestamp of a thread record: [lastUpdatedAt], else
    [createdAt], else 0. *)
Definition last_update (d : fields_t) : json :=
  match lookup "lastUpdatedAt" d with
  | Some x => x
  | None => match lookup "createdAt" d with Some y => y | None => JInt 0 end
  end.

(** The message bodies of a thread are all empty after trimming. *)
Definition all_blank (bubbles : list json) : Prop :=
  Forall (fun b => exists c, extract_message_content b = Ok c /\ strip c = "") bubbles.






(** The last-updated timestamp of a version of a thread, an absent one
    counting as 0. *)
Definition stamp (data : json) : Z :=
  match data with
  | JDict d =>
      match lookup "lastUpdatedAt" d with
      | Some v => match as_int v with Some z => z | None => 0%Z end
      | None => 0%Z
      end
  | _ => 0%Z
  end.

Definition int_or_absent (d : fields_t) (k : string) : Prop :=
  match lookup k d with
  | Some v => exists z, as_int v = Some z
  | None => True
  end.

(** A well-formed thread record: an object whose [lastUpdatedAt] and
    [createdAt], when present, are integers. *)
Definition well_formed_record (data : json) : Prop :=
  exists d, data = JDict d /\ int_or_absent d "lastUpdatedAt" /\ int_or_absent d "createdAt".

(** A well-formed observation: a hashable id with a well-formed record. *)
Definition well_formed (thread : json * json) : Prop :=
  hashable (fst thread) = true /\ well_formed_record (snd thread).

(** What the scans of one run observe, in scan order: the threads of the
    global instance, then those of each workspace instance. *)
Definition scanned (db : result connection) : threads_t :=
  match threads_of db with
  | Ok threads => threads
  | Raise _ => []
  end.

Definition global_threads (env : environment) : threads_t :=
  if global_db_exists env then scanned (global_db env) else [].

Definition workspace_threads (env : environment) : threads_t :=
  flat_map scanned (workspace_dbs env).

Definition observed (env : environment) : threads_t :=
  global_threads env +++ workspace_threads env.

(** The versions of one thread id among observations, in scan order. *)
Definition versions (cid : json) (threads : threads_t) : list json :=
  map snd (filter (fun t => key_eqb cid (fst t)) threads).

(** Keeping, from left to right, a version only when its timestamp is
    strictly greater than that of the version kept so far. *)
Fixpoint pick (kept : option json) (vs : list json) : option json :=
  match vs with
  | [] => kept
  | v :: rest =>
      pick (match kept with
            | Some c => if (stamp c <? stamp v)%Z then Some v else Some c
            | None => Some v
            end) rest
  end.

(** No two entries have equal keys. *)
Fixpoint distinct_keys (l : threads_t) : Prop :=
  match l with
  | [] => True
  | t :: rest => Forall (fun u => key_eqb (fst t) (fst u) = false) rest /\ distinct_keys rest
  end.

Definition record_ok (t : json * json) : Prop := well_formed_record (snd t).

(** A sort key that is an integer. *)
Definition int_key (x : json * (json * json)) : Prop := exists z, as_int (fst x) = Some z.

(** *** Functions beside the export

    [truncate_string] is a helper that no other function calls.
    [get_thread_bubbles] and [generate_file_modification_timeline] are
    never called, and [main] and the functions that locate the stores
    only reach into the operating system: they are left out. *)

(** **** Truncation (lines 252-256) *)

(** [s[:k]] for an integer [k]: a negative [k] counts from the end. *)
Definition py_prefix (k : Z) (s : string) : string :=
  if (0 <=? k)%Z then str_take (Z.to_nat k) s
  else str_take (Z.to_nat (Z.of_nat (String.length s) + k)) s.

Definition truncate_string (s : string) (max_len : Z) (suffix : string) : string :=
  if (Z.of_nat (String.length s) <=? max_len)%Z then s
  else py_prefix (max_len - Z.of_nat (String.length suffix)) s ++ suffix.

(** *** Notions used to state further properties *)

(** Every character of a string passes a test. *)
Fixpoint str_all (p : ascii -> bool) (s : string) : bool :=
  match s with
  | EmptyString => true
  | String c s' => p c && str_all p s'
  end.

(** The characters a slug is free of: those of the replacement table and
    the line break. *)
Definition reserved_characters : list ascii :=
  newline :: map fst replacements.

(** A character that is none of [bad]. *)
Definition avoids (bad : list ascii) (c : ascii) : bool :=
  negb (existsb (Ascii.eqb c) bad).

(** The line that shows the body of a message (lines 980-986) and the
    line that shows its thinking text (line 976). *)
Definition message_line (v : view) : string :=
  match v_role v with
  | User => "**[User]** " ++ v_content v
  | Assistant => "**[Agent]** " ++ v_content v
  | r => "**[" ++ role_title r ++ "]** " ++ v_content v
  end.

Definition thinking_line (v : view) : string := "**[Thinking]** " ++ v_thinking v.

(** The creation timestamp of a thread record, an absent one counting as 0. *)
Definition created (data : json) : Z :=
  match data with
  | JDict d =>
      match lookup "createdAt" d with
      | Some v => match as_int v with Some z => z | None => 0%Z end
      | None => 0%Z
      end
  | _ => 0%Z
  end.

(** Newest first: no thread stands before one created later. *)
Definition newest_first (a b : json * json) : Prop :=
  (created (snd b) <= created (snd a))%Z.

(** A sort key that is the creation timestamp of its record. *)
Definition keyed_by_creation (x : json * (json * json)) : Prop :=
  as_int (fst x) = Some (created (snd (snd x))).

Definition key_order (a b : json * (json * json)) : Prop :=
  newest_first (snd a) (snd b).



(** The fields a message body is looked for in, in their order. *)
Definition content_fields (d : fields_t) : list json :=
  [field d "content"; field d "text"; field d "richText"; field d "message"].

(** The stores of a run without one of the workspace instances, and
    without the global instance. *)
Definition with_workspaces (env : environment) (dbs : list (result connection))
  : environment :=
  {| global_db_exists := global_db_exists env;
     global_db := global_db env;
     workspace_dbs := dbs |}.

Definition without_global (env : environment) : environment :=
  {| global_db_exists := false;
     global_db := global_db env;
     workspace_dbs := workspace_dbs env |}.

(** The shell an entry of the command history names. *)
Definition shell_of (d : fields_t) : string :=
  match lookup "value" d with
  | Some (JDict info) =>
      match lookup "shellType" info with
      | Some t => py_str t
      | None => "unknown"
      end
  | _ => "unknown"
  end.

(** The line of a command kept on one line, under its number. *)
Definition command_line (number : nat) (command shell : string) : string :=
  "**" ++ str_of_nat number ++ ".** `" ++ command ++ "` (" ++ shell ++ ")".

(* ------------------------------------------------------------------ *)
(** ** Properties *)

Unset Implicit Arguments.
Set Default Proof Using "Type".

(** *** Results *)

Lemma bind_ok {A B : Type} (c : result A) (k : A -> result B) (b : B) :
  bind c k = Ok b -> exists a, c = Ok a /\ k a = Ok b.
Proof.
  destruct c as [a|e]; simpl; intros H; [exists a; auto | discriminate].
Qed.

Tactic Notation "bind_inv" hyp(H) :=
  let a := fresh "x" in
  let Ha := fresh "E" in
  apply bind_ok in H; destruct H as (a & Ha & H).

Tactic Notation "bind_inv" hyp(H) "as" ident(a) ident(Ha) :=
  apply bind_ok in H; destruct H as (a & Ha & H).

(** *** Role resolution *)

Lemma ci_eqb_lower (s t : string) : ci_eqb s t = String.eqb (lower s) (lower t).
Proof.
  revert t; induction s as [|a s IH]; intros [|b t]; simpl; auto.
  rewrite IH. destruct (Ascii.eqb (lower_char a) (lower_char b)); reflexivity.
Qed.

Lemma mem_lower_user (s : string) : mem_str (lower s) user_tokens = ci_mem s user_tokens.
Proof.
  unfold mem_str, ci_mem, user_tokens; simpl. rewrite !ci_eqb_lower. reflexivity.
Qed.

Lemma mem_lower_assistant (s : string) :
  mem_str (lower s) assistant_tokens = ci_mem s assistant_tokens.
Proof.
  unfold mem_str, ci_mem, assistant_tokens; simpl. rewrite !ci_eqb_lower. reflexivity.
Qed.

Lemma role_of_string_str (s : string) : role_of_string (JStr s) = token_role s.
Proof.
  unfold role_of_string, token_role.
  rewrite mem_lower_user, mem_lower_assistant; reflexivity.
Qed.

Lemma role_of_string_other (v : json) : is_str v = false -> role_of_string v = UnknownRole.
Proof. destruct v; simpl; auto; discriminate. Qed.

Lemma token_role_empty : token_role "" = UnknownRole.
Proof. reflexivity. Qed.

Lemma role_of_string_falsy (v : json) : truthy v = false -> role_of_string v = UnknownRole.
Proof.
  destruct v as [ | | | s | | ]; try reflexivity.
  destruct s; [reflexivity | discriminate].
Qed.

Lemma role_of_string_spec (a b c : json) :
  role_of_string (py_or a (py_or b c)) =
  match first_truthy [a; b; c] with
  | Some (JStr s) => token_role s
  | _ => UnknownRole
  end.
Proof.
  unfold py_or; cbn [first_truthy].
  destruct (truthy a) eqn:Ta; [|destruct (truthy b) eqn:Tb; [|destruct (truthy c) eqn:Tc]].
  - destruct a; try reflexivity. apply role_of_string_str.
  - destruct b; try reflexivity. apply role_of_string_str.
  - destruct c; try reflexivity. apply role_of_string_str.
  - apply role_of_string_falsy; assumption.
Qed.

(** C9 (as amended): for a bubble that is an object, an integer type tag
    of 1 resolves to user and of 2 to assistant; otherwise the first
    non-empty value among [role], [authorRole] and [sender] decides when
    it is a string, matched without regard to case against the user and
    assistant tokens; otherwise the role is unknown.  A bubble that is not
    an object has no role: the lookup raises. *)
Theorem role_resolution_order (bubble : json) :
  get_message_role bubble =
  match bubble with
  | JDict d => Ok (resolved_role d)
  | _ => Raise AttributeError
  end.
Proof.
  destruct bubble as [ | b | n | s | l | d]; try reflexivity.
  unfold get_message_role, resolved_role, role_fields, tag_role, field; simpl.
  rewrite role_of_string_spec.
  destruct (lookup "type" d) as [t|]; simpl; [|reflexivity].
  destruct (as_int t) as [[|p|p]|]; try reflexivity.
  destruct p as [p|p|]; try reflexivity. destruct p; reflexivity.
Qed.

(** *** Strings *)

Lemma str_app_assoc (a b c : string) : (a ++ b) ++ c = a ++ (b ++ c).
Proof. induction a as [|x a IH]; simpl; [reflexivity | now rewrite IH]. Qed.

Lemma str_app_nil_r (a : string) : a ++ "" = a.
Proof. induction a as [|x a IH]; simpl; [reflexivity | now rewrite IH]. Qed.

Lemma str_length_app (a b : string) :
  String.length (a ++ b) = String.length a + String.length b.
Proof. induction a as [|x a IH]; simpl; [reflexivity | now rewrite IH]. Qed.

Lemma str_take_length (n : nat) (s : string) :
  n <= String.length s -> String.length (str_take n s) = n.
Proof.
  revert s; induction n as [|n IH]; intros [|c s] H; simpl in *; try lia.
  rewrite IH; lia.
Qed.

Lemma str_drop_app (n : nat) (a b : string) :
  n <= String.length a -> str_drop n (a ++ b) = str_drop n a ++ b.
Proof.
  revert a; induction n as [|n IH]; intros [|c a] H; simpl in *; try lia; auto.
  apply IH; lia.
Qed.

Lemma str_drop_all (a b : string) : str_drop (String.length a) (a ++ b) = b.
Proof. induction a as [|c a IH]; simpl; [destruct b; reflexivity | exact IH]. Qed.

Lemma str_take_app (a b : string) : str_take (String.length a) (a ++ b) = a.
Proof. induction a as [|c a IH]; simpl; [destruct b; reflexivity | now rewrite IH]. Qed.

Lemma str_last_app (a b : string) : str_last (String.length b) (a ++ b) = b.
Proof.
  unfold str_last. rewrite str_length_app.
  replace (String.length a + String.length b - String.length b) with (String.length a) by lia.
  apply str_drop_all.
Qed.

Lemma ends_with_app (a b : string) : ends_with b (a ++ b) = true.
Proof.
  unfold ends_with. rewrite str_last_app, String.eqb_refl, str_length_app. simpl.
  apply Nat.leb_le. lia.
Qed.

Lemma rfind_lt (c : ascii) (s : string) (i : nat) :
  rfind c s = Some i -> i < String.length s.
Proof.
  revert i; induction s as [|a s IH]; simpl; intros i H; [discriminate|].
  destruct (rfind c s) as [j|].
  - inversion H; subst. specialize (IH j eq_refl). lia.
  - destruct (Ascii.eqb a c); inversion H; lia.
Qed.

Lemma rfind_app_none (c : ascii) (a b : string) :
  rfind c b = None -> rfind c (a ++ b) = rfind c a.
Proof.
  intros Hb; induction a as [|x a IH]; simpl; [assumption | now rewrite IH].
Qed.

Lemma rfind_app_last (c : ascii) (a b : string) :
  rfind c b = None -> rfind c (a ++ String c b) = Some (String.length a).
Proof.
  intros Hb; induction a as [|x a IH]; simpl.
  - rewrite Hb, Ascii.eqb_refl; reflexivity.
  - rewrite IH; reflexivity.
Qed.

Lemma contains_cons (sub : string) (c : ascii) (s : string) :
  contains sub (String c s) = false -> contains sub s = false.
Proof.
  simpl. intros H. apply orb_false_iff in H. destruct H as [_ H]. exact H.
Qed.

Lemma contains_char_rfind (c : ascii) (s : string) :
  contains (String c EmptyString) s = false -> rfind c s = None.
Proof.
  induction s as [|a s IH]; intros H; [reflexivity|].
  pose proof (contains_cons _ _ _ H) as H'.
  cbn [contains starts_with] in H. cbn [rfind].
  rewrite (IH H'). apply orb_false_iff in H. destruct H as [H _].
  rewrite andb_true_r in H. rewrite Ascii.eqb_sym, H. reflexivity.
Qed.

Lemma contains_char_app (c : ascii) (a b : string) :
  contains (String c EmptyString) a = false ->
  contains (String c EmptyString) b = false ->
  contains (String c EmptyString) (a ++ b) = false.
Proof.
  intros Ha Hb. induction a as [|x a IH]; [exact Hb|].
  pose proof (contains_cons _ _ _ Ha) as Ha'.
  cbn [contains starts_with] in Ha.
  change (String x a ++ b) with (String x (a ++ b)). cbn [contains starts_with].
  apply orb_false_iff in Ha. destruct Ha as [Ha _].
  rewrite andb_true_r in Ha |- *. rewrite Ha. simpl. apply IH. exact Ha'.
Qed.

(** The final component keeps a suffix that holds no separator. *)
Lemma path_name_app (a b : string) :
  contains "/" b = false -> exists y, path_name (a ++ b) = y ++ b.
Proof.
  intros Hb. apply contains_char_rfind in Hb.
  unfold path_name. rewrite (rfind_app_none _ a _ Hb).
  destruct (rfind "/" a) as [i|] eqn:E.
  - apply rfind_lt in E. exists (str_drop (S i) a). apply str_drop_app. lia.
  - exists a; reflexivity.
Qed.

Lemma stem_md (path x : string) :
  path_name path = x ++ ".md" -> x <> "" -> stem path = x.
Proof.
  intros Hn Hx. unfold stem. rewrite Hn.
  change (x ++ ".md") with (x ++ String "."%char "md").
  rewrite rfind_app_last by reflexivity.
  rewrite str_length_app. simpl String.length.
  assert (0 < String.length x) by (destruct x; simpl; [congruence | lia]).
  replace ((0 <? String.length x) && (String.length x <? String.length x + 3 - 1))%nat
    with true.
  - apply str_take_app.
  - symmetry. apply andb_true_iff; split; apply Nat.ltb_lt; lia.
Qed.

(** *** File names *)

(** C10 (as amended): for a thread id of at least 8 characters, a file
    name that [generate_filename] produces ends with a dash, the first 8
    characters of the id and [.md]; when those 8 characters hold no path
    separator, the last 8 characters of the stem of that name -- the key
    of the index of existing files -- are the first 8 characters of the
    id, whatever the title, the slug and the timestamp. *)
Theorem filename_carries_fingerprint
    (thread_data : json) (cid first_message filename : string) :
  8 <= String.length cid ->
  generate_filename thread_data cid first_message = Ok filename ->
  ends_with ("-" ++ fingerprint cid ++ ".md") filename = true
  /\ (contains "/" (fingerprint cid) = false ->
      file_fingerprint filename = fingerprint cid).
Proof.
  intros Hlen H.
  assert (Hfp : String.length (fingerprint cid) = 8)
    by (apply str_take_length; assumption).
  unfold generate_filename in H.
  bind_inv H. bind_inv H. bind_inv H. bind_inv H.
  change (str_take 8 cid) with (fingerprint cid) in H.
  unfold file_fingerprint.
  generalize dependent (fingerprint cid). intros fp Hfn Hfp.
  generalize dependent (slugify_title x2 50). intros slug Hfn.
  inversion Hfn; subst filename; clear Hfn.
  split.
  - pose proof (ends_with_app (x0 ++ "-" ++ slug) ("-" ++ fp ++ ".md")) as HE.
    rewrite str_app_assoc in HE. exact HE.
  - intros Hsep.
    destruct (path_name_app (x0 ++ "-" ++ slug ++ "-") (fp ++ ".md")) as [y Hy].
    { apply contains_char_app; [exact Hsep | reflexivity]. }
    match goal with
    | |- str_last 8 (stem ?f) = _ => rewrite (stem_md f (y ++ fp))
    end.
    + rewrite <- Hfp at 1. apply str_last_app.
    + rewrite str_app_assoc. rewrite <- Hy. f_equal.
      rewrite !str_app_assoc. reflexivity.
    + intros E3. apply (f_equal String.length) in E3.
      rewrite str_length_app, Hfp in E3. simpl in E3. lia.
Qed.

(** *** Missing tool arguments *)

Lemma get_dict (d : fields_t) (k : string) (default : json) :
  get (JDict d) k default = Ok (match lookup k d with Some x => x | None => default end).
Proof. reflexivity. Qed.








(** *** No line of an item is a rule *)

Definition plain (l : string) : Prop := l <> rule_line.

Lemma concatM_Forall {A : Type} (P : string -> Prop) (f : A -> result (list string))
    (l : list A) (out : list string) :
  (forall x ys, f x = Ok ys -> Forall P ys) ->
  concatM f l = Ok out -> Forall P out.
Proof.
  intros Hf. revert out; induction l as [|x xs IH]; intros out H; simpl in H.
  - inversion H; constructor.
  - bind_inv H as ys Ey. bind_inv H as zs Ez. inversion H; subst out.
    apply Forall_app; split; [eapply Hf; eassumption | apply IH; assumption].
Qed.

Lemma listing_Forall (P : string -> Prop) (heading : nat -> string) (v : json)
    (each : json -> result (list string)) (out : list string) :
  (forall n, P (heading n)) -> P "" ->
  (forall x ys, each x = Ok ys -> Forall P ys) ->
  listing heading v each = Ok out -> Forall P out.
Proof.
  intros Hh He Hf H. unfold listing in H. destruct (truthy v).
  - bind_inv H as n En. bind_inv H as items Ei. bind_inv H as ls El.
    inversion H; subst out. constructor; [apply Hh|].
    apply Forall_app; split; [|repeat constructor; exact He].
    eapply concatM_Forall; eassumption.
  - inversion H; constructor.
Qed.

Ltac plain_line := unfold plain, rule_line, plural_heading; cbn; discriminate.

Ltac plain_lines H :=
  unfold bind in H; cbn in H;
  repeat (match type of H with
          | context [match ?c with _ => _ end] => destruct c
          | context [if ?c then _ else _] => destruct c
          end; cbn in H);
  try discriminate H; inversion H; subst;
  repeat constructor; plain_line.

Lemma plain_empty : plain "".
Proof. plain_line. Qed.

Lemma plain_heading (label : string) (n : nat) : plain (plural_heading label n).
Proof. plain_line. Qed.

Lemma ctx_file_plain (x : json) (ys : list string) :
  ctx_file x = Ok ys -> Forall plain ys.
Proof. intros H; unfold ctx_file in H; plain_lines H. Qed.

Lemma ctx_todo_plain (x : json) (ys : list string) :
  ctx_todo x = Ok ys -> Forall plain ys.
Proof. intros H; unfold ctx_todo, todo_line in H; plain_lines H. Qed.

Lemma ctx_terminal_file_plain (x : json) (ys : list string) :
  ctx_terminal_file x = Ok ys -> Forall plain ys.
Proof. intros H; unfold ctx_terminal_file in H; plain_lines H. Qed.

Lemma ctx_rule_plain (x : json) (ys : list string) :
  ctx_rule x = Ok ys -> Forall plain ys.
Proof. intros H; unfold ctx_rule in H; plain_lines H. Qed.

Lemma ctx_git_diff_plain (x : json) (ys : list string) :
  ctx_git_diff x = Ok ys -> Forall plain ys.
Proof.
  intros H; unfold ctx_git_diff in H. destruct (is_dict x); [|inversion H; constructor].
  bind_inv H as file_path Ef. bind_inv H as diff_content Ed. bind_inv H as body Eb.
  inversion H; subst ys; clear H. constructor; [plain_line|].
  destruct (truthy diff_content); [|inversion Eb; constructor].
  bind_inv Eb as text Et. inversion Eb; subst body; clear Eb.
  constructor; [plain_line|]. apply Forall_app; split; [|repeat constructor; plain_line].
  apply Forall_map. apply Forall_forall. intros line _. plain_line.
Qed.

Lemma ctx_commit_plain (x : json) (ys : list string) :
  ctx_commit x = Ok ys -> Forall plain ys.
Proof. intros H; unfold ctx_commit in H; plain_lines H. Qed.

Lemma ctx_pull_request_plain (x : json) (ys : list string) :
  ctx_pull_request x = Ok ys -> Forall plain ys.
Proof. intros H; unfold ctx_pull_request in H; plain_lines H. Qed.

Lemma ctx_lint_plain (x : json) (ys : list string) :
  ctx_lint x = Ok ys -> Forall plain ys.
Proof. intros H; unfold ctx_lint in H; plain_lines H. Qed.

Lemma ctx_human_change_plain (x : json) (ys : list string) :
  ctx_human_change x = Ok ys -> Forall plain ys.
Proof. intros H; unfold ctx_human_change in H; plain_lines H. Qed.

Lemma ctx_folder_plain (x : json) (ys : list string) :
  ctx_folder x = Ok ys -> Forall plain ys.
Proof. intros H; unfold ctx_folder in H; plain_lines H. Qed.

Lemma ctx_recent_file_plain (x : json) (ys : list string) :
  ctx_recent_file x = Ok ys -> Forall plain ys.
Proof. intros H; unfold ctx_recent_file in H; plain_lines H. Qed.

Lemma ctx_image_plain (x : json) (ys : list string) :
  ctx_image x = Ok ys -> Forall plain ys.
Proof. intros H; unfold ctx_image in H; plain_lines H. Qed.

Lemma stored_context_info_plain (context_data : json) (out : list string) :
  stored_context_info context_data = Ok out -> Forall plain out.
Proof.
  intros H. unfold stored_context_info in H.
  destruct (truthy context_data); [|inversion H; constructor].
  bind_inv H as files Ef. bind_inv H as l1 E1. bind_inv H as todos Et.
  bind_inv H as l2 E2. bind_inv H as terminal_files Etf. bind_inv H as l3 E3.
  bind_inv H as cursor_rules Ecr. bind_inv H as l4 E4.
  inversion H; subst out; clear H.
  repeat (apply Forall_app; split).
  - apply (listing_Forall plain _ _ _ _ (plain_heading _) plain_empty ctx_file_plain E1).
  - refine (listing_Forall plain _ _ _ _ _ plain_empty ctx_todo_plain E2).
    intros n; plain_line.
  - apply (listing_Forall plain _ _ _ _ (plain_heading _) plain_empty
             ctx_terminal_file_plain E3).
  - apply (listing_Forall plain _ _ _ _ (plain_heading _) plain_empty ctx_rule_plain E4).
Qed.

Lemma bubble_context_info_plain (bubble : json) (out : list string) :
  bubble_context_info bubble = Ok out -> Forall plain out.
Proof.
  intros H. unfold bubble_context_info in H.
  bind_inv H as git_diffs E01. bind_inv H as l1 E1.
  bind_inv H as commits E02. bind_inv H as l2 E2.
  bind_inv H as pull_requests E03. bind_inv H as l3 E3.
  bind_inv H as lints E04. bind_inv H as approx E05. bind_inv H as multi E06.
  bind_inv H as some_lints E07. bind_inv H as all_lints E08. bind_inv H as l4 E4.
  bind_inv H as human_changes E09. bind_inv H as l5 E5.
  bind_inv H as folders E10. bind_inv H as folders_new E11. bind_inv H as l6 E6.
  bind_inv H as recently_viewed E12. bind_inv H as l7 E7.
  bind_inv H as images E13. bind_inv H as l8 E8.
  bind_inv H as is_agentic E14.
  inversion H; subst out; clear H.
  repeat (apply Forall_app; split).
  - apply (listing_Forall plain _ _ _ _ (plain_heading _) plain_empty ctx_git_diff_plain E1).
  - apply (listing_Forall plain _ _ _ _ (plain_heading _) plain_empty ctx_commit_plain E2).
  - apply (listing_Forall plain _ _ _ _ (plain_heading _) plain_empty
             ctx_pull_request_plain E3).
  - apply (listing_Forall plain _ _ _ _ (plain_heading _) plain_empty ctx_lint_plain E4).
  - apply (listing_Forall plain _ _ _ _ (plain_heading _) plain_empty
             ctx_human_change_plain E5).
  - apply (listing_Forall plain _ _ _ _ (plain_heading _) plain_empty ctx_folder_plain E6).
  - apply (listing_Forall plain _ _ _ _ (plain_heading _) plain_empty
             ctx_recent_file_plain E7).
  - apply (listing_Forall plain _ _ _ _ (plain_heading _) plain_empty ctx_image_plain E8).
  - destruct (truthy is_agentic); repeat constructor; plain_line.
Qed.

Lemma actions_block_plain (all_actions : list string) :
  Forall plain (actions_block all_actions).
Proof.
  unfold actions_block. constructor; [plain_line|].
  apply Forall_app; split; [|repeat constructor; plain_line].
  apply Forall_map. apply Forall_forall. intros a _. plain_line.
Qed.

Lemma bubble_lines_plain (v : view) :
  Forall plain (v_context_info v) -> Forall plain (bubble_lines v).
Proof.
  intros Hinfo. unfold bubble_lines.
  repeat (apply Forall_app; split).
  - destruct (nonempty (v_thinking v)); repeat constructor; plain_line.
  - destruct (has_content v); [|constructor].
    destruct (v_role v); repeat constructor; plain_line.
  - destruct (has_lines (v_context_info v)); [|constructor].
    apply Forall_app; split; [|exact Hinfo].
    destruct (has_content v); repeat constructor; plain_line.
  - destruct (has_lines (v_actions v) && has_content v); [|constructor].
    constructor; [plain_line|]. constructor; [plain_line|].
    apply Forall_map. apply Forall_forall. intros a _. plain_line.
  - repeat constructor; plain_line.
Qed.

(** *** The rendering loop *)

Section Loop.

Variable conn : connection.
Variable cid : string.

Lemma bind_assoc {A B C : Type} (c : result A) (f : A -> result B) (g : B -> result C) :
  bind (bind c f) g = bind c (fun a => bind (f a) g).
Proof. destruct c; reflexivity. Qed.

(** A positive [skip] drops that many bubbles. *)
Lemma render_loop_skip (bubbles : list json) (k : nat) (last_role : option role)
    (md_lines : list string) :
  render_loop conn cid bubbles k last_role md_lines
  = render_loop conn cid (skipn k bubbles) 0 last_role md_lines.
Proof.
  revert k; induction bubbles as [|b rest IH]; intros [|k]; try reflexivity.
  simpl. apply IH.
Qed.

Lemma emitted_items_skip (bubbles : list json) (k : nat) :
  emitted_items conn cid bubbles k = emitted_items conn cid (skipn k bubbles) 0.
Proof.
  revert k; induction bubbles as [|b rest IH]; intros [|k]; try reflexivity.
  simpl. apply IH.
Qed.

(** The look-ahead consumes bubbles of the list it is given. *)
Lemma lookahead_bound (following : list json) (all_actions acts : list string) (k : nat) :
  lookahead conn cid following all_actions = Ok (acts, k) -> k <= length following.
Proof.
  revert all_actions acts k; induction following as [|b rest IH];
    intros all_actions acts k H; simpl in H.
  - inversion H; simpl; lia.
  - bind_inv H. destruct x as [next_actions|].
    + bind_inv H. inversion H; subst. destruct x as [a n]. simpl.
      apply IH in E0. lia.
    + inversion H; simpl; lia.
Qed.

(** A bubble that fails the test of the look-ahead ends it like the end
    of the list. *)
Lemma lookahead_stops (l : list json) (e : json) (post : list json)
    (all_actions : list string) :
  next_action_only conn cid e = Ok None ->
  lookahead conn cid (l ++ e :: post) all_actions = lookahead conn cid l all_actions.
Proof.
  intros He. revert all_actions; induction l as [|b rest IH]; intros all_actions; simpl.
  - rewrite He. reflexivity.
  - destruct (next_action_only conn cid b) as [[next_actions|]|err]; simpl; auto.
    rewrite IH. reflexivity.
Qed.

(** What a successful iteration has computed. *)
Lemma bubble_view_inv (bubble : json) (v : view) :
  bubble_view conn cid bubble = Ok v ->
  exists context_data stored own,
    extract_message_content bubble = Ok (v_content v)
    /\ get_message_role bubble = Ok (v_role v)
    /\ bubble_context conn cid bubble = Ok context_data
    /\ extract_thinking_content bubble = Ok (v_thinking v)
    /\ extract_intermediate_actions bubble = Ok (v_actions v)
    /\ stored_context_info context_data = Ok stored
    /\ bubble_context_info bubble = Ok own
    /\ v_context_info v = stored +++ own.
Proof.
  intros H. unfold bubble_view in H.
  bind_inv H as content Ec. bind_inv H as r Er. bind_inv H as context_data Ectx.
  bind_inv H as thinking Et. bind_inv H as actions Ea. bind_inv H as stored Es.
  bind_inv H as own Eo.
  inversion H; subst v; clear H. simpl.
  exists context_data, stored, own. repeat split; assumption.
Qed.

Lemma listing_nil (heading : nat -> string) (v : json)
    (each : json -> result (list string)) :
  listing heading v each = Ok [] -> truthy v = false.
Proof.
  unfold listing. destruct (truthy v); [|reflexivity].
  intros H. bind_inv H. bind_inv H. bind_inv H. discriminate H.
Qed.

Lemma get_ok_dict (v : json) (k : string) (default x : json) :
  get v k default = Ok x -> exists d, v = JDict d.
Proof. destruct v; simpl; intros H; try discriminate H. eexists; reflexivity. Qed.

Lemma truthy_default (d : fields_t) (k : string) :
  truthy (match lookup k d with Some x => x | None => JNull end)
  = truthy (match lookup k d with Some x => x | None => JList [] end).
Proof. destruct (lookup k d); reflexivity. Qed.

(** The test of the look-ahead on the stored context agrees with the
    lines the loop draws from it. *)
Lemma stored_context_fields (context_data : json) (stored : list string) :
  stored_context_info context_data = Ok stored ->
  exists fs, next_context_fields context_data = Ok fs /\ (stored = [] -> fs = []).
Proof.
  unfold stored_context_info, next_context_fields.
  destruct (truthy context_data); [|intros _; exists []; split; auto].
  intros H. bind_inv H as files Ef. destruct (get_ok_dict _ _ _ _ Ef) as [d ->].
  rewrite get_dict in Ef. inversion Ef; subst files; clear Ef.
  bind_inv H as l1 E1. bind_inv H as todos Et.
  rewrite get_dict in Et. inversion Et; subst todos; clear Et.
  bind_inv H as l2 E2. bind_inv H as terminal_files Etf.
  rewrite get_dict in Etf. inversion Etf; subst terminal_files; clear Etf.
  bind_inv H as l3 E3. bind_inv H as cursor_rules Ecr.
  rewrite get_dict in Ecr. inversion Ecr; subst cursor_rules; clear Ecr.
  bind_inv H as l4 E4. inversion H; subst stored; clear H.
  unfold context_fields. cbn [concatM]. rewrite !get_dict. cbn [bind].
  eexists; split; [reflexivity|].
  intros Hnil.
  apply app_eq_nil in Hnil. destruct Hnil as [-> Hnil].
  apply app_eq_nil in Hnil. destruct Hnil as [-> Hnil].
  apply app_eq_nil in Hnil. destruct Hnil as [-> ->].
  apply listing_nil in E1, E2, E3, E4.
  rewrite !truthy_default, E1, E2, E3, E4. reflexivity.
Qed.

Lemma has_lines_app_false (a b : list string) :
  has_lines (a +++ b) = false -> a = [] /\ b = [].
Proof. destruct a; simpl; [destruct b; simpl; auto; discriminate | discriminate]. Qed.

(** A bubble without action lines never joins a block. *)
Lemma no_actions_stops (bubble : json) (v : view) :
  bubble_view conn cid bubble = Ok v ->
  has_lines (v_actions v) = false ->
  next_action_only conn cid bubble = Ok None.
Proof.
  intros Hv Hact. destruct (bubble_view_inv _ _ Hv)
    as (ctx & stored & own & Hc & _ & Hctx & Ht & Ha & Hs & _ & _).
  destruct (stored_context_fields _ _ Hs) as (fs & Hfs & _).
  unfold next_action_only. rewrite Hc, Hctx, Ha, Ht. cbn [bind]. rewrite Hfs. cbn [bind].
  rewrite Hact, andb_false_r. reflexivity.
Qed.

(** A bubble the loop takes as action-only passes the test of the look-ahead. *)
Lemma action_only_joins (bubble : json) (v : view) :
  bubble_view conn cid bubble = Ok v ->
  is_action_only v = true ->
  next_action_only conn cid bubble = Ok (Some (v_actions v)).
Proof.
  intros Hv Hao. destruct (bubble_view_inv _ _ Hv)
    as (ctx & stored & own & Hc & _ & Hctx & Ht & Ha & Hs & _ & Hinfo).
  unfold is_action_only, has_content in Hao.
  apply andb_true_iff in Hao. destruct Hao as [Hao Hth].
  apply andb_true_iff in Hao. destruct Hao as [Hao Hci].
  apply andb_true_iff in Hao. destruct Hao as [Hco Hact].
  rewrite Hinfo in Hci. apply negb_true_iff in Hci.
  apply has_lines_app_false in Hci. destruct Hci as [Hst _].
  destruct (stored_context_fields _ _ Hs) as (fs & Hfs & Hnil).
  rewrite (Hnil Hst) in Hfs.
  unfold next_action_only. rewrite Hc, Hctx, Ha, Ht. cbn [bind]. rewrite Hfs. cbn [bind].
  rewrite Hco, Hact, Hth. reflexivity.
Qed.

Lemma render_loop_empty_split (before : list json) (e : json) (after : list json)
    (v : view) :
  bubble_view conn cid e = Ok v ->
  is_empty_view v = true ->
  forall (k : nat) (last_role : option role) (md_lines : list string),
    k <= length before ->
    render_loop conn cid (before ++ e :: after) k last_role md_lines
    = (r <- render_loop conn cid before k last_role md_lines ;;
       render_loop conn cid after 0 (fst r) (snd r)).
Proof.
  intros Hv Hempty.
  assert (Hstop : next_action_only conn cid e = Ok None).
  { apply (no_actions_stops e v Hv). unfold is_empty_view in Hempty.
    apply andb_true_iff in Hempty. destruct Hempty as [Hempty _].
    apply andb_true_iff in Hempty. destruct Hempty as [Hempty _].
    apply andb_true_iff in Hempty. destruct Hempty as [_ Hact].
    apply negb_true_iff in Hact. exact Hact. }
  induction before as [|b rest IH]; intros k last_role md_lines Hk.
  - simpl in Hk. assert (k = 0) by lia. subst k. simpl.
    rewrite Hv. cbn [bind]. rewrite Hempty. reflexivity.
  - destruct k as [|k].
    + cbn [render_loop app].
      destruct (bubble_view conn cid b) as [w|err]; [|reflexivity]. cbn [bind].
      destruct (is_empty_view w); [apply IH; lia|].
      destruct (is_action_only w).
      * rewrite lookahead_stops by exact Hstop.
        destruct (lookahead conn cid rest (v_actions w)) as [[acts n]|err] eqn:El;
          [|reflexivity].
        cbn [bind fst snd]. apply IH. apply lookahead_bound in El. exact El.
      * apply IH; lia.
    + cbn [render_loop app]. apply IH. simpl in Hk. lia.
Qed.

(** C8 (as amended): a bubble whose content is empty after trimming and
    which has no action lines, no context information and no thinking
    text adds no line of its own to the body of the document and leaves
    the recorded role as it was: the document is made of the header, then
    the lines rendered for the bubbles before it, then the lines rendered
    for the bubbles after it from the role recorded so far (no block of
    actions reaches across it).  The header is computed over all the
    bubbles, the empty one among them: it is counted in the "Messages"
    line. *)
Theorem empty_bubble_renders_nothing (before : list json) (e : json) (after : list json)
    (v : view) (last_role : option role) (md_lines : list string)
    (now : string) (thread_data : json) :
  bubble_view conn cid e = Ok v ->
  strip (v_content v) = "" ->
  v_actions v = [] ->
  v_context_info v = [] ->
  v_thinking v = "" ->
  render_loop conn cid (before ++ e :: after) 0 last_role md_lines
  = (r <- render_loop conn cid before 0 last_role md_lines ;;
     render_loop conn cid after 0 (fst r) (snd r))
  /\ markdown_lines now thread_data cid (before ++ e :: after) conn
     = (header <- header_lines now thread_data cid (before ++ e :: after) ;;
        r <- render_loop conn cid before 0 None header ;;
        r' <- render_loop conn cid after 0 (fst r) (snd r) ;;
        Ok (snd r'))
  /\ forall header,
       header_lines now thread_data cid (before ++ e :: after) = Ok header ->
       In ("**Messages:** " ++ str_of_nat (S (length before + length after)) ++ "  ")
          header.
Proof.
  intros Hv Hc Ha Hi Ht.
  assert (Hsplit : forall last md,
             render_loop conn cid (before ++ e :: after) 0 last md
             = (r <- render_loop conn cid before 0 last md ;;
                render_loop conn cid after 0 (fst r) (snd r))).
  { intros last md. apply (render_loop_empty_split before e after v Hv); [|lia].
    unfold is_empty_view, has_content. rewrite Hc, Ha, Hi, Ht. reflexivity. }
  split; [apply Hsplit|]. split.
  - unfold markdown_lines.
    destruct (header_lines now thread_data cid (before ++ e :: after)) as [header|err];
      [|reflexivity].
    cbn [bind]. rewrite Hsplit. apply bind_assoc.
  - intros header H. unfold header_lines in H.
    bind_inv H as thread_name E1. bind_inv H as created_at E2. bind_inv H as updated_at E3.
    bind_inv H as created_str E4. bind_inv H as updated_str E5. bind_inv H as totals E6.
    bind_inv H as context E7. bind_inv H as context_lines E8.
    inversion H; subst header; clear H.
    do 6 right. left. rewrite length_app. cbn [List.length].
    rewrite Nat.add_succ_r. reflexivity.
Qed.

Lemma bubble_view_plain (bubble : json) (v : view) :
  bubble_view conn cid bubble = Ok v -> Forall plain (v_context_info v).
Proof.
  intros Hv. destruct (bubble_view_inv _ _ Hv)
    as (ctx & stored & own & _ & _ & _ & _ & _ & Hs & Ho & ->).
  apply Forall_app; split;
    [eapply stored_context_info_plain | eapply bubble_context_info_plain]; eassumption.
Qed.

Lemma emitted_items_plain (bubbles : list json) :
  forall (k : nat) (items : list item),
    emitted_items conn cid bubbles k = Ok items ->
    Forall (fun it => Forall plain (it_lines it)) items.
Proof.
  induction bubbles as [|b rest IH]; intros k items H; simpl in H.
  - inversion H; constructor.
  - destruct k as [|k]; [|eapply IH; eassumption].
    bind_inv H as v Ev.
    destruct (is_empty_view v); [eapply IH; eassumption|].
    destruct (is_action_only v).
    + bind_inv H as r Er. bind_inv H as its Ei. inversion H; subst items; clear H.
      constructor; [apply actions_block_plain | eapply IH; eassumption].
    + bind_inv H as its Ei. inversion H; subst items; clear H.
      constructor; [|eapply IH; eassumption].
      simpl. apply bubble_lines_plain. eapply bubble_view_plain; eassumption.
Qed.

(** The loop writes what [assemble] makes of its items. *)
Lemma render_loop_items (bubbles : list json) :
  forall (k : nat) (last_role : option role) (md_lines : list string),
    render_loop conn cid bubbles k last_role md_lines
    = (items <- emitted_items conn cid bubbles k ;;
       Ok (final_role last_role items, md_lines +++ assemble last_role items)).
Proof.
  induction bubbles as [|b rest IH]; intros k last_role md_lines.
  - simpl. rewrite app_nil_r. reflexivity.
  - destruct k as [|k]; [|apply IH].
    cbn [render_loop emitted_items].
    destruct (bubble_view conn cid b) as [v|err]; [|reflexivity]. cbn [bind].
    destruct (is_empty_view v); [apply IH|].
    destruct (is_action_only v).
    + destruct (lookahead conn cid rest (v_actions v)) as [r|err]; [|reflexivity].
      cbn [bind]. rewrite IH.
      destruct (emitted_items conn cid rest (snd r)) as [items|err]; [|reflexivity].
      cbn [bind final_role assemble it_recorded it_block it_role it_lines].
      unfold transition. rewrite <- !app_assoc. reflexivity.
    + rewrite IH.
      destruct (emitted_items conn cid rest 0) as [items|err]; [|reflexivity].
      cbn [bind final_role assemble it_recorded it_block it_role it_lines].
      unfold transition. rewrite <- !app_assoc. reflexivity.
Qed.

Lemma count_rule_plain (ls : list string) :
  Forall plain ls -> count_occ string_dec ls rule_line = 0.
Proof.
  intros H. apply count_occ_not_In. intros Hin.
  rewrite Forall_forall in H. exact (H _ Hin eq_refl).
Qed.

Lemma count_rule_assemble (items : list item) :
  Forall (fun it => Forall plain (it_lines it)) items ->
  forall previous,
    count_occ string_dec (assemble previous items) rule_line = transitions previous items.
Proof.
  induction 1 as [|it rest Hit _ IH]; intros previous; [reflexivity|].
  cbn [assemble transitions]. rewrite !count_occ_app, IH, (count_rule_plain _ Hit).
  destruct previous as [recorded|]; [|reflexivity].
  destruct (role_eqb recorded (it_role it)); reflexivity.
Qed.

(** C7 (as amended): the separator stands before an emitted item -- a
    bubble rendered on its own, or an [[Actions]] block merging
    consecutive action-only bubbles -- exactly when an item was emitted
    before it and the role recorded for that item differs from the
    resolved role of the bubble the item starts at; the role recorded is
    the resolved role for a bubble rendered on its own and assistant for
    a block.  No other line that the loop appends is a rule (a message
    body is appended as one line, whatever it holds), so the body has as
    many rules as its items have such role changes. *)
Theorem separator_marks_role_changes (bubbles : list json) (items : list item)
    (last_role : option role) (md_lines : list string) :
  emitted_items conn cid bubbles 0 = Ok items ->
  render_loop conn cid bubbles 0 last_role md_lines
  = Ok (final_role last_role items, md_lines +++ assemble last_role items)
  /\ count_occ string_dec (assemble last_role items) rule_line
     = transitions last_role items.
Proof.
  intros H. split.
  - rewrite render_loop_items, H. reflexivity.
  - apply count_rule_assemble. eapply emitted_items_plain; eassumption.
Qed.

(** The look-ahead over a run of action-only bubbles that ends at the end
    of the list or at a bubble failing its test. *)
Lemma lookahead_run (run : list json) (vs : list view) (after : list json) :
  Forall2 (fun b v => bubble_view conn cid b = Ok v /\ is_action_only v = true) run vs ->
  (after = [] \/ exists b rest, after = b :: rest /\ next_action_only conn cid b = Ok None) ->
  forall all_actions,
    lookahead conn cid (run ++ after) all_actions
    = Ok (all_actions +++ concat (map v_actions vs), length run).
Proof.
  intros Hrun Hafter. induction Hrun as [|b v run vs [Hv Hao] _ IH]; intros all_actions.
  - simpl. rewrite app_nil_r.
    destruct Hafter as [-> | (b & rest & -> & Hb)]; simpl; [reflexivity|].
    rewrite Hb. reflexivity.
  - cbn [app lookahead]. rewrite (action_only_joins b v Hv Hao). cbn [bind].
    rewrite IH. cbn [bind fst snd map concat length]. rewrite <- app_assoc. reflexivity.
Qed.

(** X1: a run of action-only bubbles that ends at the end of the thread,
    or at a bubble the look-ahead does not take (one with content or
    thinking text, without action lines, or with a stored context record
    holding files, todos, terminal files or rules), is rendered as one
    [[Actions]] block holding the action lines of its bubbles in their
    order; the role recorded after the block is assistant. *)
Lemma action_run_one_block (a : json) (va : view) (run : list json) (vs : list view)
    (after : list json) (last_role : option role) (md_lines : list string) :
  bubble_view conn cid a = Ok va ->
  is_action_only va = true ->
  Forall2 (fun b v => bubble_view conn cid b = Ok v /\ is_action_only v = true) run vs ->
  (after = [] \/ exists b rest, after = b :: rest /\ next_action_only conn cid b = Ok None) ->
  render_loop conn cid (a :: run ++ after) 0 last_role md_lines
  = render_loop conn cid after 0 (Some Assistant)
      (md_lines +++ transition last_role (v_role va)
         +++ actions_block (v_actions va +++ concat (map v_actions vs))).
Proof.
  intros Hva Hao Hrun Hafter. cbn [render_loop]. rewrite Hva. cbn [bind].
  assert (He : is_empty_view va = false).
  { unfold is_action_only in Hao. unfold is_empty_view.
    destruct (has_content va); [discriminate Hao|].
    destruct (has_lines (v_actions va)); [reflexivity | discriminate Hao]. }
  rewrite He, Hao, (lookahead_run run vs after Hrun Hafter). cbn [bind fst snd].
  rewrite render_loop_skip, skipn_app, skipn_all, Nat.sub_diag. cbn [skipn app].
  rewrite <- app_assoc. reflexivity.
Qed.

End Loop.

(** *** Dictionaries *)

Section Assoc.

Context {K V : Type}.
Variable eqb : K -> K -> bool.
Hypothesis eqb_sym : forall a b, eqb a b = eqb b a.
Hypothesis eqb_trans : forall a b c, eqb a b = true -> eqb b c = true -> eqb a c = true.

Lemma eqb_congr (a b c : K) : eqb a b = true -> eqb a c = eqb b c.
Proof using eqb_sym eqb_trans.
  intros Hab. destruct (eqb b c) eqn:Hbc.
  - eapply eqb_trans; eassumption.
  - destruct (eqb a c) eqn:Hac; [|reflexivity].
    rewrite eqb_sym in Hab. rewrite <- Hbc. symmetry. eapply eqb_trans; eassumption.
Qed.

Lemma assoc_get_set_same (k k' : K) (v : V) (d : list (K * V)) :
  eqb k k' = true -> assoc_get eqb k (assoc_set eqb k' v d) = Some v.
Proof using eqb_sym eqb_trans.
  intros Hk. induction d as [|[k2 v2] d IH]; simpl.
  - rewrite Hk. reflexivity.
  - destruct (eqb k' k2) eqn:E; simpl.
    + rewrite (eqb_congr k k' k2 Hk), E. reflexivity.
    + rewrite (eqb_congr k k' k2 Hk), E. exact IH.
Qed.

Lemma assoc_get_set_other (k k' : K) (v : V) (d : list (K * V)) :
  eqb k k' = false -> assoc_get eqb k (assoc_set eqb k' v d) = assoc_get eqb k d.
Proof using eqb_sym eqb_trans.
  intros Hk. induction d as [|[k2 v2] d IH]; simpl.
  - rewrite Hk. reflexivity.
  - destruct (eqb k' k2) eqn:E; simpl.
    + destruct (eqb k k2) eqn:E2; [|reflexivity].
      rewrite eqb_sym in E. rewrite (eqb_trans k k2 k' E2 E) in Hk. discriminate Hk.
    + destruct (eqb k k2); [reflexivity | exact IH].
Qed.

End Assoc.

Lemma string_eqb_trans (a b c : string) :
  String.eqb a b = true -> String.eqb b c = true -> String.eqb a c = true.
Proof.
  intros H1 H2. apply String.eqb_eq in H1, H2. subst. apply String.eqb_refl.
Qed.

(** *** The incremental export controller *)

Lemma first_content_blank (bubbles : list json) :
  all_blank bubbles -> first_content bubbles = Ok "".
Proof.
  induction 1 as [|b rest (c & Hc & Hs) _ IH]; simpl; [reflexivity|].
  rewrite Hc. cbn [bind]. rewrite Hs. exact IH.
Qed.

(** C4 (as amended): a thread selected for export that has no
    reconstructed message, or whose message bodies are all empty after
    trimming, is skipped: its step of the export loop leaves the output
    directory as it is, and nothing is rendered. *)
Theorem contentless_thread_skipped (conn : connection) (can_write : string -> bool)
    (clock : nat -> string * Z) (bubbles_by_cid : list (string * list json))
    (state : directory * nat) (cid : string) (thread_data : json) :
  match assoc_get String.eqb cid bubbles_by_cid with
  | None => True
  | Some bubbles => all_blank bubbles
  end ->
  export_thread conn can_write clock bubbles_by_cid state (cid, thread_data) = Ok state.
Proof.
  unfold export_thread. cbn [fst snd].
  destruct (assoc_get String.eqb cid bubbles_by_cid) as [[|b rest]|]; intros H;
    try reflexivity.
  rewrite (first_content_blank _ H). reflexivity.
Qed.

Lemma index_existing_spec (dir : directory) (fp : string) :
  assoc_get String.eqb fp (index_existing dir) = indexed_file dir fp.
Proof.
  unfold index_existing, indexed_file. induction (glob_md dir) as [|e l IH] using rev_ind.
  - reflexivity.
  - rewrite fold_left_app, rev_app_distr. cbn [fold_left rev app find].
    destruct (String.eqb fp (file_fingerprint (fst e))) eqn:E.
    + apply assoc_get_set_same; [exact String.eqb_sym | exact string_eqb_trans | exact E].
    + rewrite assoc_get_set_other;
        [exact IH | exact String.eqb_sym | exact string_eqb_trans | exact E].
Qed.

Lemma partition_threads_spec (existing : list (string * file)) (threads : threads_t) :
  forall needs_export,
    partition_threads existing threads = Ok needs_export ->
    forall cid data,
      In (cid, data) needs_export ->
      In (JStr cid, data) threads /\ is_up_to_date existing cid data = Ok false.
Proof.
  induction threads as [|[c d] rest IH]; intros needs H cid data Hin; simpl in H.
  - inversion H; subst. destruct Hin.
  - destruct c as [ | | | s | | ]; try discriminate H.
    bind_inv H as current Ec. bind_inv H as tl Et. inversion H; subst needs; clear H.
    destruct current.
    + destruct (IH tl Et cid data Hin) as [H1 H2]. split; [right; exact H1 | exact H2].
    + destruct Hin as [Heq | Hin].
      * inversion Heq; subst. split; [left; reflexivity | exact Ec].
      * destruct (IH tl Et cid data Hin) as [H1 H2]. split; [right; exact H1 | exact H2].
Qed.

Lemma batch_step_keys (cid_set : list string) (cid : string)
    (acc : list (string * list json)) (row : string * option string) :
  assoc_get String.eqb cid acc = None ->
  mem_str cid cid_set = false ->
  assoc_get String.eqb cid (batch_step cid_set acc row) = None.
Proof.
  intros Hacc Hset. unfold batch_step.
  destruct (bubble_key_cid (fst row)) as [c|]; [|exact Hacc].
  destruct (mem_str c cid_set) eqn:Hc; [|exact Hacc].
  destruct (snd row) as [blob|]; [|exact Hacc].
  destruct (json_loads blob) as [bubble|]; [|exact Hacc].
  assert (Hne : String.eqb cid c = false).
  { destruct (String.eqb_spec cid c) as [->|]; [|reflexivity].
    rewrite Hc in Hset. discriminate Hset. }
  unfold append_bubble.
  destruct (assoc_get String.eqb c acc);
    (rewrite assoc_get_set_other;
     [exact Hacc | exact String.eqb_sym | exact string_eqb_trans | exact Hne]).
Qed.

(** Only the threads asked for are aggregated. *)
Lemma get_bubbles_batch_keys (conn : connection) (cid_set : list string)
    (bubbles_by_cid : list (string * list json)) (cid : string) :
  get_bubbles_batch conn cid_set = Ok bubbles_by_cid ->
  mem_str cid cid_set = false ->
  assoc_get String.eqb cid bubbles_by_cid = None.
Proof.
  unfold get_bubbles_batch. intros H Hset. bind_inv H as rows Er.
  inversion H; subst bubbles_by_cid; clear H.
  assert (Hgen : forall acc, assoc_get String.eqb cid acc = None ->
                 assoc_get String.eqb cid (fold_left (batch_step cid_set) rows acc) = None).
  { clear Er. induction rows as [|row rows IH]; intros acc Hacc; simpl; [exact Hacc|].
    apply IH. apply batch_step_keys; assumption. }
  apply Hgen. reflexivity.
Qed.

Lemma mem_str_In (x : string) (l : list string) : mem_str x l = true <-> In x l.
Proof.
  unfold mem_str. rewrite existsb_exists. split.
  - intros (y & Hy & E). apply String.eqb_eq in E. subst. exact Hy.
  - intros H. exists x. split; [exact H | apply String.eqb_refl].
Qed.

Lemma thread_updated_dict (d : fields_t) : thread_updated (JDict d) = Ok (last_update d).
Proof.
  unfold thread_updated, last_update. rewrite !get_dict. cbn [bind]. rewrite get_dict.
  reflexivity.
Qed.

Lemma falsy_int (v : json) (n : Z) : truthy v = false -> as_int v = Some n -> n = 0%Z.
Proof.
  destruct v as [ | b | m | | | ]; simpl; intros Ht Hn; try discriminate Hn.
  - inversion Hn; subst. reflexivity.
  - inversion Hn; subst. apply negb_false_iff in Ht. apply Z.eqb_eq in Ht. exact Ht.
Qed.

Lemma truthy_int (v : json) (n : Z) : truthy v = true -> as_int v = Some n -> n <> 0%Z.
Proof.
  destruct v as [ | b | m | | | ]; simpl; intros Ht Hn; try discriminate Hn.
  - inversion Hn; subst. discriminate.
  - inversion Hn; subst. apply negb_true_iff in Ht. apply Z.eqb_neq in Ht. exact Ht.
Qed.

(** C2 (as amended): a thread whose record is an object with an integer
    last-update timestamp (an empty one counting as 0) is classified
    up-to-date if and only if that timestamp is not zero and the file
    indexed under the fingerprint of its id -- the last listed markdown
    file such that the last 8 characters of its stem (the whole stem when
    it is shorter) are the first 8 characters of the id (the whole id
    when it is shorter) -- exists and has a modification time, in
    milliseconds, that is at least the timestamp.
    When the threads bearing an id are classified up-to-date, the id is
    not among the threads passed on for export and the batch aggregator
    collects no bubble for it. *)
Theorem up_to_date_classification (dir : directory) (cid : string) (d : fields_t)
    (updated : Z) :
  (truthy (last_update d) = false /\ updated = 0%Z)
    \/ as_int (last_update d) = Some updated ->
  (is_up_to_date (index_existing dir) cid (JDict d) = Ok true
   <-> (updated <> 0%Z
        /\ exists f, indexed_file dir (fingerprint cid) = Some f
                     /\ (updated <= f_mtime_ms f)%Z))
  /\ (exists current, is_up_to_date (index_existing dir) cid (JDict d) = Ok current)
  /\ (forall (threads : threads_t) (needs_export : list (string * json))
             (conn : connection) (bubbles_by_cid : list (string * list json)),
         partition_threads (index_existing dir) threads = Ok needs_export ->
         (forall data, In (JStr cid, data) threads ->
                       is_up_to_date (index_existing dir) cid data = Ok true) ->
         get_bubbles_batch conn (map fst needs_export) = Ok bubbles_by_cid ->
         ~ In cid (map fst needs_export)
         /\ assoc_get String.eqb cid bubbles_by_cid = None).
Proof.
  intros Hts.
  assert (Hcls : is_up_to_date (index_existing dir) cid (JDict d)
                 = Ok (negb (updated =? 0)%Z
                       && match indexed_file dir (fingerprint cid) with
                          | Some f => (updated <=? f_mtime_ms f)%Z
                          | None => false
                          end)).
  { unfold is_up_to_date. rewrite thread_updated_dict. cbn [bind].
    rewrite index_existing_spec.
    destruct (truthy (last_update d)) eqn:Ht.
    - destruct Hts as [[Hf _] | Hi]; [discriminate Hf|].
      pose proof (truthy_int _ _ Ht Hi) as Hnz. apply Z.eqb_neq in Hnz.
      rewrite Hnz, Hi. cbn [negb andb].
      destruct (indexed_file dir (fingerprint cid)); reflexivity.
    - assert (updated = 0%Z) as ->.
      { destruct Hts as [[_ H0] | Hi]; [exact H0 | exact (falsy_int _ _ Ht Hi)]. }
      reflexivity. }
  split; [|split].
  - rewrite Hcls. split.
    + intros H. inversion H as [H1]. apply andb_true_iff in H1. destruct H1 as [Hnz Hf].
      apply negb_true_iff in Hnz. apply Z.eqb_neq in Hnz. split; [exact Hnz|].
      destruct (indexed_file dir (fingerprint cid)) as [f|]; [|discriminate Hf].
      exists f. split; [reflexivity | apply Z.leb_le; exact Hf].
    + intros (Hnz & f & Hf & Hle). rewrite Hf.
      apply Z.eqb_neq in Hnz. apply Z.leb_le in Hle. rewrite Hnz, Hle. reflexivity.
  - eexists. exact Hcls.
  - intros threads needs_export conn bubbles_by_cid Hpart Hall Hbatch.
    assert (Hnot : ~ In cid (map fst needs_export)).
    { intros Hin. apply in_map_iff in Hin. destruct Hin as ([c data] & Hc & Hin).
      simpl in Hc. subst c.
      destruct (partition_threads_spec _ _ _ Hpart _ _ Hin) as [Hth Hfalse].
      rewrite (Hall _ Hth) in Hfalse. discriminate Hfalse. }
    split; [exact Hnot|].
    apply (get_bubbles_batch_keys conn (map fst needs_export) _ _ Hbatch).
    destruct (mem_str cid (map fst needs_export)) eqn:E; [|reflexivity].
    apply mem_str_In in E. contradiction.
Qed.

(** *** Re-running the export *)





Lemma partition_threads_member (existing : list (string * file)) (threads : threads_t) :
  forall needs_export,
    partition_threads existing threads = Ok needs_export ->
    forall cid data, In (cid, data) needs_export -> In cid (map fst needs_export).
Proof.
  intros needs _ cid data Hin. apply in_map_iff. exists (cid, data). split; auto.
Qed.









(** *** Thread reconstruction *)

Lemma key_eqb_sym (a b : json) : key_eqb a b = key_eqb b a.
Proof.
  destruct a, b; simpl; try reflexivity;
    try apply String.eqb_sym; apply Z.eqb_sym.
Qed.

Lemma key_eqb_trans (a b c : json) :
  key_eqb a b = true -> key_eqb b c = true -> key_eqb a c = true.
Proof.
  destruct a, b, c; simpl; intros H1 H2; try discriminate H1; try discriminate H2;
    try reflexivity;
    try (apply String.eqb_eq in H1, H2; subst; apply String.eqb_refl);
    apply Z.eqb_eq in H1, H2; apply Z.eqb_eq; congruence.
Qed.

Lemma key_eqb_refl (a : json) : hashable a = true -> key_eqb a a = true.
Proof.
  destruct a; simpl; intros H; try discriminate H; try reflexivity;
    try apply String.eqb_refl; apply Z.eqb_refl.
Qed.

Lemma assoc_get_key_congr (k k' : json) (d : threads_t) :
  key_eqb k k' = true -> assoc_get key_eqb k d = assoc_get key_eqb k' d.
Proof.
  intros Hk. induction d as [|[k2 v2] d IH]; simpl; [reflexivity|].
  rewrite (eqb_congr key_eqb key_eqb_sym key_eqb_trans k k' k2 Hk), IH. reflexivity.
Qed.

Lemma assoc_get_In (k : json) (v : json) (d : threads_t) :
  assoc_get key_eqb k d = Some v -> exists k', In (k', v) d /\ key_eqb k k' = true.
Proof.
  induction d as [|[k2 v2] d IH]; simpl; [discriminate|].
  destruct (key_eqb k k2) eqn:E.
  - intros H; inversion H; subst. exists k2. split; [left; reflexivity | exact E].
  - intros H. destruct (IH H) as (k' & Hin & Hk). exists k'. split; [right|]; assumption.
Qed.

Lemma assoc_set_Forall (P : json * json -> Prop) (k v : json) (d : threads_t) :
  Forall P d -> (forall k', P (k', v)) -> Forall P (assoc_set key_eqb k v d).
Proof.
  intros Hd Hv. induction Hd as [|[k2 v2] d H2 Hd IH]; simpl.
  - constructor; [apply Hv | constructor].
  - destruct (key_eqb k k2); constructor; try assumption. apply Hv.
Qed.

Lemma is_newer_well_formed (data old : json) :
  well_formed_record data -> well_formed_record old ->
  is_newer data old = Ok (stamp old <? stamp data)%Z.
Proof.
  intros (d1 & -> & H1 & _) (d2 & -> & H2 & _).
  unfold is_newer, last_updated, stamp, int_or_absent in *. rewrite !get_dict. cbn [bind].
  destruct (lookup "lastUpdatedAt" d1) as [v1|], (lookup "lastUpdatedAt" d2) as [v2|].
  - destruct H1 as [z1 E1], H2 as [z2 E2]. unfold py_gt. rewrite E1, E2. reflexivity.
  - destruct H1 as [z1 E1]. unfold py_gt. rewrite E1. reflexivity.
  - destruct H2 as [z2 E2]. unfold py_gt. rewrite E2. reflexivity.
  - reflexivity.
Qed.

(** The workspace loop keeps, for every id, the version [pick] keeps. *)
Lemma merge_workspace_spec (cid : json) (threads : threads_t) :
  Forall well_formed threads ->
  forall all_threads,
    Forall record_ok all_threads ->
    assoc_get key_eqb cid (merge_workspace threads all_threads)
    = pick (assoc_get key_eqb cid all_threads) (versions cid threads)
    /\ Forall record_ok (merge_workspace threads all_threads)
    /\ (distinct_keys all_threads -> distinct_keys (merge_workspace threads all_threads)).
Proof.
  induction 1 as [|[c d] rest [Hh Hd] _ IH]; intros acc Hacc; [simpl; auto|].
  simpl in Hh, Hd. cbn [merge_workspace]. rewrite Hh.
  assert (Hset : Forall record_ok (assoc_set key_eqb c d acc))
    by (apply assoc_set_Forall; [exact Hacc | intros k'; exact Hd]).
  assert (Hstep :
    forall acc', Forall record_ok acc' ->
      (distinct_keys acc -> distinct_keys acc') ->
      assoc_get key_eqb cid acc'
      = (if key_eqb cid c
         then match assoc_get key_eqb cid acc with
              | Some old => if (stamp old <? stamp d)%Z then Some d else Some old
              | None => Some d
              end
         else assoc_get key_eqb cid acc) ->
      assoc_get key_eqb cid (merge_workspace rest acc')
      = pick (assoc_get key_eqb cid acc) (versions cid ((c, d) :: rest))
      /\ Forall record_ok (merge_workspace rest acc')
      /\ (distinct_keys acc -> distinct_keys (merge_workspace rest acc'))).
  { intros acc' Hok Hdist Hget. destruct (IH acc' Hok) as (H1 & H2 & H3).
    split; [|split; [exact H2 | intros Hd0; apply H3, Hdist, Hd0]].
    rewrite H1, Hget. unfold versions. cbn [filter fst].
    destruct (key_eqb cid c); reflexivity. }
  assert (Hdset : distinct_keys acc -> distinct_keys (assoc_set key_eqb c d acc)).
  { clear. induction acc as [|[k2 v2] acc IHa]; simpl; [intros _; split; constructor|].
    intros [Hf Hd]. destruct (key_eqb c k2) eqn:E; simpl; [split; assumption|].
    split; [|apply IHa; exact Hd].
    clear IHa Hd. induction Hf as [|[k3 v3] acc H3 Hf IHf]; simpl.
    - constructor; [simpl; rewrite key_eqb_sym; exact E | constructor].
    - destruct (key_eqb c k3); constructor; assumption. }
  assert (Hsame : forall v, key_eqb cid c = true ->
            assoc_get key_eqb cid (assoc_set key_eqb c v acc) = Some v)
    by (intros v E; apply assoc_get_set_same;
        [exact key_eqb_sym | exact key_eqb_trans | exact E]).
  assert (Hother : forall v, key_eqb cid c = false ->
            assoc_get key_eqb cid (assoc_set key_eqb c v acc) = assoc_get key_eqb cid acc)
    by (intros v E; apply assoc_get_set_other;
        [exact key_eqb_sym | exact key_eqb_trans | exact E]).
  destruct (assoc_get key_eqb c acc) as [old|] eqn:Eold.
  - assert (Hold : well_formed_record old).
    { destruct (assoc_get_In _ _ _ Eold) as (k' & Hin & _).
      rewrite Forall_forall in Hacc. exact (Hacc _ Hin). }
    rewrite (is_newer_well_formed d old Hd Hold).
    destruct (stamp old <? stamp d)%Z eqn:Elt.
    + apply Hstep; [exact Hset | exact Hdset|].
      destruct (key_eqb cid c) eqn:E; [|apply Hother; reflexivity].
      rewrite (assoc_get_key_congr cid c acc E), Eold, Elt. apply Hsame; reflexivity.
    + apply Hstep; [exact Hacc | auto|].
      destruct (key_eqb cid c) eqn:E; [|reflexivity].
      rewrite (assoc_get_key_congr cid c acc E), Eold, Elt. reflexivity.
  - apply Hstep; [exact Hset | exact Hdset|].
    destruct (key_eqb cid c) eqn:E; [|apply Hother; reflexivity].
    rewrite (assoc_get_key_congr cid c acc E), Eold. apply Hsame; reflexivity.
Qed.

Lemma distinct_keys_set (c d : json) (acc : threads_t) :
  distinct_keys acc -> distinct_keys (assoc_set key_eqb c d acc).
Proof.
  induction acc as [|[k2 v2] acc IHa]; simpl; [intros _; split; constructor|].
  intros [Hf Hd]. destruct (key_eqb c k2) eqn:E; simpl; [split; assumption|].
  split; [|apply IHa; exact Hd].
  clear IHa Hd. induction Hf as [|[k3 v3] acc H3 Hf IHf]; simpl.
  - constructor; [simpl; rewrite key_eqb_sym; exact E | constructor].
  - destruct (key_eqb c k3); constructor; assumption.
Qed.

(** The loop over the global instance keeps, for every id, its last version. *)
Lemma merge_global_spec (cid : json) (threads : threads_t) :
  Forall well_formed threads ->
  forall all_threads,
    Forall record_ok all_threads ->
    assoc_get key_eqb cid (merge_global threads all_threads)
    = fold_left (fun _ v => Some v) (versions cid threads)
                (assoc_get key_eqb cid all_threads)
    /\ Forall record_ok (merge_global threads all_threads)
    /\ (distinct_keys all_threads -> distinct_keys (merge_global threads all_threads)).
Proof.
  induction 1 as [|[c d] rest [Hh Hd] _ IH]; intros acc Hacc; [simpl; auto|].
  simpl in Hh, Hd. cbn [merge_global]. rewrite Hh.
  destruct (IH (assoc_set key_eqb c d acc)) as (H1 & H2 & H3).
  { apply assoc_set_Forall; [exact Hacc | intros k'; exact Hd]. }
  split; [|split; [exact H2 | intros Hd0; apply H3, distinct_keys_set, Hd0]].
  rewrite H1. unfold versions. cbn [filter fst].
  destruct (key_eqb cid c) eqn:E; cbn [map snd fold_left].
  - rewrite assoc_get_set_same;
      [reflexivity | exact key_eqb_sym | exact key_eqb_trans | exact E].
  - rewrite assoc_get_set_other;
      [reflexivity | exact key_eqb_sym | exact key_eqb_trans | exact E].
Qed.

Lemma versions_app (cid : json) (a b : threads_t) :
  versions cid (a +++ b) = versions cid a +++ versions cid b.
Proof. unfold versions. rewrite filter_app, map_app. reflexivity. Qed.

Lemma pick_app (kept : option json) (a b : list json) :
  pick kept (a +++ b) = pick (pick kept a) b.
Proof. revert kept; induction a as [|v a IH]; intros kept; simpl; [reflexivity | apply IH]. Qed.

Lemma threads_of_scanned (db : result connection) (acc : threads_t) :
  merge_workspace_db acc db = merge_workspace (scanned db) acc.
Proof.
  unfold merge_workspace_db, scanned. destruct (threads_of db); reflexivity.
Qed.

Lemma merge_workspaces_spec (cid : json) (dbs : list (result connection)) :
  Forall well_formed (flat_map scanned dbs) ->
  forall all_threads,
    Forall record_ok all_threads ->
    assoc_get key_eqb cid (fold_left merge_workspace_db dbs all_threads)
    = pick (assoc_get key_eqb cid all_threads) (versions cid (flat_map scanned dbs))
    /\ Forall record_ok (fold_left merge_workspace_db dbs all_threads)
    /\ (distinct_keys all_threads ->
        distinct_keys (fold_left merge_workspace_db dbs all_threads)).
Proof.
  induction dbs as [|db dbs IH]; intros Hwf acc Hacc; [simpl; auto|].
  cbn [flat_map] in Hwf. apply Forall_app in Hwf. destruct Hwf as [Hdb Hdbs].
  cbn [fold_left flat_map]. rewrite threads_of_scanned.
  destruct (merge_workspace_spec cid (scanned db) Hdb acc Hacc) as (H1 & H2 & H3).
  destruct (IH Hdbs _ H2) as (G1 & G2 & G3).
  split; [|split; [exact G2 | intros Hd0; apply G3, H3, Hd0]].
  rewrite G1, H1, versions_app, pick_app. reflexivity.
Qed.

Lemma merge_global_db_scanned (env : environment) :
  merge_global_db env = merge_global (global_threads env) [].
Proof.
  unfold merge_global_db, global_threads, scanned.
  destruct (global_db_exists env); [|reflexivity].
  destruct (threads_of (global_db env)); reflexivity.
Qed.

(** What the merge keeps for an id of which the global instance holds at
    most one version. *)
Lemma merged_threads_spec (env : environment) (cid : json) :
  Forall well_formed (observed env) ->
  length (versions cid (global_threads env)) <= 1 ->
  assoc_get key_eqb cid (merged_threads env) = pick None (versions cid (observed env))
  /\ Forall record_ok (merged_threads env)
  /\ distinct_keys (merged_threads env).
Proof.
  intros Hwf Hone. unfold observed in Hwf. apply Forall_app in Hwf.
  destruct Hwf as [Hg Hw].
  destruct (merge_global_spec cid (global_threads env) Hg [] (Forall_nil _))
    as (H1 & H2 & H3).
  unfold merged_threads. rewrite merge_global_db_scanned.
  destruct (merge_workspaces_spec cid (workspace_dbs env) Hw _ H2) as (G1 & G2 & G3).
  split; [|split; [exact G2 | apply G3, H3; exact I]].
  rewrite G1, H1. unfold observed. rewrite versions_app, pick_app. f_equal.
  simpl assoc_get.
  destruct (versions cid (global_threads env)) as [|v [|w vs]]; try reflexivity.
  simpl in Hone. lia.
Qed.

(** The version [pick] keeps is the first one with the greatest timestamp. *)
Lemma pick_some (vs : list json) (c v : json) :
  pick (Some c) vs = Some v ->
  (v = c /\ Forall (fun w => (stamp w <= stamp c)%Z) vs)
  \/ (exists before after,
        vs = before +++ v :: after
        /\ (stamp c < stamp v)%Z
        /\ Forall (fun w => (stamp w < stamp v)%Z) before
        /\ Forall (fun w => (stamp w <= stamp v)%Z) after).
Proof.
  revert c; induction vs as [|w vs IH]; intros c H; simpl in H.
  - inversion H; subst. left. split; [reflexivity | constructor].
  - destruct (stamp c <? stamp w)%Z eqn:E.
    + apply Z.ltb_lt in E.
      destruct (IH _ H) as [[-> Hall] | (b & a & -> & Hlt & Hb & Ha)].
      * right. exists [], vs. repeat split; try constructor; assumption.
      * right. exists (w :: b), a. repeat split.
        -- lia.
        -- constructor; [lia | exact Hb].
        -- exact Ha.
    + apply Z.ltb_ge in E.
      destruct (IH _ H) as [[-> Hall] | (b & a & -> & Hlt & Hb & Ha)].
      * left. split; [reflexivity | constructor; assumption].
      * right. exists (w :: b), a. repeat split.
        -- exact Hlt.
        -- constructor; [lia | exact Hb].
        -- exact Ha.
Qed.

Lemma pick_none (vs : list json) :
  match vs with
  | [] => pick None vs = None
  | _ :: _ =>
      exists v before after,
        pick None vs = Some v
        /\ vs = before +++ v :: after
        /\ Forall (fun w => (stamp w < stamp v)%Z) before
        /\ Forall (fun w => (stamp w <= stamp v)%Z) after
  end.
Proof.
  destruct vs as [|c vs]; [reflexivity|]. simpl.
  destruct (pick (Some c) vs) as [v|] eqn:E.
  - destruct (pick_some _ _ _ E) as [[-> Hall] | (b & a & -> & Hlt & Hb & Ha)].
    + exists c, [], vs. repeat split; [constructor | exact Hall].
    + exists v, (c :: b), a. repeat split; [constructor; assumption | exact Ha].
  - exfalso. clear - E. revert c E. induction vs as [|w vs IH]; intros c E; simpl in E.
    + discriminate E.
    + destruct (stamp c <? stamp w)%Z; eapply IH; exact E.
Qed.

(** The sort keeps the entries. *)
Lemma insert_desc_spec (x : json * (json * json)) (sorted : list (json * (json * json))) :
  int_key x -> Forall int_key sorted ->
  exists sorted',
    insert_desc x sorted = Ok sorted'
    /\ Forall int_key sorted'
    /\ (forall y, In y sorted' <-> y = x \/ In y sorted).
Proof.
  intros [zx Hx] Hs. induction Hs as [|y rest [zy Hy] Hrest IH]; simpl.
  - exists [x]. repeat split; [repeat constructor; exists zx; exact Hx | |];
      simpl; intros H; destruct H as [H|H]; auto.
  - unfold py_gt. rewrite Hy, Hx. cbn [bind].
    destruct (zx <? zy)%Z.
    + destruct IH as (tl & -> & Htl & Hin). cbn [bind].
      exists (y :: tl). repeat split.
      * constructor; [exists zy; exact Hy | exact Htl].
      * simpl. intros [H|H]; [right; left; exact H|].
        apply Hin in H. destruct H as [H|H]; [left | right; right]; exact H.
      * simpl. intros [H|[H|H]]; [right; apply Hin; left | left | right; apply Hin; right];
          exact H.
    + exists (x :: y :: rest). repeat split.
      * constructor; [exists zx; exact Hx|].
        constructor; [exists zy; exact Hy | exact Hrest].
      * simpl. intros [H|H]; [left; symmetry; exact H | right; exact H].
      * simpl. intros [H|H]; [left; symmetry; exact H | right; exact H].
Qed.

Lemma sort_desc_spec (keyed : list (json * (json * json))) :
  Forall int_key keyed ->
  exists sorted,
    sort_desc keyed = Ok sorted
    /\ Forall int_key sorted
    /\ (forall y, In y sorted <-> In y keyed).
Proof.
  induction 1 as [|x rest Hx _ (tl & Htl & Hk & Hin)]; simpl.
  - exists []. repeat split; auto.
  - rewrite Htl. cbn [bind].
    destruct (insert_desc_spec x tl Hx Hk) as (s' & Hs' & Hk' & Hin').
    exists s'. repeat split; [exact Hs' | exact Hk' | |].
    + intros H. apply Hin' in H. destruct H as [H|H];
        [left; symmetry; exact H | right; apply Hin; exact H].
    + intros [H|H]; apply Hin'; [left; symmetry; exact H | right; apply Hin; exact H].
Qed.

Lemma created_at_keys (all_threads : threads_t) :
  Forall record_ok all_threads ->
  exists keyed,
    mapM created_at_key all_threads = Ok keyed
    /\ Forall int_key keyed
    /\ map snd keyed = all_threads.
Proof.
  induction 1 as [|[c data] rest (d & Hd & _ & Hc) _ (keyed & Hk & Hi & Hm)]; simpl.
  - exists []. repeat split; constructor.
  - simpl in Hd. subst data. unfold created_at_key at 1. cbn [snd]. rewrite get_dict.
    cbn [bind]. rewrite Hk. cbn [bind].
    eexists. split; [reflexivity|]. split; [|simpl; rewrite Hm; reflexivity].
    constructor; [|exact Hi]. unfold int_key, int_or_absent in *. cbn [fst].
    destruct (lookup "createdAt" d); [exact Hc | exists 0%Z; reflexivity].
Qed.

Lemma sorted_threads_spec (all_threads : threads_t) :
  Forall record_ok all_threads ->
  exists sorted,
    sorted_threads all_threads = Ok sorted
    /\ (forall t, In t sorted <-> In t all_threads).
Proof.
  intros Hok. destruct (created_at_keys _ Hok) as (keyed & Hk & Hi & Hm).
  destruct (sort_desc_spec keyed Hi) as (sorted & Hs & _ & Hin).
  unfold sorted_threads. rewrite Hk. cbn [bind]. rewrite Hs. cbn [bind].
  eexists. split; [reflexivity|].
  intros t. rewrite <- Hm, !in_map_iff. split; intros (y & Hy & Hy'); exists y;
    (split; [exact Hy | apply Hin; exact Hy']).
Qed.

Lemma distinct_get (cid c v : json) (l : threads_t) :
  distinct_keys l -> In (c, v) l -> key_eqb cid c = true ->
  assoc_get key_eqb cid l = Some v.
Proof.
  intros Hd Hin Hk. induction l as [|[k x] r IH]; [destruct Hin|].
  simpl in Hd. destruct Hd as [Hf Hd]. simpl.
  destruct Hin as [Heq|Hin].
  - inversion Heq; subst. rewrite Hk. reflexivity.
  - destruct (key_eqb cid k) eqn:E; [|apply IH; assumption].
    exfalso. rewrite Forall_forall in Hf. specialize (Hf _ Hin). simpl in Hf.
    rewrite key_eqb_sym in E.
    rewrite (key_eqb_trans k cid c E Hk) in Hf. discriminate Hf.
Qed.

Lemma in_get_some (cid c v : json) (l : threads_t) :
  In (c, v) l -> key_eqb cid c = true -> exists v', assoc_get key_eqb cid l = Some v'.
Proof.
  intros Hin Hk. induction l as [|[k x] r IH]; [destruct Hin|]. simpl.
  destruct (key_eqb cid k) eqn:E; [eexists; reflexivity|].
  destruct Hin as [Heq|Hin]; [|apply IH; exact Hin].
  inversion Heq; subst. rewrite Hk in E. discriminate E.
Qed.

(** A rearrangement of a dictionary binds every key as the dictionary does. *)
Lemma rearranged_get (cid : json) (l l' : threads_t) :
  distinct_keys l -> (forall t, In t l' <-> In t l) ->
  assoc_get key_eqb cid l' = assoc_get key_eqb cid l.
Proof.
  intros Hd Hin. destruct (assoc_get key_eqb cid l') as [v'|] eqn:E'.
  - destruct (assoc_get_In _ _ _ E') as (c' & Hc' & Hk').
    symmetry. eapply distinct_get; [exact Hd | apply Hin; exact Hc' | exact Hk'].
  - destruct (assoc_get key_eqb cid l) as [v|] eqn:E; [|reflexivity].
    destruct (assoc_get_In _ _ _ E) as (c & Hc & Hk).
    apply Hin in Hc. destruct (in_get_some cid c v l' Hc Hk) as [v' Hv'].
    rewrite Hv' in E'. discriminate E'.
Qed.

(** C3 (as amended): when every observed thread record is well-formed (a
    hashable id with an object whose [lastUpdatedAt] and [createdAt],
    when present, are integers) and the global instance yields at most
    one version of a thread id, the reconstruction returns and binds the
    id to the observed version with the greatest last-updated timestamp
    (an absent one counting as 0); among versions sharing the greatest
    timestamp it is the one scanned first -- the global instance, then
    the workspace instances in their order, each in the order of its
    rows.  An id that was not observed is not bound. *)
Theorem newest_version_wins (env : environment) (cid : json) :
  Forall well_formed (observed env) ->
  length (versions cid (global_threads env)) <= 1 ->
  exists sorted,
    get_all_composer_threads env = Ok sorted
    /\ match versions cid (observed env) with
       | [] => assoc_get key_eqb cid sorted = None
       | _ :: _ =>
           exists v before after,
             assoc_get key_eqb cid sorted = Some v
             /\ versions cid (observed env) = before +++ v :: after
             /\ Forall (fun w => (stamp w < stamp v)%Z) before
             /\ Forall (fun w => (stamp w <= stamp v)%Z) after
       end.
Proof.
  intros Hwf Hone.
  destruct (merged_threads_spec env cid Hwf Hone) as (Hget & Hok & Hdist).
  destruct (sorted_threads_spec _ Hok) as (sorted & Hs & Hin).
  exists sorted. split; [exact Hs|].
  rewrite (rearranged_get cid _ sorted Hdist Hin), Hget.
  pose proof (pick_none (versions cid (observed env))) as Hp.
  destruct (versions cid (observed env)) as [|v0 vs]; [exact Hp|].
  destruct Hp as (v & before & after & Hv & Hsplit & Hb & Ha).
  exists v, before, after. repeat split; assumption.
Qed.

(* ------------------------------------------------------------------ *)
(** ** Further properties of the source *)

(** *** Truncation and code blocks *)

Lemma str_take_min (n : nat) (s : string) :
  String.length (str_take n s) = Nat.min n (String.length s).
Proof.
  revert s; induction n as [|n IH]; intros [|c s]; simpl; try reflexivity.
  now rewrite IH.
Qed.

Lemma starts_with_take (n : nat) (s : string) : starts_with (str_take n s) s = true.
Proof.
  revert s; induction n as [|n IH]; intros [|c s]; simpl; try reflexivity.
  now rewrite Ascii.eqb_refl, IH.
Qed.

(** X2: [truncate_string] returns a string of at most [max_len]
    characters as it is, and a longer one as a prefix of it followed by
    the suffix.  The prefix has [max_len] less the length of the suffix
    characters when the suffix fits into [max_len]; with a longer suffix
    the slice bound is negative and counts from the end of the string.
    The result fits into [max_len] characters exactly when the string or
    the suffix does: with a suffix longer than [max_len] a long string
    comes back longer than [max_len]. *)
Theorem truncate_string_fits (s : string) (max_len : Z) (suffix : string) :
  ((Z.of_nat (String.length s) <= max_len)%Z -> truncate_string s max_len suffix = s)
  /\ ((max_len < Z.of_nat (String.length s))%Z ->
      exists p,
        starts_with p s = true
        /\ truncate_string s max_len suffix = p ++ suffix
        /\ Z.of_nat (String.length p)
           = (if Z.of_nat (String.length suffix) <=? max_len
              then max_len - Z.of_nat (String.length suffix)
              else Z.max 0 (Z.of_nat (String.length s) + max_len
                            - Z.of_nat (String.length suffix)))%Z)
  /\ ((Z.of_nat (String.length (truncate_string s max_len suffix)) <= max_len)%Z
      <-> (Z.of_nat (String.length s) <= max_len)%Z
          \/ (Z.of_nat (String.length suffix) <= max_len)%Z).
Proof.
  unfold truncate_string, py_prefix.
  destruct (Z.leb_spec (Z.of_nat (String.length s)) max_len) as [Hs|Hs].
  - split; [reflexivity|]. split; [lia|].
    split; [intros _; left; exact Hs | intros _; exact Hs].
  - split; [lia|]. split.
    + intros _.
      destruct (Z.leb_spec 0 (max_len - Z.of_nat (String.length suffix))) as [Hk|Hk];
        (eexists; split; [apply starts_with_take|]; split; [reflexivity|]);
        rewrite str_take_min;
        destruct (Z.leb_spec (Z.of_nat (String.length suffix)) max_len); lia.
    + rewrite str_length_app.
      destruct (Z.leb_spec 0 (max_len - Z.of_nat (String.length suffix))) as [Hk|Hk];
        rewrite str_take_min; split; intros H; try lia; destruct H as [H|H]; lia.
Qed.

Lemma split_on_cons (sep : ascii) (s : string) :
  exists w ws, split_on sep s = w :: ws.
Proof.
  destruct s as [|c s]; simpl; [eauto|].
  destruct (Ascii.eqb c sep); [eauto|].
  destruct (split_on sep s); eauto.
Qed.

Lemma join_split_on (sep : ascii) (s : string) :
  join (String sep EmptyString) (split_on sep s) = s.
Proof.
  unfold join. induction s as [|c s IH]; [reflexivity|].
  simpl. destruct (Ascii.eqb_spec c sep) as [->|Hne].
  - destruct (split_on_cons sep s) as (w & ws & E). rewrite E in *.
    simpl. simpl in IH. rewrite IH. reflexivity.
  - destruct (split_on_cons sep s) as (w & ws & E). rewrite E in *.
    destruct ws as [|w' ws]; simpl in *; rewrite <- IH; reflexivity.
Qed.

Lemma starts_with_app (p s : string) : starts_with p (p ++ s) = true.
Proof.
  induction p as [|c p IH]; simpl; [reflexivity|].
  now rewrite Ascii.eqb_refl, IH.
Qed.

(** X3: [format_code_block] yields nothing for a blank code text and
    otherwise one line for every line of the text, each made of the
    prefix and the line: taking the prefix off the lines and joining them
    with line breaks gives the text back, so no line is cut or left
    out. *)
Theorem code_block_keeps_every_line (code prefix : string) :
  join (String newline EmptyString)
       (map (str_drop (String.length prefix)) (format_code_block code prefix))
  = (if nonempty (strip code) then code else "")
  /\ Forall (fun line => starts_with prefix line = true) (format_code_block code prefix)
  /\ List.length (format_code_block code prefix)
     = (if nonempty (strip code) then List.length (split_on newline code) else 0).
Proof.
  unfold format_code_block. destruct (nonempty (strip code)).
  - split; [|split].
    + rewrite map_map.
      rewrite (map_ext _ (fun l => l)) by (intros l; apply str_drop_all).
      rewrite map_id. apply join_split_on.
    + apply Forall_forall. intros line Hin. apply in_map_iff in Hin.
      destruct Hin as (l & <- & _). apply starts_with_app.
    + apply length_map.
  - repeat split. constructor.
Qed.

(** *** Slugs *)

Lemma str_all_ext (p q : ascii -> bool) (s : string) :
  (forall c, p c = true -> q c = true) -> str_all p s = true -> str_all q s = true.
Proof.
  intros Hpq. induction s as [|c s IH]; simpl; [reflexivity|].
  intros H. apply andb_true_iff in H. destruct H as [Hc Hs].
  rewrite (Hpq c Hc), (IH Hs). reflexivity.
Qed.

Lemma str_all_app (p : ascii -> bool) (a b : string) :
  str_all p (a ++ b) = str_all p a && str_all p b.
Proof. induction a as [|c a IH]; simpl; [reflexivity | now rewrite IH, andb_assoc]. Qed.

Lemma str_all_take (p : ascii -> bool) (n : nat) (s : string) :
  str_all p s = true -> str_all p (str_take n s) = true.
Proof.
  revert s; induction n as [|n IH]; intros [|c s]; simpl; try reflexivity.
  intros H. apply andb_true_iff in H. destruct H as [Hc Hs].
  now rewrite Hc, (IH s Hs).
Qed.

Lemma str_all_lstrip (p q : ascii -> bool) (s : string) :
  str_all p s = true -> str_all p (lstrip_by q s) = true.
Proof.
  induction s as [|c s IH]; simpl; [reflexivity|].
  intros H. destruct (q c); [|exact H].
  apply andb_true_iff in H. apply IH, H.
Qed.

Lemma str_all_rstrip (p q : ascii -> bool) (s : string) :
  str_all p s = true -> str_all p (rstrip_by q s) = true.
Proof.
  induction s as [|c s IH]; simpl; [reflexivity|].
  intros H. apply andb_true_iff in H. destruct H as [Hc Hs]. specialize (IH Hs).
  destruct (rstrip_by q s) as [|d r].
  - destruct (q c); simpl; [reflexivity | now rewrite Hc].
  - change (str_all p (String c (String d r))) with (p c && str_all p (String d r)).
    now rewrite Hc, IH.
Qed.

Lemma collapse_dashes_cons (c : ascii) (s : string) :
  collapse_dashes (String c s)
  = if Ascii.eqb c "-"%char then
      match s with
      | String c' _ => if Ascii.eqb c' "-"%char then collapse_dashes s
                       else String c (collapse_dashes s)
      | EmptyString => String c EmptyString
      end
    else String c (collapse_dashes s).
Proof. destruct s; reflexivity. Qed.

Lemma str_all_collapse (p : ascii -> bool) (s : string) :
  str_all p s = true -> str_all p (collapse_dashes s) = true.
Proof.
  induction s as [|c s IH]; [reflexivity|].
  intros H. rewrite collapse_dashes_cons.
  change (str_all p (String c s)) with (p c && str_all p s) in H.
  apply andb_true_iff in H. destruct H as [Hc Hs]. specialize (IH Hs).
  destruct (Ascii.eqb c "-"%char).
  - destruct s as [|c' s']; [simpl; now rewrite Hc|].
    destruct (Ascii.eqb c' "-"%char); [exact IH|].
    change (p c && str_all p (collapse_dashes (String c' s')) = true).
    now rewrite Hc, IH.
  - change (p c && str_all p (collapse_dashes s) = true). now rewrite Hc, IH.
Qed.

Lemma avoids_app (bad more : list ascii) (c : ascii) :
  avoids (bad +++ more) c = avoids bad c && avoids more c.
Proof. unfold avoids. now rewrite existsb_app, negb_orb. Qed.

Lemma str_all_replace (bad : list ascii) (old : ascii) (new s : string) :
  str_all (avoids bad) s = true ->
  str_all (avoids (bad +++ [old])) new = true ->
  str_all (avoids (bad +++ [old])) (replace_char old new s) = true.
Proof.
  intros Hs Hnew. induction s as [|c s IH]; simpl; [reflexivity|].
  simpl in Hs. apply andb_true_iff in Hs. destruct Hs as [Hc Hs]. specialize (IH Hs).
  destruct (Ascii.eqb c old) eqn:E.
  - rewrite str_all_app, Hnew, IH. reflexivity.
  - simpl. rewrite IH, avoids_app, Hc. unfold avoids. simpl. now rewrite E.
Qed.

Lemma fold_replace_avoids (rs : list (ascii * string)) :
  forall (bad : list ascii) (s : string),
    str_all (avoids bad) s = true ->
    Forall (fun r => str_all (avoids (bad +++ map fst rs)) (snd r) = true) rs ->
    str_all (avoids (bad +++ map fst rs))
            (fold_left (fun t r => replace_char (fst r) (snd r) t) rs s) = true.
Proof.
  induction rs as [|r rs IH]; intros bad s Hs Hrs; simpl.
  - rewrite app_nil_r. exact Hs.
  - inversion Hrs as [|? ? Hr Hrest]; subst.
    replace (bad +++ fst r :: map fst rs) with ((bad +++ [fst r]) +++ map fst rs)
      by (rewrite <- app_assoc; reflexivity).
    apply IH.
    + apply str_all_replace; [exact Hs|].
      revert Hr. apply str_all_ext. intros c. simpl.
      replace (bad +++ fst r :: map fst rs) with ((bad +++ [fst r]) +++ map fst rs)
        by (rewrite <- app_assoc; reflexivity).
      rewrite (avoids_app (bad +++ [fst r])). intros H.
      apply andb_true_iff in H. apply H.
    + revert Hrest. apply Forall_impl. intros a.
      simpl. rewrite <- app_assoc. simpl. exact (fun H => H).
Qed.

Lemma first_line_avoids (sep : ascii) (s : string) :
  str_all (avoids [sep])
          (match split_on sep s with l :: _ => l | [] => EmptyString end) = true.
Proof.
  induction s as [|c s IH]; simpl; [reflexivity|].
  destruct (Ascii.eqb c sep) eqn:E; [reflexivity|].
  destruct (split_on sep s) as [|w ws]; simpl.
  - unfold avoids. simpl. now rewrite E.
  - rewrite IH. unfold avoids. simpl. now rewrite E.
Qed.

Lemma avoids_not_contains (bad : list ascii) (c : ascii) (s : string) :
  In c bad -> str_all (avoids bad) s = true -> contains (String c EmptyString) s = false.
Proof.
  intros Hin. induction s as [|d s IH]; simpl; [reflexivity|].
  intros H. apply andb_true_iff in H. destruct H as [Hd Hs].
  rewrite (IH Hs), orb_false_r.
  destruct (Ascii.eqb_spec c d) as [->|Hne]; [|reflexivity].
  unfold avoids in Hd. apply negb_true_iff in Hd.
  assert (existsb (Ascii.eqb d) bad = true)
    by (apply existsb_exists; exists d; split; [exact Hin | apply Ascii.eqb_refl]).
  congruence.
Qed.

Lemma slug_avoids_reserved (title : string) (max_length : nat) :
  str_all (avoids reserved_characters) (slugify_title title max_length) = true.
Proof.
  unfold slugify_title.
  match goal with
  | |- context [strip_by is_dash (collapse_dashes ?t)] =>
      assert (H : str_all (avoids reserved_characters) t = true)
  end.
  { apply (fold_replace_avoids replacements [newline]).
    - apply str_all_take, first_line_avoids.
    - repeat constructor. }
  match goal with
  | |- context [if ?b then _ else _] => destruct b
  end; [|reflexivity].
  unfold strip_by. apply str_all_rstrip, str_all_lstrip, str_all_collapse, H.
Qed.

(** X4: a slug holds none of the characters of the replacement table
    (slash, backslash, colon, asterisk, question mark, double quote,
    angle brackets, bar, space) and no line break, whatever the title. *)
Theorem slug_has_no_reserved_character (title : string) (max_length : nat) :
  Forall (fun c => contains (String c EmptyString) (slugify_title title max_length) = false)
         reserved_characters.
Proof.
  apply Forall_forall. intros c Hin.
  apply (avoids_not_contains reserved_characters); [exact Hin|].
  apply slug_avoids_reserved.
Qed.

Lemma replace_char_length (old : ascii) (new s : string) :
  String.length new <= 1 -> String.length (replace_char old new s) <= String.length s.
Proof.
  intros Hn. induction s as [|c s IH]; simpl; [lia|].
  destruct (Ascii.eqb c old); [rewrite str_length_app|simpl]; lia.
Qed.

Lemma fold_replace_length (rs : list (ascii * string)) :
  Forall (fun r => String.length (snd r) <= 1) rs ->
  forall s, String.length (fold_left (fun t r => replace_char (fst r) (snd r) t) rs s)
            <= String.length s.
Proof.
  induction 1 as [|r rs Hr _ IH]; intros s; simpl; [lia|].
  etransitivity; [apply IH | apply replace_char_length, Hr].
Qed.

Lemma collapse_dashes_length (s : string) :
  String.length (collapse_dashes s) <= String.length s.
Proof.
  induction s as [|c s IH]; [simpl; lia|].
  rewrite collapse_dashes_cons.
  destruct (Ascii.eqb c "-"%char); [destruct s as [|c' s']|]; simpl String.length in *;
    try lia.
  destruct (Ascii.eqb c' "-"%char); simpl String.length in *; lia.
Qed.

Lemma lstrip_by_length (p : ascii -> bool) (s : string) :
  String.length (lstrip_by p s) <= String.length s.
Proof. induction s as [|c s IH]; simpl; [lia|]. destruct (p c); simpl; lia. Qed.

Lemma rstrip_by_prefix (p : ascii -> bool) (s : string) :
  exists t, s = rstrip_by p s ++ t.
Proof.
  induction s as [|c s [t IH]]; simpl; [exists ""; reflexivity|].
  destruct (rstrip_by p s) as [|d r].
  - destruct (p c); [exists (String c s); reflexivity|].
    exists s. reflexivity.
  - exists t. simpl. simpl in IH. rewrite <- IH. reflexivity.
Qed.

Lemma rstrip_by_length (p : ascii -> bool) (s : string) :
  String.length (rstrip_by p s) <= String.length s.
Proof.
  destruct (rstrip_by_prefix p s) as [t E]. rewrite E at 2. rewrite str_length_app. lia.
Qed.

Lemma lstrip_by_head (p : ascii -> bool) (s : string) (c : ascii) (r : string) :
  lstrip_by p s = String c r -> p c = false.
Proof.
  induction s as [|d s IH]; simpl; [discriminate|].
  destruct (p d) eqn:E; [exact IH|]. intros H. inversion H; subst. exact E.
Qed.

Lemma rstrip_by_head (p : ascii -> bool) (s : string) (c : ascii) (r : string) :
  rstrip_by p s = String c r -> exists r', s = String c r'.
Proof.
  destruct s as [|d s]; simpl; [discriminate|].
  destruct (rstrip_by p s); [destruct (p d)|]; intros H; inversion H; subst; eauto.
Qed.

Lemma rstrip_by_last (p : ascii -> bool) (s : string) :
  forall (a : string) (c : ascii), rstrip_by p s = a ++ String c EmptyString -> p c = false.
Proof.
  induction s as [|d s IH]; intros a c; simpl.
  - destruct a; discriminate.
  - destruct (rstrip_by p s) as [|e r] eqn:E.
    + destruct (p d) eqn:Ed; [destruct a; discriminate|].
      destruct a as [|x a]; simpl; intros H; inversion H; subst; [exact Ed|].
      destruct a; discriminate.
    + destruct a as [|x a]; simpl; intros H; inversion H; subst.
      apply (IH a c). assumption.
Qed.

Lemma str_take_drop (n : nat) (s : string) : s = str_take n s ++ str_drop n s.
Proof.
  revert s; induction n as [|n IH]; intros [|c s]; simpl; try reflexivity.
  now rewrite <- IH.
Qed.

Lemma ends_with_split (suffix s : string) :
  ends_with suffix s = true -> exists a, s = a ++ suffix.
Proof.
  unfold ends_with, str_last. intros H. apply andb_true_iff in H. destruct H as [H _].
  apply String.eqb_eq in H.
  exists (str_take (String.length s - String.length suffix) s).
  rewrite <- H at 2. apply str_take_drop.
Qed.

Lemma starts_with_app_l (sub a b : string) :
  starts_with sub a = true -> starts_with sub (a ++ b) = true.
Proof.
  revert a; induction sub as [|c sub IH]; intros a; [reflexivity|].
  destruct a as [|d a]; simpl; [discriminate|].
  intros H. apply andb_true_iff in H. destruct H as [Hc Hs]. now rewrite Hc, (IH a Hs).
Qed.

Lemma contains_app_l (sub a b : string) :
  contains sub (a ++ b) = false -> contains sub a = false.
Proof.
  induction a as [|c a IH]; simpl.
  - intros H. destruct sub; [|reflexivity]. destruct b; discriminate H.
  - intros H. apply orb_false_iff in H. destruct H as [Hs Hc].
    rewrite (IH Hc), orb_false_r.
    destruct (starts_with sub (String c a)) eqn:E; [|reflexivity].
    apply (starts_with_app_l _ _ b) in E. simpl in E. congruence.
Qed.

Lemma contains_lstrip (sub : string) (p : ascii -> bool) (s : string) :
  contains sub s = false -> contains sub (lstrip_by p s) = false.
Proof.
  induction s as [|c s IH]; [intros H; exact H|].
  intros H. simpl lstrip_by. destruct (p c); [|exact H].
  apply IH. apply (contains_cons sub c s H).
Qed.

Lemma contains_rstrip (sub : string) (p : ascii -> bool) (s : string) :
  contains sub s = false -> contains sub (rstrip_by p s) = false.
Proof.
  intros H. destruct (rstrip_by_prefix p s) as [t E]. rewrite E in H.
  apply (contains_app_l _ _ _ H).
Qed.

Lemma collapse_dashes_single (s : string) : contains "--" (collapse_dashes s) = false.
Proof.
  induction s as [|c s IH]; [reflexivity|].
  rewrite collapse_dashes_cons.
  destruct (Ascii.eqb_spec c "-"%char) as [->|Hc].
  - destruct s as [|c' s']; [reflexivity|].
    destruct (Ascii.eqb_spec c' "-"%char) as [->|Hc']; [exact IH|].
    rewrite collapse_dashes_cons in *.
    apply Ascii.eqb_neq in Hc'. rewrite Hc' in *.
    change (contains "--" (String "-" (String c' (collapse_dashes s'))))
      with ((Ascii.eqb "-" "-" && (Ascii.eqb "-" c' && true))
            || contains "--" (String c' (collapse_dashes s'))).
    rewrite IH, (Ascii.eqb_sym "-" c'), Hc'. reflexivity.
  - change (contains "--" (String c (collapse_dashes s)))
      with (starts_with "--" (String c (collapse_dashes s))
            || contains "--" (collapse_dashes s)).
    rewrite IH, orb_false_r.
    change (starts_with "--" (String c (collapse_dashes s)))
      with (Ascii.eqb "-" c && starts_with "-" (collapse_dashes s)).
    apply Ascii.eqb_neq in Hc. rewrite (Ascii.eqb_sym "-" c), Hc. reflexivity.
Qed.

(** X5: a slug is never empty, neither begins nor ends with a dash, has
    no two dashes in a row, and is at most [max_length] characters long,
    or 8 when it is the fallback "untitled". *)
Theorem slug_shape (title : string) (max_length : nat) :
  slugify_title title max_length <> ""
  /\ starts_with "-" (slugify_title title max_length) = false
  /\ ends_with "-" (slugify_title title max_length) = false
  /\ contains "--" (slugify_title title max_length) = false
  /\ String.length (slugify_title title max_length) <= Nat.max max_length 8.
Proof.
  unfold slugify_title.
  match goal with
  | |- context [strip_by is_dash (collapse_dashes ?x)] =>
      assert (Hlen : String.length x <= max_length); [|generalize dependent x]
  end.
  { etransitivity; [apply fold_replace_length; repeat constructor|].
    rewrite str_take_min. lia. }
  intros t Hlen.
  destruct (strip_by is_dash (collapse_dashes t)) as [|c r] eqn:E.
  - simpl nonempty. cbv iota. repeat split; try reflexivity; [discriminate | simpl; lia].
  - simpl nonempty. cbv iota. rewrite <- E.
    split; [rewrite E; discriminate|]. split; [|split; [|split]].
    + rewrite E. unfold strip_by in E.
      destruct (rstrip_by_head _ _ _ _ E) as [r' E'].
      apply lstrip_by_head in E'. unfold is_dash in E'.
      change (starts_with "-" (String c r)) with (Ascii.eqb "-" c && true).
      rewrite (Ascii.eqb_sym "-" c), E'. reflexivity.
    + destruct (ends_with "-" (strip_by is_dash (collapse_dashes t))) eqn:He; [|reflexivity].
      apply ends_with_split in He. destruct He as [a He].
      unfold strip_by in He. apply rstrip_by_last in He. discriminate He.
    + unfold strip_by. apply contains_rstrip, contains_lstrip, collapse_dashes_single.
    + unfold strip_by.
      etransitivity; [apply rstrip_by_length|].
      etransitivity; [apply lstrip_by_length|].
      etransitivity; [apply collapse_dashes_length|]. lia.
Qed.

(** *** Tool invocations *)

(** Reading a successful run of a formatter backwards, down to its last
    [Ok]. *)
Ltac run_back H :=
  repeat (cbv beta zeta in H;
          match type of H with
          | bind _ _ = Ok _ =>
              let x := fresh "x" in
              let E := fresh "E" in
              apply bind_ok in H; destruct H as (x & E & H)
          | (if ?b then _ else _) = Ok _ => destruct b
          | match ?x with _ => _ end = Ok _ => destruct x
          | Raise _ = Ok _ => discriminate H
          end).

Lemma formatter_shows (name args result_data : json) (lines : list string) :
  truthy name = true ->
  (if eq_str name "codebase_search" then fmt_codebase_search args result_data
   else if eq_str name "read_file" then fmt_read_file args
   else if eq_str name "write" then fmt_write args
   else if eq_str name "search_replace" then fmt_search_replace args
   else if eq_str name "run_terminal_cmd" then fmt_run_terminal_cmd args result_data
   else if eq_str name "grep" then fmt_grep args result_data
   else if eq_str name "list_dir" then fmt_list_dir args
   else if eq_str name "glob_file_search" then fmt_glob_file_search args
   else if eq_str name "delete_file" then fmt_delete_file args
   else if eq_str name "edit_notebook" then fmt_edit_notebook args
   else if eq_str name "todo_write" then fmt_todo_write args
   else if eq_str name "web_search" then fmt_web_search args result_data
   else if truthy name then fmt_generic name args
   else Ok []) = Ok lines ->
  lines <> [].
Proof.
  intros T H. rewrite T in H.
  unfold fmt_codebase_search, fmt_read_file, fmt_write, fmt_search_replace,
    fmt_run_terminal_cmd, fmt_grep, fmt_list_dir, fmt_glob_file_search,
    fmt_delete_file, fmt_edit_notebook, fmt_todo_write, fmt_web_search,
    fmt_generic in H.
  run_back H; inversion H; discriminate.
Qed.

Lemma unnamed_tool_silent (name : json) (s : string) :
  truthy name = false -> s <> "" -> eq_str name s = false.
Proof.
  intros T Hs. destruct name as [ | | |t| | ]; try reflexivity.
  destruct t; [|discriminate T]. simpl. destruct s; [congruence | reflexivity].
Qed.

(** X6: the action lines of a bubble are the lines of its tool
    invocation followed by those of its reference blocks, and the tool
    invocation contributes no line exactly when it has no name: a named
    invocation is always shown, whatever its kind and its payloads. *)
Theorem named_tool_is_shown (bubble_fields tfd : fields_t) (lines : list string) :
  lookup "toolFormerData" bubble_fields = Some (JDict tfd) ->
  extract_intermediate_actions (JDict bubble_fields) = Ok lines ->
  exists tool aux,
    tool_actions (JDict tfd) = Ok tool
    /\ aux_actions (JDict bubble_fields) = Ok aux
    /\ lines = tool +++ aux
    /\ (tool = [] <-> truthy (field tfd "name") = false).
Proof.
  intros Htfd H. unfold extract_intermediate_actions in H.
  rewrite get_dict, Htfd in H. cbn [bind] in H.
  bind_inv H as tool Etool. bind_inv H as aux Eaux. inversion H; subst lines; clear H.
  exists tool, aux. repeat split; try assumption.
  - intros ->. unfold tool_actions in Etool. cbn [is_dict] in Etool.
    rewrite get_dict in Etool. cbn [bind] in Etool.
    bind_inv Etool as args Eargs. bind_inv Etool as result_data Eres.
    unfold field. destruct (lookup "name" tfd) as [name|]; [|reflexivity].
    destruct (truthy name) eqn:T; [|reflexivity].
    exfalso. refine (formatter_shows name args result_data [] T _ eq_refl).
    rewrite T. exact Etool.
  - intros T. unfold tool_actions in Etool. cbn [is_dict] in Etool.
    rewrite get_dict in Etool. cbn [bind] in Etool.
    bind_inv Etool as args Eargs. bind_inv Etool as result_data Eres.
    unfold field in T.
    assert (Hname : truthy (match lookup "name" tfd with
                            | Some x => x
                            | None => JStr ""
                            end) = false)
      by (destruct (lookup "name" tfd); [exact T | reflexivity]).
    rewrite !(unnamed_tool_silent _ _ Hname), Hname in Etool by discriminate.
    inversion Etool. reflexivity.
Qed.

(** *** What the rendering loop shows and what it leaves out *)

Section Shown.

Variable conn : connection.
Variable cid : string.

(** The bubbles a look-ahead takes into its block passed its test. *)
Lemma lookahead_taken (following : list json) :
  forall (all_actions acts : list string) (k : nat),
    lookahead conn cid following all_actions = Ok (acts, k) ->
    Forall (fun b => exists a, next_action_only conn cid b = Ok (Some a))
           (firstn k following).
Proof.
  induction following as [|b rest IH]; intros all_actions acts k H; simpl in H.
  - inversion H; subst. constructor.
  - bind_inv H as joined Ej. destruct joined as [next_actions|].
    + bind_inv H as r Er. inversion H; subst. destruct r as [acts' k']. simpl.
      constructor; [eauto | eapply IH; exact Er].
    + inversion H; subst. constructor.
Qed.

(** A bubble that passes the test of the look-ahead has neither a body
    nor thinking text. *)
Lemma taken_is_silent (bubble : json) (v : view) (a : list string) :
  next_action_only conn cid bubble = Ok (Some a) ->
  bubble_view conn cid bubble = Ok v ->
  has_content v = false /\ nonempty (v_thinking v) = false.
Proof.
  intros Hn Hv. destruct (bubble_view_inv conn cid _ _ Hv)
    as (ctx & stored & own & Hc & _ & Hctx & Ht & Ha & _ & _ & _).
  unfold next_action_only in Hn. rewrite Hc, Hctx, Ha, Ht in Hn. cbn [bind] in Hn.
  bind_inv Hn as fs Efs. unfold has_content.
  destruct (nonempty (strip (v_content v))); [discriminate Hn|].
  destruct (nonempty (v_thinking v)); [|split; reflexivity].
  rewrite andb_false_r in Hn. discriminate Hn.
Qed.

Lemma items_cover (n : nat) :
  forall bubbles : list json,
    length bubbles <= n ->
    forall items : list item,
      emitted_items conn cid bubbles 0 = Ok items ->
      forall (b : json) (v : view),
        In b bubbles ->
        bubble_view conn cid b = Ok v ->
        has_content v = true \/ nonempty (v_thinking v) = true ->
        exists it, In it items /\ it_lines it = bubble_lines v.
Proof.
  induction n as [|n IH]; intros bubbles Hlen items Hitems b v Hin Hv Hshown.
  - destruct bubbles; [destruct Hin | simpl in Hlen; lia].
  - destruct bubbles as [|b0 rest]; [destruct Hin|].
    simpl in Hlen. cbn [emitted_items] in Hitems.
    bind_inv Hitems as v0 Ev0.
    destruct (is_empty_view v0) eqn:Hempty.
    + destruct Hin as [<-|Hin].
      * rewrite Hv in Ev0. inversion Ev0; subst v0. exfalso.
        unfold is_empty_view in Hempty.
        destruct Hshown as [Hs|Hs]; rewrite Hs in Hempty; simpl in Hempty;
          [discriminate | rewrite !andb_false_r in Hempty; discriminate].
      * apply (IH rest ltac:(lia) items Hitems b v Hin Hv Hshown).
    + destruct (is_action_only v0) eqn:Hao.
      * bind_inv Hitems as r Er. bind_inv Hitems as items' Eitems'.
        inversion Hitems; subst items; clear Hitems.
        destruct r as [acts k]. cbn [fst snd] in *.
        destruct Hin as [<-|Hin].
        { rewrite Hv in Ev0. inversion Ev0; subst v0. exfalso.
          unfold is_action_only in Hao.
          destruct Hshown as [Hs|Hs]; rewrite Hs in Hao; simpl in Hao;
            [discriminate | rewrite !andb_false_r in Hao; discriminate]. }
        rewrite emitted_items_skip in Eitems'.
        rewrite <- (firstn_skipn k rest) in Hin. apply in_app_or in Hin.
        destruct Hin as [Hin|Hin].
        { exfalso. pose proof (lookahead_taken _ _ _ _ Er) as Htaken.
          rewrite Forall_forall in Htaken. destruct (Htaken b Hin) as [a Ha].
          destruct (taken_is_silent b v a Ha Hv) as [H1 H2].
          destruct Hshown; congruence. }
        destruct (IH (skipn k rest) ltac:(rewrite length_skipn; lia) items' Eitems'
                     b v Hin Hv Hshown) as (it & Hit & Hl).
        exists it. split; [right; exact Hit | exact Hl].
      * bind_inv Hitems as items' Eitems'.
        inversion Hitems; subst items; clear Hitems.
        destruct Hin as [<-|Hin].
        { rewrite Hv in Ev0. inversion Ev0; subst v0.
          eexists; split; [left; reflexivity | reflexivity]. }
        destruct (IH rest ltac:(lia) items' Eitems' b v Hin Hv Hshown)
          as (it & Hit & Hl).
        exists it. split; [right; exact Hit | exact Hl].
Qed.

Lemma assemble_In (line : string) (it : item) (items : list item) :
  In it items -> In line (it_lines it) ->
  forall previous, In line (assemble previous items).
Proof.
  induction items as [|x items IH]; intros Hit Hline previous; [destruct Hit|].
  cbn [assemble]. apply in_or_app. right. apply in_or_app.
  destruct Hit as [->|Hit]; [left; exact Hline | right; apply IH; assumption].
Qed.

(** X7: no message body and no thinking text is lost.  When the
    rendering loop returns, the document holds, for every bubble of the
    thread with a body that is not empty after trimming, the line that
    shows that body under the role of the bubble, and for every bubble
    with thinking text the line that shows it. *)
Theorem bodies_and_thinking_are_rendered (bubbles : list json)
    (last_role final : option role) (md_lines out : list string)
    (b : json) (v : view) :
  render_loop conn cid bubbles 0 last_role md_lines = Ok (final, out) ->
  In b bubbles ->
  bubble_view conn cid b = Ok v ->
  (strip (v_content v) <> "" -> In (message_line v) out)
  /\ (v_thinking v <> "" -> In (thinking_line v) out).
Proof.
  intros H Hin Hv. rewrite render_loop_items in H.
  bind_inv H as items Eitems. inversion H; subst final out; clear H.
  assert (Hcover : has_content v = true \/ nonempty (v_thinking v) = true ->
                   forall line, In line (bubble_lines v) ->
                                In line (md_lines +++ assemble last_role items)).
  { intros Hshown line Hline.
    destruct (items_cover (length bubbles) bubbles (le_n _) items Eitems b v Hin Hv Hshown)
      as (it & Hit & Hl).
    apply in_or_app. right. apply (assemble_In line it items Hit).
    rewrite Hl. exact Hline. }
  split.
  - intros Hc.
    assert (Hs : has_content v = true)
      by (unfold has_content; destruct (strip (v_content v)); [congruence | reflexivity]).
    apply Hcover; [left; exact Hs|].
    unfold bubble_lines. rewrite Hs. apply in_or_app. right.
    apply in_or_app. left. left. reflexivity.
  - intros Ht.
    assert (Hs : nonempty (v_thinking v) = true)
      by (destruct (v_thinking v); [congruence | reflexivity]).
    apply Hcover; [right; exact Hs|].
    unfold bubble_lines. rewrite Hs. apply in_or_app. left. left. reflexivity.
Qed.

(** A bubble with thinking text fails the test of the look-ahead. *)
Lemma thinking_stops (bubble : json) (v : view) :
  bubble_view conn cid bubble = Ok v ->
  nonempty (v_thinking v) = true ->
  next_action_only conn cid bubble = Ok None.
Proof.
  intros Hv Hth. destruct (bubble_view_inv conn cid _ _ Hv)
    as (ctx & stored & own & Hc & _ & Hctx & Ht & Ha & Hs & _ & _).
  destruct (stored_context_fields _ _ Hs) as (fs & Hfs & _).
  unfold next_action_only. rewrite Hc, Hctx, Ha, Ht. cbn [bind]. rewrite Hfs. cbn [bind].
  rewrite Hth, andb_false_r. reflexivity.
Qed.

(** The loop reaches a bubble that no look-ahead takes in the state the
    bubbles before it leave. *)
Lemma render_loop_split (before : list json) (e : json) (after : list json) :
  next_action_only conn cid e = Ok None ->
  forall (k : nat) (last_role : option role) (md_lines : list string),
    k <= length before ->
    render_loop conn cid (before ++ e :: after) k last_role md_lines
    = (r <- render_loop conn cid before k last_role md_lines ;;
       render_loop conn cid (e :: after) 0 (fst r) (snd r)).
Proof.
  intros Hstop.
  induction before as [|b rest IH]; intros k last_role md_lines Hk.
  - simpl in Hk. assert (k = 0) by lia. subst k. reflexivity.
  - destruct k as [|k].
    + cbn [render_loop app].
      destruct (bubble_view conn cid b) as [w|err]; [|reflexivity]. cbn [bind].
      destruct (is_empty_view w); [apply IH; lia|].
      destruct (is_action_only w).
      * rewrite (lookahead_stops conn cid) by exact Hstop.
        destruct (lookahead conn cid rest (v_actions w)) as [[acts n]|err] eqn:El;
          [|reflexivity].
        cbn [bind fst snd]. apply IH. apply lookahead_bound in El. exact El.
      * apply IH; lia.
    + cbn [render_loop app]. apply IH. simpl in Hk. lia.
Qed.

(** X8: a bubble that has thinking text but no body is rendered, wherever
    it stands in the thread, as its thinking line and its context
    information alone: the action lines of its tool invocation are not
    shown, nor are they taken into the block of a run of action-only
    bubbles before it. *)
Theorem thinking_bubble_shows_no_actions (before : list json) (b : json)
    (after : list json) (v : view) (last_role : option role) (md_lines : list string) :
  bubble_view conn cid b = Ok v ->
  strip (v_content v) = "" ->
  v_thinking v <> "" ->
  render_loop conn cid (before ++ b :: after) 0 last_role md_lines
  = (r <- render_loop conn cid before 0 last_role md_lines ;;
     render_loop conn cid after 0 (Some (v_role v))
       (snd r +++ transition (fst r) (v_role v)
          +++ [thinking_line v; ""] +++ v_context_info v +++ [""])).
Proof.
  intros Hv Hc Ht.
  assert (Hth : nonempty (v_thinking v) = true)
    by (destruct (v_thinking v); [congruence | reflexivity]).
  assert (Hco : has_content v = false) by (unfold has_content; rewrite Hc; reflexivity).
  rewrite (render_loop_split before b after (thinking_stops b v Hv Hth)) by lia.
  destruct (render_loop conn cid before 0 last_role md_lines) as [[role lines]|err];
    [|reflexivity].
  cbn [bind fst snd render_loop]. rewrite Hv. cbn [bind].
  unfold is_empty_view, is_action_only. rewrite Hth, Hco, !andb_false_r.
  unfold bubble_lines. rewrite Hth, Hco, andb_false_r.
  f_equal. rewrite <- !app_assoc. f_equal. f_equal.
  destruct (v_context_info v); reflexivity.
Qed.

(** The look-ahead does not get past a bubble whose test raises. *)
Lemma lookahead_reach (l : list json) (bad : json) (post : list json) :
  is_ok (next_action_only conn cid bad) = false ->
  forall (all_actions acts : list string) (k : nat),
    lookahead conn cid (l ++ bad :: post) all_actions = Ok (acts, k) ->
    k <= length l.
Proof.
  intros Hbad. induction l as [|b rest IH]; intros all_actions acts k H; simpl in H.
  - destruct (next_action_only conn cid bad); [discriminate Hbad | discriminate H].
  - bind_inv H as joined Ej. destruct joined as [next_actions|].
    + bind_inv H as r Er. inversion H; subst. destruct r as [acts' k'].
      apply IH in Er. simpl. lia.
    + inversion H; subst. simpl. lia.
Qed.

Lemma render_loop_raises (bad : json) (after : list json) :
  is_ok (bubble_view conn cid bad) = false ->
  is_ok (next_action_only conn cid bad) = false ->
  forall (before : list json) (k : nat) (last_role : option role)
         (md_lines : list string),
    k <= length before ->
    is_ok (render_loop conn cid (before ++ bad :: after) k last_role md_lines) = false.
Proof.
  intros Hview Hnext.
  induction before as [|b rest IH]; intros k last_role md_lines Hk.
  - simpl in Hk. assert (k = 0) by lia. subst k. simpl.
    destruct (bubble_view conn cid bad); [discriminate Hview | reflexivity].
  - destruct k as [|k].
    + cbn [render_loop app].
      destruct (bubble_view conn cid b) as [w|err]; [|reflexivity]. cbn [bind].
      destruct (is_empty_view w); [apply IH; lia|].
      destruct (is_action_only w); [|apply IH; lia].
      destruct (lookahead conn cid (rest ++ bad :: after) (v_actions w))
        as [[acts n]|err] eqn:El; [|reflexivity].
      cbn [bind fst snd]. apply IH. apply (lookahead_reach _ _ _ Hnext) in El. exact El.
    + cbn [render_loop app]. apply IH. simpl in Hk. lia.
Qed.

(** X9: a thinking record whose [text] is not a string stops the
    rendering of its thread: wherever the bubble stands among the
    bubbles, [format_conversation_markdown] raises instead of returning
    a document. *)
Theorem malformed_thinking_stops_rendering (now : string) (thread_data : json)
    (before : list json) (fields thinking : fields_t) (text : json) (after : list json)
    (filename : string) :
  lookup "thinking" fields = Some (JDict thinking) ->
  lookup "text" thinking = Some text ->
  is_str text = false ->
  exists e,
    format_conversation_markdown now thread_data cid (before ++ JDict fields :: after)
                                 filename conn
    = Raise e.
Proof.
  intros Hth Htext Hstr.
  assert (Hraise : extract_thinking_content (JDict fields) = Raise AttributeError).
  { unfold extract_thinking_content. rewrite get_dict, Hth. cbn [bind is_dict].
    rewrite get_dict, Htext. cbn [bind]. destruct text; try reflexivity. discriminate Hstr. }
  assert (Hview : is_ok (bubble_view conn cid (JDict fields)) = false).
  { unfold bubble_view.
    destruct (extract_message_content (JDict fields)); [|reflexivity]. cbn [bind].
    destruct (get_message_role (JDict fields)); [|reflexivity]. cbn [bind].
    destruct (bubble_context conn cid (JDict fields)); [|reflexivity]. cbn [bind].
    rewrite Hraise. reflexivity. }
  assert (Hnext : is_ok (next_action_only conn cid (JDict fields)) = false).
  { unfold next_action_only.
    destruct (extract_message_content (JDict fields)); [|reflexivity]. cbn [bind].
    destruct (bubble_context conn cid (JDict fields)); [|reflexivity]. cbn [bind].
    destruct (extract_intermediate_actions (JDict fields)); [|reflexivity]. cbn [bind].
    rewrite Hraise. reflexivity. }
  unfold format_conversation_markdown, markdown_lines.
  destruct (header_lines now thread_data cid (before ++ JDict fields :: after))
    as [header|e]; [|exists e; reflexivity].
  cbn [bind].
  pose proof (render_loop_raises (JDict fields) after Hview Hnext before 0 None header
                                 (Nat.le_0_l _)) as Hloop.
  destruct (render_loop conn cid (before ++ JDict fields :: after) 0 None header)
    as [r|e]; [discriminate Hloop|].
  exists e. reflexivity.
Qed.

Lemma listing_cases (heading : nat -> string) (v : json)
    (each : json -> result (list string)) (out : list string) :
  listing heading v each = Ok out -> has_lines out = truthy v.
Proof.
  unfold listing. destruct (truthy v); [|intros H; inversion H; reflexivity].
  intros H. bind_inv H. bind_inv H. bind_inv H. inversion H. reflexivity.
Qed.

Lemma has_lines_app (a b : list string) :
  has_lines (a +++ b) = has_lines a || has_lines b.
Proof. destruct a; reflexivity. Qed.

(** The fields the look-ahead counts are there exactly when the stored
    context record yields lines. *)
Lemma stored_context_test (context_data : json) (stored : list string) :
  stored_context_info context_data = Ok stored ->
  exists fs, next_context_fields context_data = Ok fs /\ has_lines fs = has_lines stored.
Proof.
  unfold stored_context_info, next_context_fields.
  destruct (truthy context_data);
    [|intros H; inversion H; exists []; split; reflexivity].
  intros H. bind_inv H as files Ef. destruct (get_ok_dict _ _ _ _ Ef) as [d ->].
  rewrite get_dict in Ef. inversion Ef; subst files; clear Ef.
  bind_inv H as l1 E1. bind_inv H as todos Et.
  rewrite get_dict in Et. inversion Et; subst todos; clear Et.
  bind_inv H as l2 E2. bind_inv H as terminal_files Etf.
  rewrite get_dict in Etf. inversion Etf; subst terminal_files; clear Etf.
  bind_inv H as l3 E3. bind_inv H as cursor_rules Ecr.
  rewrite get_dict in Ecr. inversion Ecr; subst cursor_rules; clear Ecr.
  bind_inv H as l4 E4. inversion H; subst stored; clear H.
  unfold context_fields. cbn [concatM]. rewrite !get_dict. cbn [bind].
  eexists; split; [reflexivity|].
  apply listing_cases in E1, E2, E3, E4.
  rewrite !has_lines_app, E1, E2, E3, E4, !truthy_default.
  destruct (truthy (match lookup "files" d with Some x => x | None => JList [] end)),
    (truthy (match lookup "todos" d with Some x => x | None => JList [] end)),
    (truthy (match lookup "terminalFiles" d with Some x => x | None => JList [] end)),
    (truthy (match lookup "cursorRules" d with Some x => x | None => JList [] end));
    reflexivity.
Qed.

(** X19: the test by which the look-ahead takes the next bubble into a
    block is the test for an action-only bubble made on the stored
    context record alone: no body, some action lines, no thinking text,
    and no lines from the stored record.  The two tests agree on every
    bubble that carries no context information of its own. *)
Theorem look_ahead_ignores_own_context (bubble : json) (v : view)
    (context_data : json) (stored : list string) :
  bubble_view conn cid bubble = Ok v ->
  bubble_context conn cid bubble = Ok context_data ->
  stored_context_info context_data = Ok stored ->
  next_action_only conn cid bubble
  = Ok (if negb (has_content v) && has_lines (v_actions v)
           && negb (has_lines stored) && negb (nonempty (v_thinking v))
        then Some (v_actions v) else None)
  /\ (bubble_context_info bubble = Ok [] ->
      next_action_only conn cid bubble
      = Ok (if is_action_only v then Some (v_actions v) else None)).
Proof.
  intros Hv Hctx Hstored.
  destruct (bubble_view_inv conn cid _ _ Hv)
    as (ctx & stored' & own & Hc & _ & Hctx' & Ht & Ha & Hs & Hown & Hinfo).
  rewrite Hctx in Hctx'. inversion Hctx'; subst ctx; clear Hctx'.
  rewrite Hstored in Hs. inversion Hs; subst stored'; clear Hs.
  destruct (stored_context_test _ _ Hstored) as (fs & Hfs & Hsame).
  assert (Htest : next_action_only conn cid bubble
                  = Ok (if negb (has_content v) && has_lines (v_actions v)
                           && negb (has_lines stored) && negb (nonempty (v_thinking v))
                        then Some (v_actions v) else None)).
  { unfold next_action_only. rewrite Hc, Hctx, Ha, Ht. cbn [bind]. rewrite Hfs. cbn [bind].
    rewrite Hsame. unfold has_content.
    destruct (negb (nonempty (strip (v_content v))) && has_lines (v_actions v)
              && negb (has_lines stored) && negb (nonempty (v_thinking v)));
      reflexivity. }
  split; [exact Htest|].
  intros Hnone. rewrite Hnone in Hown. inversion Hown; subst own.
  rewrite Htest. unfold is_action_only. rewrite Hinfo, app_nil_r. reflexivity.
Qed.

End Shown.

(** *** The order of the reconstructed threads *)

Lemma insert_desc_sorted (x : json * (json * json))
    (sorted : list (json * (json * json))) :
  keyed_by_creation x -> Forall keyed_by_creation sorted ->
  StronglySorted key_order sorted ->
  exists sorted',
    insert_desc x sorted = Ok sorted'
    /\ Permutation sorted' (x :: sorted)
    /\ StronglySorted key_order sorted'.
Proof.
  intros Hx. induction sorted as [|y rest IH]; intros Hall Hsorted.
  - exists [x]. repeat split; [reflexivity | constructor; constructor].
  - inversion Hall as [|? ? Hy Hrest]; subst.
    inversion Hsorted as [|? ? Hs Hle]; subst.
    cbn [insert_desc]. unfold py_gt. unfold keyed_by_creation in Hx, Hy.
    rewrite Hx, Hy. cbn [bind].
    destruct (Z.ltb_spec (created (snd (snd x))) (created (snd (snd y)))) as [Hlt|Hge].
    + destruct (IH Hrest Hs) as (tl & -> & Hperm & Htl). cbn [bind].
      exists (y :: tl). repeat split.
      * rewrite Hperm. apply perm_swap.
      * constructor; [exact Htl|].
        apply (Permutation_Forall (Permutation_sym Hperm)).
        constructor; [|exact Hle]. unfold key_order, newest_first. lia.
    + exists (x :: y :: rest). repeat split; [reflexivity|].
      constructor; [exact Hsorted|].
      constructor; [unfold key_order, newest_first; lia|].
      revert Hle. apply Forall_impl. intros z. unfold key_order, newest_first. lia.
Qed.

Lemma sort_desc_sorted (keyed : list (json * (json * json))) :
  Forall keyed_by_creation keyed ->
  exists sorted,
    sort_desc keyed = Ok sorted
    /\ Permutation sorted keyed
    /\ StronglySorted key_order sorted.
Proof.
  induction 1 as [|x rest Hx Hrest IH].
  - exists []. repeat split; constructor.
  - destruct IH as (tl & Etl & Hperm & Htl). cbn [sort_desc]. rewrite Etl. cbn [bind].
    destruct (insert_desc_sorted x tl Hx
                (Permutation_Forall (Permutation_sym Hperm) Hrest) Htl)
      as (sorted & -> & Hp & Hs).
    exists sorted. repeat split; [|exact Hs].
    rewrite Hp. constructor. exact Hperm.
Qed.

Lemma created_at_keyed (all_threads : threads_t) :
  Forall record_ok all_threads ->
  exists keyed,
    mapM created_at_key all_threads = Ok keyed
    /\ Forall keyed_by_creation keyed
    /\ map snd keyed = all_threads.
Proof.
  induction 1 as [|t rest Ht _ IH].
  - exists []. repeat split. constructor.
  - destruct IH as (keyed & E & Hk & Hm).
    destruct t as [c data]. destruct Ht as (d & Hd & _ & Hc). simpl in Hd. subst data.
    cbn [mapM]. unfold created_at_key at 1. cbn [snd]. rewrite get_dict. cbn [bind].
    rewrite E. cbn [bind].
    eexists. repeat split.
    + constructor; [|exact Hk].
      unfold keyed_by_creation, created, int_or_absent in *. cbn [fst snd].
      destruct (lookup "createdAt" d) as [v|]; [|reflexivity].
      destruct Hc as [z Hz]. rewrite Hz. reflexivity.
    + simpl. rewrite Hm. reflexivity.
Qed.

Lemma sorted_map_snd (l : list (json * (json * json))) :
  StronglySorted key_order l -> StronglySorted newest_first (map snd l).
Proof.
  induction 1 as [|x l _ IH Hx]; simpl; constructor; [exact IH|].
  apply Forall_map. exact Hx.
Qed.

Lemma distinct_keys_perm (l l' : threads_t) :
  Permutation l l' -> distinct_keys l -> distinct_keys l'.
Proof.
  induction 1 as [|x l l' Hp IH|x y l|l l' l'' _ IH1 _ IH2]; simpl.
  - exact (fun H => H).
  - intros [Hx Hl]. split; [apply (Permutation_Forall Hp Hx) | apply IH, Hl].
  - intros [Hy [Hx Hl]]. inversion Hy as [|? ? Hyx Hyl]; subst.
    repeat split; [|exact Hyl | exact Hl].
    constructor; [rewrite key_eqb_sym; exact Hyx | exact Hx].
  - intros H. apply IH2, IH1, H.
Qed.

Lemma versions_unhashable (threads : threads_t) : versions (JList []) threads = [].
Proof.
  unfold versions. induction threads as [|[c d] rest IH]; [reflexivity|].
  simpl. exact IH.
Qed.

(** X10: when every observed thread record is well-formed, the
    reconstruction returns the merged threads, each id once, ordered by
    creation timestamp with the newest first (an absent timestamp
    counting as 0). *)
Theorem threads_sorted_newest_first (env : environment) :
  Forall well_formed (observed env) ->
  exists sorted,
    get_all_composer_threads env = Ok sorted
    /\ Permutation sorted (merged_threads env)
    /\ StronglySorted newest_first sorted
    /\ distinct_keys sorted.
Proof.
  intros Hwf.
  destruct (merged_threads_spec env (JList []) Hwf) as (_ & Hok & Hdistinct).
  { rewrite versions_unhashable. simpl. lia. }
  unfold get_all_composer_threads, sorted_threads.
  destruct (created_at_keyed _ Hok) as (keyed & -> & Hkeyed & Hmap). cbn [bind].
  destruct (sort_desc_sorted keyed Hkeyed) as (sorted & -> & Hperm & Hsorted). cbn [bind].
  exists (map snd sorted).
  assert (Hp : Permutation (map snd sorted) (merged_threads env))
    by (rewrite <- Hmap; apply Permutation_map, Hperm).
  repeat split; [exact Hp | apply sorted_map_snd, Hsorted|].
  apply (distinct_keys_perm _ _ (Permutation_sym Hp) Hdistinct).
Qed.

(** *** The batch aggregator *)


(** *** What a run does to the output directory *)

Lemma write_file_names (path text : string) (mtime_ms : Z) (dir : directory) :
  exists added, map fst (write_file path text mtime_ms dir) = map fst dir +++ added.
Proof.
  unfold write_file. induction dir as [|[name f] dir [added IH]]; simpl.
  - exists [path]. reflexivity.
  - destruct (String.eqb path name); simpl.
    + exists []. rewrite app_nil_r. reflexivity.
    + exists added. rewrite IH. reflexivity.
Qed.

Lemma write_file_entries (path text : string) (mtime_ms : Z) (dir : directory)
    (name : string) (f : file) :
  In (name, f) (write_file path text mtime_ms dir) ->
  In (name, f) dir \/ name = path.
Proof.
  unfold write_file. induction dir as [|[name' f'] dir IH]; simpl.
  - intros [H|[]]. inversion H. right. reflexivity.
  - destruct (String.eqb_spec path name') as [->|Hne]; simpl.
    + intros [H|H]; [inversion H; right; reflexivity | left; right; exact H].
    + intros [H|H]; [left; left; exact H|].
      destruct (IH H) as [H'|H']; [left; right; exact H' | right; exact H'].
Qed.










(** *** From one run to the next *)

Lemma generate_filename_shape (thread_data : json) (cid first_message filename : string) :
  generate_filename thread_data cid first_message = Ok filename ->
  exists stamp_and_slug, filename = stamp_and_slug ++ "-" ++ fingerprint cid ++ ".md".
Proof.
  intros H. unfold generate_filename in H.
  bind_inv H as created_at Ec. bind_inv H as timestamp_str Et.
  bind_inv H as name En. bind_inv H as title Etitle.
  inversion H; subst filename; clear H.
  exists (timestamp_str ++ "-" ++ slugify_title title 50).
  unfold fingerprint. rewrite !str_app_assoc. reflexivity.
Qed.

Lemma contains_app_r (sub a b : string) :
  contains sub (a ++ b) = false -> contains sub b = false.
Proof.
  induction a as [|c a IH]; [exact (fun H => H)|].
  intros H. apply IH. apply (contains_cons sub c (a ++ b) H).
Qed.

Lemma fingerprint_of_name (pre fp : string) :
  String.length fp = 8 ->
  contains "/" (pre ++ "-" ++ fp ++ ".md") = false ->
  file_fingerprint (pre ++ "-" ++ fp ++ ".md") = fp
  /\ ends_with ".md" (pre ++ "-" ++ fp ++ ".md") = true.
Proof.
  intros Hlen Hsep. split.
  - unfold file_fingerprint.
    rewrite (stem_md _ (pre ++ "-" ++ fp)).
    + rewrite <- Hlen, <- str_app_assoc. apply str_last_app.
    + unfold path_name. rewrite (contains_char_rfind "/" _ Hsep).
      rewrite !str_app_assoc. reflexivity.
    + destruct pre; discriminate.
  - pose proof (ends_with_app (pre ++ "-" ++ fp) ".md") as H.
    rewrite !str_app_assoc in H. exact H.
Qed.

Lemma write_file_listed (path text : string) (mtime_ms : Z) (dir : directory) :
  In (path, {| f_text := text; f_mtime_ms := mtime_ms |})
     (write_file path text mtime_ms dir).
Proof.
  unfold write_file. induction dir as [|[name f] dir IH]; simpl; [left; reflexivity|].
  destruct (String.eqb_spec path name) as [->|Hne]; [left; reflexivity | right; exact IH].
Qed.

Lemma write_file_others (path text : string) (mtime_ms : Z) (dir : directory)
    (name : string) (f : file) :
  NoDup (map fst dir) ->
  In (name, f) (write_file path text mtime_ms dir) ->
  (name = path /\ f = {| f_text := text; f_mtime_ms := mtime_ms |})
  \/ (name <> path /\ In (name, f) dir).
Proof.
  unfold write_file. induction dir as [|[name' f'] dir IH]; simpl; intros Hnd Hin.
  - destruct Hin as [H|[]]. inversion H. left. split; reflexivity.
  - inversion Hnd as [|? ? Hfresh Hnd']; subst.
    destruct (String.eqb_spec path name') as [->|Hne]; simpl in Hin.
    + destruct Hin as [H|H]; [inversion H; left; split; reflexivity|].
      right. split; [|right; exact H].
      intros ->. apply Hfresh. apply in_map_iff. exists (name', f). split; [reflexivity | exact H].
    + destruct Hin as [H|H].
      * inversion H; subst. right. split; [congruence | left; reflexivity].
      * destruct (IH Hnd' H) as [Hl|[Hr1 Hr2]]; [left; exact Hl|].
        right. split; [exact Hr1 | right; exact Hr2].
Qed.

(** X13: the document a run writes for a thread is the one the next run
    finds under the thread's fingerprint.  When the generated name stays
    inside the output directory and no other markdown file of the
    directory ends with the same fingerprint, the index built over the
    directory after the write binds the fingerprint to the written file;
    a thread record with an integer last-update timestamp is then
    classified up-to-date exactly when that timestamp is not zero and not
    later than the modification time of the written file. *)
Theorem written_document_is_found (dir : directory) (thread_data : json)
    (cid first_message filename text : string) (mtime_ms : Z) :
  8 <= String.length cid ->
  generate_filename thread_data cid first_message = Ok filename ->
  contains "/" filename = false ->
  NoDup (map fst dir) ->
  (forall name f, In (name, f) (glob_md dir) -> name <> filename ->
                  file_fingerprint name <> fingerprint cid) ->
  indexed_file (write_file filename text mtime_ms dir) (fingerprint cid)
  = Some {| f_text := text; f_mtime_ms := mtime_ms |}
  /\ forall (d : fields_t) (updated : Z),
       as_int (last_update d) = Some updated ->
       is_up_to_date (index_existing (write_file filename text mtime_ms dir)) cid (JDict d)
       = Ok (negb (updated =? 0)%Z && (updated <=? mtime_ms)%Z).
Proof.
  intros Hlen Hname Hsep Hnd Hothers.
  destruct (generate_filename_shape _ _ _ _ Hname) as [pre Hshape].
  assert (Hfp : String.length (fingerprint cid) = 8) by (apply str_take_length; exact Hlen).
  rewrite Hshape in Hsep.
  destruct (fingerprint_of_name pre (fingerprint cid) Hfp Hsep) as [Hprint Hmd].
  rewrite <- Hshape in Hsep, Hprint, Hmd.
  assert (Hfound : indexed_file (write_file filename text mtime_ms dir) (fingerprint cid)
                   = Some {| f_text := text; f_mtime_ms := mtime_ms |}).
  { unfold indexed_file.
    destruct (find (fun entry => String.eqb (fingerprint cid) (file_fingerprint (fst entry)))
                   (rev (glob_md (write_file filename text mtime_ms dir))))
      as [[name f]|] eqn:Efind.
    - apply find_some in Efind. destruct Efind as [Hin Hmatch].
      apply in_rev in Hin. unfold glob_md in Hin. apply filter_In in Hin.
      destruct Hin as [Hin Hglob]. cbn [fst snd] in *.
      apply String.eqb_eq in Hmatch.
      destruct (write_file_others _ _ _ _ _ _ Hnd Hin) as [[_ ->]|[Hne Hold]];
        [reflexivity|].
      exfalso. apply (Hothers name f); [|exact Hne | symmetry; exact Hmatch].
      unfold glob_md. apply filter_In. split; assumption.
    - exfalso.
      pose proof (find_none _ _ Efind
                    (filename, {| f_text := text; f_mtime_ms := mtime_ms |})) as Hnone.
      cbn [fst] in Hnone. rewrite Hprint, String.eqb_refl in Hnone.
      assert (Hin : In (filename, {| f_text := text; f_mtime_ms := mtime_ms |})
                       (rev (glob_md (write_file filename text mtime_ms dir)))).
      { apply in_rev. rewrite rev_involutive. unfold glob_md. apply filter_In.
        split; [apply write_file_listed|]. cbn [fst]. rewrite Hmd, Hsep. reflexivity. }
      specialize (Hnone Hin). discriminate Hnone. }
  split; [exact Hfound|].
  intros d updated Hupdated. unfold is_up_to_date.
  rewrite thread_updated_dict. cbn [bind].
  rewrite index_existing_spec, Hfound, Hupdated. cbn [f_mtime_ms].
  destruct (truthy (last_update d)) eqn:T.
  - pose proof (truthy_int _ _ T Hupdated) as Hnz.
    apply Z.eqb_neq in Hnz. rewrite Hnz. reflexivity.
  - pose proof (falsy_int _ _ T Hupdated) as Hz. subst updated. reflexivity.
Qed.

(** *** The body of a message *)

Lemma rstrip_by_idempotent (p : ascii -> bool) (s : string) :
  rstrip_by p (rstrip_by p s) = rstrip_by p s.
Proof.
  induction s as [|c s IH]; [reflexivity|].
  simpl. destruct (rstrip_by p s) as [|d r] eqn:E.
  - destruct (p c) eqn:Ec; [reflexivity|]. simpl. rewrite Ec. reflexivity.
  - change (rstrip_by p (String c (String d r)))
      with (match rstrip_by p (String d r) with
            | EmptyString => if p c then EmptyString else String c EmptyString
            | String x y => String c (String x y)
            end).
    rewrite IH. reflexivity.
Qed.

Lemma strip_by_idempotent (p : ascii -> bool) (s : string) :
  strip_by p (strip_by p s) = strip_by p s.
Proof.
  unfold strip_by.
  destruct (rstrip_by p (lstrip_by p s)) as [|c r] eqn:E; [reflexivity|].
  assert (Hc : p c = false).
  { destruct (rstrip_by_head _ _ _ _ E) as [r' E']. apply (lstrip_by_head _ _ _ _ E'). }
  simpl lstrip_by. rewrite Hc, <- E. apply rstrip_by_idempotent.
Qed.

Lemma py_or_first_truthy (a b c d : json) :
  py_or a (py_or b (py_or c (py_or d (JStr ""))))
  = match first_truthy [a; b; c; d] with Some v => v | None => JStr "" end.
Proof.
  unfold py_or. cbn [first_truthy].
  destruct (truthy a), (truthy b), (truthy c), (truthy d); reflexivity.
Qed.

(** X14: the body of a message is taken from the first non-empty
    (truthy) value among [content], [text], [richText] and [message]: an
    object is printed as JSON text, any other value is converted to a
    string and trimmed, and without such a value the body is empty.  A
    body that does not come from an object is therefore free of leading
    and trailing white space.  A bubble that is not an object raises. *)
Theorem content_resolution_order (bubble : json) :
  extract_message_content bubble
  = match bubble with
    | JDict d =>
        Ok (match first_truthy (content_fields d) with
            | Some (JDict o) => json_dumps (JDict o)
            | Some v => strip (py_str v)
            | None => ""
            end)
    | _ => Raise AttributeError
    end
  /\ forall d c,
       bubble = JDict d ->
       extract_message_content bubble = Ok c ->
       (forall o, first_truthy (content_fields d) <> Some (JDict o)) ->
       strip c = c.
Proof.
  assert (Horder : extract_message_content bubble
                   = match bubble with
                     | JDict d =>
                         Ok (match first_truthy (content_fields d) with
                             | Some (JDict o) => json_dumps (JDict o)
                             | Some v => strip (py_str v)
                             | None => ""
                             end)
                     | _ => Raise AttributeError
                     end).
  { destruct bubble as [ | | | | |d]; try reflexivity.
    unfold extract_message_content. rewrite !get_dict. cbn [bind].
    unfold content_fields, field.
    set (a := match lookup "content" d with Some x => x | None => JNull end).
    set (b := match lookup "text" d with Some x => x | None => JNull end).
    set (c := match lookup "richText" d with Some x => x | None => JNull end).
    set (e := match lookup "message" d with Some x => x | None => JNull end).
    rewrite py_or_first_truthy.
    destruct (first_truthy [a; b; c; e]) as [v|]; [|reflexivity].
    destruct v; reflexivity. }
  split; [exact Horder|].
  intros d c -> Hc Hobj. rewrite Horder in Hc. clear Horder.
  destruct (first_truthy (content_fields d)) as [v|];
    [|injection Hc as <-; reflexivity].
  destruct v; try (injection Hc as <-; apply strip_by_idempotent).
  exfalso. exact (Hobj _ eq_refl).
Qed.

(** *** Stores that cannot be read *)

Lemma merge_workspace_unhashable (before : threads_t) (bad : json * json)
    (rest : threads_t) :
  hashable (fst bad) = false ->
  forall all_threads,
    merge_workspace (before +++ bad :: rest) all_threads
    = merge_workspace before all_threads.
Proof.
  intros Hbad. induction before as [|[c data] before IH]; intros all_threads.
  - destruct bad as [c data]. simpl in *. rewrite Hbad. reflexivity.
  - cbn [app merge_workspace]. destruct (hashable c); [|reflexivity].
    destruct (assoc_get key_eqb c all_threads) as [old|]; [|apply IH].
    destruct (is_newer data old) as [[|]|e]; [apply IH | apply IH | reflexivity].
Qed.

(** X15: a store instance that cannot be opened or queried takes no part
    in the reconstruction and does not stop it: the result is that of a
    run without the instance, be it a workspace instance or the global
    one.  Within a workspace instance, a record whose id is not hashable
    (a list or an object) ends the scan of that instance: the records
    before it are merged, the records after it are not. *)
Theorem unreadable_stores_are_skipped (env : environment) :
  (forall (a b : list (result connection)) (db : result connection) (e : exn),
      workspace_dbs env = a +++ db :: b ->
      threads_of db = Raise e ->
      get_all_composer_threads env
      = get_all_composer_threads (with_workspaces env (a +++ b)))
  /\ (forall e, threads_of (global_db env) = Raise e ->
                get_all_composer_threads env
                = get_all_composer_threads (without_global env))
  /\ (forall (before rest : threads_t) (bad : json * json) (all_threads : threads_t),
         hashable (fst bad) = false ->
         merge_workspace (before +++ bad :: rest) all_threads
         = merge_workspace before all_threads).
Proof.
  split; [|split].
  - intros a b db e Hdbs Hdb. unfold get_all_composer_threads, merged_threads.
    f_equal. rewrite Hdbs. cbn [with_workspaces workspace_dbs].
    rewrite !fold_left_app. cbn [fold_left].
    unfold merge_workspace_db at 2. rewrite Hdb. reflexivity.
  - intros e Hdb. unfold get_all_composer_threads, merged_threads. f_equal.
    cbn [without_global workspace_dbs]. f_equal.
    unfold merge_global_db. cbn [without_global global_db_exists global_db].
    rewrite Hdb. destruct (global_db_exists env); reflexivity.
  - intros before rest bad all_threads Hbad. apply merge_workspace_unhashable, Hbad.
Qed.

(** *** Thread ids that are not strings *)

Lemma partition_threads_raises (existing : list (string * file)) (threads : threads_t)
    (cid data : json) :
  In (cid, data) threads -> is_str cid = false ->
  exists e, partition_threads existing threads = Raise e.
Proof.
  intros Hin Hstr. induction threads as [|[c d] rest IH]; [destruct Hin|].
  destruct Hin as [H|Hin].
  - inversion H; subst c d. destruct cid; try (eexists; reflexivity). discriminate Hstr.
  - destruct (IH Hin) as [e He].
    destruct c; try (eexists; reflexivity).
    cbn [partition_threads].
    destruct (is_up_to_date existing s d); [|eexists; reflexivity]. cbn [bind].
    rewrite He. eexists; reflexivity.
Qed.

(** X16: thread ids are expected to be strings.  When the
    reconstruction yields a thread under an id that is not one (an
    entry of the aggregate record whose [composerId] is a number, say)
    and the global store exists, a run without a minimum creation time
    raises before any file is written. *)
Theorem non_string_id_stops_export (env : environment) (history : result item_table)
    (can_write : string -> bool) (clock : nat -> string * Z) (dir : directory)
    (threads : threads_t) (cid data : json) :
  get_all_composer_threads env = Ok threads ->
  In (cid, data) threads ->
  is_str cid = false ->
  global_db_exists env = true ->
  exists e, export_conversations env history can_write clock None dir = Raise e.
Proof.
  intros Hthreads Hin Hstr Hglobal.
  unfold export_conversations. rewrite Hthreads, Hglobal. cbn [bind].
  destruct (global_db env) as [conn|e]; [|exists e; reflexivity]. cbn [bind].
  destruct (partition_threads_raises (index_existing dir) threads cid data Hin Hstr)
    as [e He].
  rewrite He. exists e. reflexivity.
Qed.

(** *** The terminal history *)

(** X17: the export of the terminal history touches no file but
    [terminal-history.md]: the names of the directory stay, in their
    order, and every other entry stays as it is.  The file is written
    only when the commands record of the item table is there and not
    empty and the file can be opened for writing; a directory history
    without a command history is not exported. *)
Theorem terminal_history_writes_one_file (store : result item_table)
    (can_write : string -> bool) (now : string) (mtime_ms : Z) (dir : directory) :
  (exists added,
      map fst (export_terminal_history store can_write now mtime_ms dir)
      = map fst dir +++ added)
  /\ (forall name f,
         In (name, f) (export_terminal_history store can_write now mtime_ms dir) ->
         In (name, f) dir \/ name = "terminal-history.md")
  /\ (export_terminal_history store can_write now mtime_ms dir <> dir ->
      exists table value,
        store = Ok table
        /\ commands_row table = Ok (Some (Some value))
        /\ value <> ""
        /\ can_write "terminal-history.md" = true).
Proof.
  unfold export_terminal_history.
  assert (Hsame : (exists added, map fst dir = map fst dir +++ added)
                  /\ (forall name f, In (name, f) dir ->
                                     In (name, f) dir \/ name = "terminal-history.md")).
  { split; [exists []; rewrite app_nil_r; reflexivity | auto]. }
  destruct (terminal_history_document store now) as [[text|]|e] eqn:Edoc;
    try (split; [apply Hsame | split; [apply Hsame | congruence]]).
  destruct (can_write "terminal-history.md") eqn:Ecw;
    [|split; [apply Hsame | split; [apply Hsame | congruence]]].
  split; [apply write_file_names|]. split.
  - intros name f Hin. apply write_file_entries in Hin. exact Hin.
  - intros _. unfold terminal_history_document in Edoc.
    destruct store as [table|e]; [|discriminate Edoc]. cbn [bind] in Edoc.
    destruct (commands_row table) as [commands|e] eqn:Erow; [|discriminate Edoc].
    cbn [bind] in Edoc.
    destruct (dirs_row table) as [dirs|e]; [|discriminate Edoc]. cbn [bind] in Edoc.
    destruct commands as [[value|]|]; try discriminate Edoc.
    exists table, value.
    split; [reflexivity|]. split; [exact Erow|]. split; [|reflexivity].
    destruct value; [discriminate Edoc | discriminate].
Qed.

Lemma concatM_nth {A : Type} (f : A -> result (list string)) (l : list A) :
  forall (out : list string) (i : nat) (x : A) (ys : list string),
    concatM f l = Ok out -> nth_error l i = Some x -> f x = Ok ys -> incl ys out.
Proof.
  induction l as [|a l IH]; intros out i x ys H Hnth Hf; [destruct i; discriminate Hnth|].
  simpl in H. bind_inv H as ya Ea. bind_inv H as zs Ezs. inversion H; subst out; clear H.
  destruct i as [|i]; simpl in Hnth.
  - inversion Hnth; subst a. rewrite Hf in Ea. inversion Ea; subst ya.
    apply incl_appl, incl_refl.
  - apply incl_appr. apply (IH zs i x ys Ezs Hnth Hf).
Qed.

Lemma enumerate_from_nth {A : Type} (l : list A) :
  forall (k i : nat) (x : A),
    nth_error l i = Some x -> nth_error (enumerate_from k l) i = Some (k + i, x).
Proof.
  induction l as [|a l IH]; intros k i x H; [destruct i; discriminate H|].
  destruct i as [|i]; simpl in *.
  - inversion H; subst. rewrite Nat.add_0_r. reflexivity.
  - rewrite (IH (S k) i x H). f_equal. f_equal. lia.
Qed.

Lemma history_command_one_line (total shown i : nat) (d : fields_t) (cmd : string) :
  lookup "key" d = Some (JStr cmd) ->
  contains escaped_newline cmd = false ->
  history_command total shown (i, JDict d)
  = Ok [command_line (total - shown + i + 1) cmd (shell_of d); ""].
Proof.
  intros Hkey Hline. unfold history_command. cbn [is_dict].
  rewrite !get_dict, Hkey. cbn [bind py_contains]. rewrite Hline.
  unfold shell_of, command_line.
  destruct (lookup "value" d) as [info|]; [destruct info|]; cbn [is_dict bind];
    try reflexivity.
  rewrite get_dict. cbn [bind].
  destruct (lookup "shellType" fields); reflexivity.
Qed.

(** X18: the document of the terminal history counts all commands in its
    header and lists the last 50 of them, the most recent first.  The
    command listed at place [i] (from 0) is the one [i] steps back from
    the end of the history, and the number it bears is the count of the
    commands not listed, plus [i], plus 1: the numbers run upwards while
    the commands run back in time. *)
Theorem recent_commands_numbering (now value : string)
    (dirs_result : option (option string)) (data : fields_t) (commands : list json)
    (lines : list string) (i : nat) (d : fields_t) (cmd : string) :
  json_loads value = Some (JDict data) ->
  lookup "entries" data = Some (JList commands) ->
  terminal_history_lines now value dirs_result = Ok lines ->
  i < Nat.min 50 (List.length commands) ->
  nth_error commands (List.length commands - 1 - i) = Some (JDict d) ->
  lookup "key" d = Some (JStr cmd) ->
  contains escaped_newline cmd = false ->
  In ("**Total Commands:** " ++ str_of_nat (List.length commands) ++ "  ") lines
  /\ In (command_line (List.length commands - Nat.min 50 (List.length commands) + i + 1)
                      cmd (shell_of d))
        lines.
Proof.
  intros Hloads Hentries H Hi Hnth Hkey Hline.
  unfold terminal_history_lines, loads in H. rewrite Hloads in H. cbn [bind] in H.
  rewrite get_dict, Hentries in H. cbn [bind py_len last_items py_reversed] in H.
  bind_inv H as command_lines Ecommands. bind_inv H as dir_lines Edirs.
  inversion H; subst lines; clear H.
  split; [right; right; right; left; reflexivity|].
  do 7 right. apply in_or_app. left.
  set (n := List.length commands) in *.
  assert (Hshown : List.length (skipn (n - 50) commands) = Nat.min 50 n)
    by (rewrite length_skipn; subst n; lia).
  rewrite Hshown in Ecommands.
  assert (Hentry : nth_error (rev (skipn (n - 50) commands)) i = Some (JDict d)).
  { rewrite nth_error_rev, Hshown.
    destruct (Nat.ltb_spec i (Nat.min 50 n)) as [_|Hge]; [|lia].
    rewrite nth_error_skipn, <- Hnth. f_equal. lia. }
  apply (concatM_nth _ _ _ i (0 + i, JDict d) _ Ecommands
           (enumerate_from_nth _ 0 i _ Hentry)
           (history_command_one_line n (Nat.min 50 n) (0 + i) d cmd Hkey Hline)).
  left. reflexivity.
Qed.

(** *** A strictly newest version *)

(** X20: when one observed version of a thread id is strictly newer than
    every other, the reconstruction binds the id to that version; the
    order in which the instances and their rows were scanned plays no
    part then. *)
Theorem strictly_newest_version_wins (env : environment) (cid v : json) :
  Forall well_formed (observed env) ->
  length (versions cid (global_threads env)) <= 1 ->
  In v (versions cid (observed env)) ->
  (forall w, In w (versions cid (observed env)) -> w = v \/ (stamp w < stamp v)%Z) ->
  exists sorted,
    get_all_composer_threads env = Ok sorted
    /\ assoc_get key_eqb cid sorted = Some v.
Proof.
  intros Hwf Hglobal Hv Hmax.
  destruct (merged_threads_spec env cid Hwf Hglobal) as (Hget & Hok & Hdist).
  unfold get_all_composer_threads.
  destruct (sorted_threads_spec _ Hok) as (sorted & Hs & Hin).
  exists sorted. split; [exact Hs|].
  rewrite (rearranged_get cid _ sorted Hdist Hin), Hget.
  pose proof (pick_none (versions cid (observed env))) as Hp.
  destruct (versions cid (observed env)) as [|v0 vs] eqn:E; [destruct Hv|].
  destruct Hp as (v' & before & after & Hpick & Hsplit & Hb & Ha).
  rewrite Hpick. f_equal.
  assert (Hv' : In v' (v0 :: vs))
    by (rewrite Hsplit; apply in_or_app; right; left; reflexivity).
  destruct (Hmax v' Hv') as [->|Hlt]; [reflexivity|]. exfalso.
  rewrite Hsplit in Hv. apply in_app_or in Hv.
  rewrite Forall_forall in Hb, Ha.
  destruct Hv as [Hv|[Hv|Hv]].
  - specialize (Hb v Hv). lia.
  - subst v'. lia.
  - specialize (Ha v Hv). lia.
Qed.

End Exporter.

(* ------------------------------------------------------------------ *)
(** ** The properties on concrete stores *)

(** C9, the property as first stated fails: with a non-string [role]
    beside a string [authorRole] the first string is "user" but the
    resolved role is unknown; with an empty [role] beside a [sender] the
    first string is empty but the resolved role is assistant. *)
Lemma role_first_string_counterexample :
  get_message_role (JDict [("role", JInt 5); ("authorRole", JStr "user")]) = Ok UnknownRole
  /\ first_string_role [("role", JInt 5); ("authorRole", JStr "user")] = User
  /\ get_message_role (JDict [("role", JStr ""); ("sender", JStr "Assistant")]) = Ok Assistant
  /\ first_string_role [("role", JStr ""); ("sender", JStr "Assistant")] = UnknownRole.
Proof. repeat split; reflexivity. Qed.

(** C10 at the thread of the specification's scenario. *)
Lemma filename_carries_fingerprint_witness :
  8 <= String.length "abc12345-77"
  /\ generate_filename ref_strftime (JDict [("createdAt", JInt 1700000000000)])
       "abc12345-77" "Fix the bug"
     = Ok "2023-11-14T2213-Fix-the-bug-abc12345.md"
  /\ ends_with ("-" ++ fingerprint "abc12345-77" ++ ".md")
               "2023-11-14T2213-Fix-the-bug-abc12345.md" = true
  /\ (contains "/" (fingerprint "abc12345-77") = false ->
      file_fingerprint "2023-11-14T2213-Fix-the-bug-abc12345.md"
      = fingerprint "abc12345-77").
Proof.
  split; [simpl; lia|]. split; [reflexivity|].
  apply (filename_carries_fingerprint ref_strftime
           (JDict [("createdAt", JInt 1700000000000)]) "abc12345-77" "Fix the bug");
    [simpl; lia | reflexivity].
Defined.

(** C10, the property as first stated fails: a path separator among the
    first 8 characters of the id moves the file below a subdirectory,
    and the stem of the name no longer ends with those 8 characters. *)
Lemma filename_separator_counterexample :
  generate_filename ref_strftime (JDict []) "abcd/efgh" "hi"
  = Ok "1970-01-01T0000-hi-abcd/efg.md"
  /\ fingerprint "abcd/efgh" = "abcd/efg"
  /\ file_fingerprint "1970-01-01T0000-hi-abcd/efg.md" = "efg".
Proof. repeat split; reflexivity. Qed.



(** The rendering loop of the reference run-time over a store without
    context records. *)
Abbreviation ref_loop := (render_loop ref_loads ref_dumps ref_repr empty_store "abc12345").
Abbreviation ref_view := (bubble_view ref_loads ref_dumps ref_repr empty_store "abc12345").
Abbreviation ref_items := (emitted_items ref_loads ref_dumps ref_repr empty_store "abc12345").

(** C6, the code departs from the property: the run of the two
    action-only bubbles [agent_lists; agent_deletes] is followed by a
    bubble that has actions and context of its own, hence is not
    action-only; the look-ahead takes it into the block all the same,
    so the block holds a third action line and the context line of that
    bubble is not rendered at all. *)
Lemma action_block_absorbs_context_bubble :
  (v <- ref_view agent_reads_agentic ;; Ok (is_action_only v, v_context_info v))
  = Ok (false, ["**Mode:** Agentic"; ""])
  /\ ref_loop [agent_lists; agent_deletes; agent_reads_agentic] 0 None []
     = Ok (Some Assistant,
           ["**[Actions]**"; "- 📂 Listed directory: src"; "- 🗑️ Delete file: old.py";
            "- 📖 Read file: a.py"; ""])
  /\ ref_loop [agent_lists; agent_deletes] 0 None []
     = Ok (Some Assistant,
           ["**[Actions]**"; "- 📂 Listed directory: src"; "- 🗑️ Delete file: old.py"; ""]).
Proof. repeat split; reflexivity. Qed.

(** X1 at the run of the two action-only bubbles, ending the thread. *)
Lemma action_run_one_block_witness :
  ref_loop (agent_lists :: [agent_deletes] +++ []) 0 None []
  = ref_loop [] 0 (Some Assistant)
      (([] +++ transition None Assistant)
         +++ actions_block (["📂 Listed directory: src"]
                            +++ concat (map v_actions
                                 [ {| v_content := ""; v_role := Assistant; v_thinking := "";
                                      v_actions := ["🗑️ Delete file: old.py"];
                                      v_context_info := [] |} ]))).
Proof.
  apply (action_run_one_block ref_loads ref_dumps ref_repr empty_store "abc12345"
           agent_lists
           {| v_content := ""; v_role := Assistant; v_thinking := "";
              v_actions := ["📂 Listed directory: src"]; v_context_info := [] |}
           [agent_deletes]
           [ {| v_content := ""; v_role := Assistant; v_thinking := "";
                v_actions := ["🗑️ Delete file: old.py"]; v_context_info := [] |} ]
           [] None []).
  - reflexivity.
  - reflexivity.
  - apply Forall2_cons; [split; reflexivity | apply Forall2_nil].
  - left; reflexivity.
Defined.

(** C7 at a user message followed by an assistant message. *)
Lemma separator_marks_role_changes_witness :
  ref_items [user_says; agent_says] 0
  = Ok [ {| it_block := false; it_role := User;
            it_lines := ["**[User]** Fix the bug"; ""] |};
         {| it_block := false; it_role := Assistant;
            it_lines := ["**[Agent]** Done."; ""] |} ]
  /\ ref_loop [user_says; agent_says] 0 None []
     = Ok (Some Assistant,
           ["**[User]** Fix the bug"; ""; ""; "---"; ""; "**[Agent]** Done."; ""])
  /\ count_occ string_dec
       ["**[User]** Fix the bug"; ""; ""; "---"; ""; "**[Agent]** Done."; ""] rule_line
     = 1.
Proof.
  split; [reflexivity|].
  exact (separator_marks_role_changes ref_loads ref_dumps ref_repr empty_store "abc12345"
           [user_says; agent_says]
           [ {| it_block := false; it_role := User;
                it_lines := ["**[User]** Fix the bug"; ""] |};
             {| it_block := false; it_role := Assistant;
                it_lines := ["**[Agent]** Done."; ""] |} ]
           None [] eq_refl).
Defined.

(** C7, the property as first stated fails: two bubbles of the same
    resolved role (unknown) are parted by a separator when the first is
    rendered as an [[Actions]] block, and no separator parts the
    user-role bubbles from the assistant-role bubble after them when the
    last user-role bubble is rendered as such a block. *)
Lemma separator_counterexample :
  get_message_role untyped_lists = Ok UnknownRole
  /\ get_message_role untyped_note = Ok UnknownRole
  /\ ref_loop [untyped_lists; untyped_note] 0 None []
     = Ok (Some UnknownRole,
           ["**[Actions]**"; "- 📂 Listed directory: src"; "";
            ""; "---"; "";
            "**[Unknown]** note"; ""])
  /\ get_message_role user_lists = Ok User
  /\ ref_loop [user_says; user_lists; agent_says] 0 None []
     = Ok (Some Assistant,
           ["**[User]** Fix the bug"; "";
            "**[Actions]**"; "- 📂 Listed directory: src"; "";
            "**[Agent]** Done."; ""]).
Proof. repeat split; reflexivity. Qed.

(** C8 at an assistant bubble without content between two messages. *)
Lemma empty_bubble_renders_nothing_witness :
  ref_view agent_silent
  = Ok {| v_content := ""; v_role := Assistant; v_thinking := "";
          v_actions := []; v_context_info := [] |}
  /\ ref_loop ([user_says] +++ agent_silent :: [agent_says]) 0 None []
     = (r <- ref_loop [user_says] 0 None [] ;; ref_loop [agent_says] 0 (fst r) (snd r))
  /\ markdown_lines ref_loads ref_dumps ref_repr ref_strftime "2023-11-15 09:00:00"
       (JDict [("name", JStr "Notes")]) "abc12345"
       ([user_says] +++ agent_silent :: [agent_says]) empty_store
     = (header <- header_lines ref_repr ref_strftime "2023-11-15 09:00:00"
                    (JDict [("name", JStr "Notes")]) "abc12345"
                    ([user_says] +++ agent_silent :: [agent_says]) ;;
        r <- ref_loop [user_says] 0 None header ;;
        r' <- ref_loop [agent_says] 0 (fst r) (snd r) ;;
        Ok (snd r'))
  /\ forall header,
       header_lines ref_repr ref_strftime "2023-11-15 09:00:00" (JDict [("name", JStr "Notes")])
                    "abc12345" ([user_says] +++ agent_silent :: [agent_says])
       = Ok header ->
       In ("**Messages:** " ++ str_of_nat 3 ++ "  ") header.
Proof.
  split; [reflexivity|].
  apply (empty_bubble_renders_nothing ref_loads ref_dumps ref_repr ref_strftime
           empty_store "abc12345"
           [user_says] agent_silent [agent_says]
           {| v_content := ""; v_role := Assistant; v_thinking := "";
              v_actions := []; v_context_info := [] |} None []
           "2023-11-15 09:00:00" (JDict [("name", JStr "Notes")]));
    reflexivity.
Defined.

(** C8, the property as first stated fails: a bubble that shows nothing
    still changes the document, for the header counts it among the
    messages and adds its token counts, which here bring in the "Tokens"
    line. *)
Lemma empty_bubble_header_counterexample :
  ref_view counted_silent
  = Ok {| v_content := ""; v_role := Assistant; v_thinking := "";
          v_actions := []; v_context_info := [] |}
  /\ markdown_lines ref_loads ref_dumps ref_repr ref_strftime "2023-11-15 09:00:00"
       (JDict [("name", JStr "Notes")]) "abc12345" [user_says] empty_store
     = Ok [ "# Notes"; "";
            "**Exported:** 2023-11-15 09:00:00  ";
            "**Thread ID:** `abc12345`  ";
            "**Created:** 1970-01-01 00:00:00  ";
            "**Last Updated:** 1970-01-01 00:00:00  ";
            "**Messages:** 1  "; "";
            "**[User]** Fix the bug"; "" ]
  /\ markdown_lines ref_loads ref_dumps ref_repr ref_strftime "2023-11-15 09:00:00"
       (JDict [("name", JStr "Notes")]) "abc12345" [user_says; counted_silent] empty_store
     = Ok [ "# Notes"; "";
            "**Exported:** 2023-11-15 09:00:00  ";
            "**Thread ID:** `abc12345`  ";
            "**Created:** 1970-01-01 00:00:00  ";
            "**Last Updated:** 1970-01-01 00:00:00  ";
            "**Messages:** 2  ";
            "**Tokens:** 5 (5 in / 0 out)  "; "";
            "**[User]** Fix the bug"; "" ].
Proof. repeat split; reflexivity. Qed.

(** The export of the reference run-time. *)
Abbreviation ref_export := (export_conversations ref_loads ref_dumps ref_repr ref_strftime).



(** C2 at the dated thread and the directory of the first run. *)
Lemma up_to_date_classification_witness :
  as_int (last_update [("createdAt", JInt 1700000000000);
                       ("lastUpdatedAt", JInt 1700000600000)])
  = Some 1700000600000%Z
  /\ (is_up_to_date (index_existing dated_directory) "abc12345-77"
        (JDict [("createdAt", JInt 1700000000000);
                ("lastUpdatedAt", JInt 1700000600000)]) = Ok true
      <-> (1700000600000 <> 0
           /\ exists f, indexed_file dated_directory (fingerprint "abc12345-77") = Some f
                        /\ 1700000600000 <= f_mtime_ms f))%Z.
Proof.
  split; [reflexivity|].
  apply (up_to_date_classification ref_loads dated_directory "abc12345-77"
           [("createdAt", JInt 1700000000000); ("lastUpdatedAt", JInt 1700000600000)]
           1700000600000%Z).
  right; reflexivity.
Defined.

(** C2, the property as first stated fails: a thread without timestamps
    (last update 0) is not classified up-to-date although a file with its
    fingerprint and a modification time of at least 0 is present; and of
    two files with the fingerprint only the one listed last is looked
    at, so a thread is not classified up-to-date although the other file
    is newer than its last update. *)
Lemma up_to_date_counterexample :
  last_update [] = JInt 0
  /\ existsb (fun entry => String.eqb (file_fingerprint (fst entry)) (fingerprint "abc12345-77")
                           && (0 <=? f_mtime_ms (snd entry))%Z)
             (glob_md [("2023-notes-abc12345.md", {| f_text := ""; f_mtime_ms := 5 |})])
     = true
  /\ is_up_to_date
       (index_existing [("2023-notes-abc12345.md", {| f_text := ""; f_mtime_ms := 5 |})])
       "abc12345-77" (JDict [])
     = Ok false
  /\ existsb (fun entry => String.eqb (file_fingerprint (fst entry)) (fingerprint "abc12345-77")
                           && (10 <=? f_mtime_ms (snd entry))%Z)
             (glob_md [("2023-new-title-abc12345.md", {| f_text := ""; f_mtime_ms := 20 |});
                       ("2023-old-title-abc12345.md", {| f_text := ""; f_mtime_ms := 5 |})])
     = true
  /\ is_up_to_date
       (index_existing
          [("2023-new-title-abc12345.md", {| f_text := ""; f_mtime_ms := 20 |});
           ("2023-old-title-abc12345.md", {| f_text := ""; f_mtime_ms := 5 |})])
       "abc12345-77" (JDict [("lastUpdatedAt", JInt 10)])
     = Ok false.
Proof. repeat split; reflexivity. Qed.

(** C4 at a thread whose only bubble has no content. *)
Lemma contentless_thread_skipped_witness :
  all_blank ref_dumps ref_repr [agent_silent]
  /\ export_thread ref_loads ref_dumps ref_repr ref_strftime empty_store writable
       first_clock [("abc12345-77", [agent_silent])] ([], 0)
       ("abc12345-77", JDict [("createdAt", JInt 1700000000000)])
     = Ok ([], 0).
Proof.
  assert (H : all_blank ref_dumps ref_repr [agent_silent]).
  { constructor; [|constructor]. exists "". split; reflexivity. }
  split; [exact H|].
  apply (contentless_thread_skipped ref_loads ref_dumps ref_repr ref_strftime empty_store
           writable first_clock [("abc12345-77", [agent_silent])] ([], 0)
           "abc12345-77" (JDict [("createdAt", JInt 1700000000000)])).
  exact H.
Defined.

(** C4, the property as first stated fails: the first message of the
    thread has an empty body, yet the thread is exported, named after its
    first message that has content. *)
Lemma first_message_empty_counterexample :
  (bubbles <- mapM (fun text => match ref_loads text with
                                | Some b => extract_message_content ref_dumps ref_repr b
                                | None => Raise JSONDecodeError
                                end) silent_then_reply ;;
   Ok bubbles)
  = Ok [""; "Done."]
  /\ (dir <- ref_export (env_with dated_record silent_then_reply) no_history writable first_clock
               None [] ;;
      Ok (map fst dir))
     = Ok ["2023-11-14T2213-Done.-abc12345.md"].
Proof. repeat split; reflexivity. Qed.

(** C3 at four versions of one thread: the first of the two versions
    stamped 10 is the reconstructed record. *)
Lemma newest_version_wins_witness :
  observed ref_loads four_versions
  = [(JStr "thread-0001", version 5 "global"); (JStr "thread-0001", version 10 "first");
     (JStr "thread-0001", version 7 "second"); (JStr "thread-0001", version 10 "third")]
  /\ get_all_composer_threads ref_loads four_versions
     = Ok [(JStr "thread-0001", version 10 "first")]
  /\ exists sorted,
       get_all_composer_threads ref_loads four_versions = Ok sorted
       /\ match versions (JStr "thread-0001") (observed ref_loads four_versions) with
          | [] => assoc_get key_eqb (JStr "thread-0001") sorted = None
          | _ :: _ =>
              exists v before after,
                assoc_get key_eqb (JStr "thread-0001") sorted = Some v
                /\ versions (JStr "thread-0001") (observed ref_loads four_versions)
                   = before +++ v :: after
                /\ Forall (fun w => (stamp w < stamp v)%Z) before
                /\ Forall (fun w => (stamp w <= stamp v)%Z) after
          end.
Proof.
  split; [reflexivity|]. split; [reflexivity|].
  apply (newest_version_wins ref_loads four_versions (JStr "thread-0001")).
  - assert (E : observed ref_loads four_versions
                = [(JStr "thread-0001", version 5 "global");
                   (JStr "thread-0001", version 10 "first");
                   (JStr "thread-0001", version 7 "second");
                   (JStr "thread-0001", version 10 "third")]) by reflexivity.
    rewrite E.
    repeat (apply Forall_cons;
            [split; [reflexivity
                    | eexists; split; [reflexivity
                                      | split; [eexists; reflexivity | exact I]]]|]).
    apply Forall_nil.
  - simpl. lia.
Defined.

(** C3, the property as first stated fails: of two versions with the same
    timestamp the one scanned first is kept, so the record depends on the
    order of the instances; and the versions of the global instance are
    stored without a look at their timestamps, so the entry of the
    aggregate record stamped 5 replaces the keyed record stamped 10. *)
Lemma newest_version_counterexample :
  get_all_composer_threads ref_loads
    (workspaces_only [instance_with (version_text "10" "one");
                      instance_with (version_text "10" "two")])
  = Ok [(JStr "thread-0001", version 10 "one")]
  /\ get_all_composer_threads ref_loads
       (workspaces_only [instance_with (version_text "10" "two");
                         instance_with (version_text "10" "one")])
     = Ok [(JStr "thread-0001", version 10 "two")]
  /\ observed ref_loads
       (global_and (instance_with_both (version_text "10" "keyed")
                                       (aggregate_text "5" "aggregate")) [])
     = [(JStr "thread-0001", version 10 "keyed");
        (JStr "thread-0001",
         JDict [("composerId", JStr "thread-0001"); ("lastUpdatedAt", JInt 5);
                ("name", JStr "aggregate")])]
  /\ get_all_composer_threads ref_loads
       (global_and (instance_with_both (version_text "10" "keyed")
                                       (aggregate_text "5" "aggregate")) [])
     = Ok [(JStr "thread-0001",
            JDict [("composerId", JStr "thread-0001"); ("lastUpdatedAt", JInt 5);
                   ("name", JStr "aggregate")])].
Proof. repeat split; reflexivity. Qed.

(* ------------------------------------------------------------------ *)
(** ** The further properties on concrete stores *)

(** X2 at a string of 3 characters, which comes back as it is, and at one
    of 8 characters cut to 5 and to 2: for the latter the suffix alone is
    longer. *)
Lemma truncate_string_fits_witness :
  truncate_string "abc" 5 "..." = "abc"
  /\ (exists p,
        starts_with p "abcdefgh" = true
        /\ truncate_string "abcdefgh" 5 "..." = p ++ "..."
        /\ Z.of_nat (String.length p) = 2%Z)
  /\ truncate_string "abcdefgh" 5 "..." = "ab..."
  /\ truncate_string "abcdefgh" 2 "..." = "abcdefg..."
  /\ ~ (Z.of_nat (String.length (truncate_string "abcdefgh" 2 "...")) <= 2)%Z.
Proof.
  split.
  { apply (proj1 (truncate_string_fits "abc" 5 "...")). simpl. lia. }
  split.
  { apply (proj1 (proj2 (truncate_string_fits "abcdefgh" 5 "..."))). simpl. lia. }
  split; [reflexivity|]. split; [reflexivity|].
  intros H. apply (proj1 (proj2 (proj2 (truncate_string_fits "abcdefgh" 2 "...")))) in H.
  simpl in H. lia.
Defined.

(** X3 at a code text of two lines. *)
Lemma code_block_keeps_every_line_witness :
  format_code_block ("a" ++ nl ++ "b") "   | " = ["   | a"; "   | b"]
  /\ join (String newline EmptyString)
          (map (str_drop 5) (format_code_block ("a" ++ nl ++ "b") "   | "))
     = "a" ++ nl ++ "b".
Proof.
  split; [reflexivity|].
  exact (proj1 (code_block_keeps_every_line ("a" ++ nl ++ "b") "   | ")).
Defined.

(** X4 at a title with a colon, quotes, a slash and a question mark. *)
Lemma slug_has_no_reserved_character_witness :
  slugify_title awkward_title 50 = "Fix-the-bug-now"
  /\ Forall (fun c => contains (String c EmptyString) (slugify_title awkward_title 50)
                      = false)
            reserved_characters.
Proof.
  split; [reflexivity|]. exact (slug_has_no_reserved_character awkward_title 50).
Defined.

(** X5 at a title that leaves nothing. *)
Lemma slug_shape_witness :
  slugify_title "?? --" 50 = "untitled"
  /\ slugify_title "?? --" 50 <> ""
  /\ starts_with "-" (slugify_title "?? --" 50) = false
  /\ ends_with "-" (slugify_title "?? --" 50) = false
  /\ contains "--" (slugify_title "?? --" 50) = false
  /\ String.length (slugify_title "?? --" 50) <= Nat.max 50 8.
Proof.
  split; [reflexivity|]. exact (slug_shape "?? --" 50).
Defined.

(** X6 at a bubble that lists a directory. *)
Lemma named_tool_is_shown_witness :
  exists tool aux,
    tool_actions ref_loads ref_repr (tool_call "list_dir" "target_directory" "src") = Ok tool
    /\ aux_actions ref_repr agent_lists = Ok aux
    /\ ["📂 Listed directory: src"] = tool +++ aux
    /\ (tool = []
        <-> truthy (field [("name", JStr "list_dir");
                           ("rawArgs", JStr (one_member "target_directory" "src"))]
                          "name") = false).
Proof.
  exact (named_tool_is_shown ref_loads ref_repr
           [("type", JInt 2);
            ("toolFormerData", tool_call "list_dir" "target_directory" "src")]
           [("name", JStr "list_dir");
            ("rawArgs", JStr (one_member "target_directory" "src"))]
           ["📂 Listed directory: src"] eq_refl eq_refl).
Defined.

(** X7 at an assistant message with thinking text after a user message. *)
Lemma bodies_and_thinking_are_rendered_witness :
  ref_loop [user_says; agent_thinks_aloud] 0 None []
  = Ok (Some Assistant,
        ["**[User]** Fix the bug"; ""; ""; "---"; "";
         "**[Thinking]** Check the tests"; ""; "**[Agent]** Done."; ""])
  /\ ("Done." <> "" ->
      In "**[Agent]** Done."
         ["**[User]** Fix the bug"; ""; ""; "---"; "";
          "**[Thinking]** Check the tests"; ""; "**[Agent]** Done."; ""])
  /\ ("Check the tests" <> "" ->
      In "**[Thinking]** Check the tests"
         ["**[User]** Fix the bug"; ""; ""; "---"; "";
          "**[Thinking]** Check the tests"; ""; "**[Agent]** Done."; ""]).
Proof.
  split; [reflexivity|].
  exact (bodies_and_thinking_are_rendered ref_loads ref_dumps ref_repr empty_store "abc12345"
           [user_says; agent_thinks_aloud] None (Some Assistant) []
           ["**[User]** Fix the bug"; ""; ""; "---"; "";
            "**[Thinking]** Check the tests"; ""; "**[Agent]** Done."; ""]
           agent_thinks_aloud
           {| v_content := "Done."; v_role := Assistant;
              v_thinking := "Check the tests"; v_actions := []; v_context_info := [] |}
           eq_refl (or_intror (or_introl eq_refl)) eq_refl).
Defined.

(** X8 at a bubble with thinking text and a tool invocation between two
    messages: the listing of the directory is not shown. *)
Lemma thinking_bubble_shows_no_actions_witness :
  ref_view agent_thinks_and_lists
  = Ok {| v_content := ""; v_role := Assistant; v_thinking := "Look around";
          v_actions := ["📂 Listed directory: src"]; v_context_info := [] |}
  /\ ref_loop [user_says; agent_thinks_and_lists; agent_says] 0 None []
     = Ok (Some Assistant,
           ["**[User]** Fix the bug"; ""; ""; "---"; "";
            "**[Thinking]** Look around"; ""; "";
            "**[Agent]** Done."; ""])
  /\ ref_loop ([user_says] +++ agent_thinks_and_lists :: [agent_says]) 0 None []
     = (r <- ref_loop [user_says] 0 None [] ;;
        ref_loop [agent_says] 0 (Some Assistant)
          (snd r +++ transition (fst r) Assistant
             +++ ["**[Thinking]** Look around"; ""] +++ [] +++ [""])).
Proof.
  split; [reflexivity|]. split; [reflexivity|].
  apply (thinking_bubble_shows_no_actions ref_loads ref_dumps ref_repr empty_store "abc12345"
           [user_says] agent_thinks_and_lists [agent_says]
           {| v_content := ""; v_role := Assistant; v_thinking := "Look around";
              v_actions := ["📂 Listed directory: src"]; v_context_info := [] |}
           None []);
    [reflexivity | reflexivity | discriminate].
Defined.

(** X9 at a thinking record whose text is null, after a user message. *)
Lemma malformed_thinking_stops_rendering_witness :
  exists e,
    format_conversation_markdown ref_loads ref_dumps ref_repr ref_strftime
      "2023-11-15 09:00:00" (JDict [("name", JStr "Notes")]) "abc12345-77"
      ([user_says] +++ JDict thinking_without_text :: [agent_says])
      "1970-01-01T0000-Notes-abc12345.md" empty_store
    = Raise e.
Proof.
  apply (malformed_thinking_stops_rendering ref_loads ref_dumps ref_repr ref_strftime
           empty_store "abc12345-77" "2023-11-15 09:00:00" (JDict [("name", JStr "Notes")])
           [user_says] thinking_without_text [("text", JNull)] JNull [agent_says]
           "1970-01-01T0000-Notes-abc12345.md");
    reflexivity.
Defined.

(** X10 at two threads stored oldest first. *)
Lemma threads_sorted_newest_first_witness :
  get_all_composer_threads ref_loads old_and_new
  = Ok [(JStr "thread-new", JDict [("createdAt", JInt 200)]);
        (JStr "thread-old", JDict [("createdAt", JInt 100)])]
  /\ exists sorted,
       get_all_composer_threads ref_loads old_and_new = Ok sorted
       /\ Permutation sorted (merged_threads ref_loads old_and_new)
       /\ StronglySorted newest_first sorted
       /\ distinct_keys sorted.
Proof.
  split; [reflexivity|].
  apply (threads_sorted_newest_first ref_loads old_and_new).
  assert (E : observed ref_loads old_and_new
              = [(JStr "thread-old", JDict [("createdAt", JInt 100)]);
                 (JStr "thread-new", JDict [("createdAt", JInt 200)])]) by reflexivity.
  rewrite E.
  repeat (apply Forall_cons;
          [split; [reflexivity
                  | eexists; split; [reflexivity
                                    | split; [exact I | eexists; reflexivity]]]|]).
  apply Forall_nil.
Defined.



(** X13 at the document of the dated thread, written into an empty
    directory: the next run finds it and takes the thread, last updated
    before the write, as up to date. *)
Lemma written_document_is_found_witness :
  indexed_file (write_file "2023-11-14T2213-Fix-the-bug-abc12345.md" "text"
                           1700038800000 [])
               (fingerprint "abc12345-77")
  = Some {| f_text := "text"; f_mtime_ms := 1700038800000 |}
  /\ forall (d : fields_t) (updated : Z),
       as_int (last_update d) = Some updated ->
       is_up_to_date
         (index_existing (write_file "2023-11-14T2213-Fix-the-bug-abc12345.md" "text"
                                     1700038800000 []))
         "abc12345-77" (JDict d)
       = Ok (negb (updated =? 0)%Z && (updated <=? 1700038800000)%Z).
Proof.
  apply (written_document_is_found ref_strftime []
           (JDict [("createdAt", JInt 1700000000000)]) "abc12345-77" "Fix the bug"
           "2023-11-14T2213-Fix-the-bug-abc12345.md" "text" 1700038800000).
  - simpl. lia.
  - reflexivity.
  - reflexivity.
  - constructor.
  - intros name f [].
Defined.

(** X16 at an aggregate record with a number for an id. *)
Lemma non_string_id_stops_export_witness :
  get_all_composer_threads ref_loads numbered_thread
  = Ok [(JInt 7, JDict [("composerId", JInt 7)])]
  /\ exists e,
       export_conversations ref_loads ref_dumps ref_repr ref_strftime numbered_thread
                            no_history writable first_clock None []
       = Raise e.
Proof.
  split; [reflexivity|].
  apply (non_string_id_stops_export ref_loads ref_dumps ref_repr ref_strftime
           numbered_thread no_history writable first_clock []
           [(JInt 7, JDict [("composerId", JInt 7)])]
           (JInt 7) (JDict [("composerId", JInt 7)]));
    [reflexivity | left; reflexivity | reflexivity | reflexivity].
Defined.

(** X18 at a history of two commands: the later one is listed first,
    under the number 1. *)
Lemma recent_commands_numbering_witness :
  terminal_history_lines ref_loads ref_repr "2023-11-15 09:00:00" two_commands None
  = Ok ["# Terminal History"; "";
        "**Exported:** 2023-11-15 09:00:00  ";
        "**Total Commands:** 2  "; "";
        "## Recent Commands"; "";
        "**1.** `make test` (unknown)"; "";
        "**2.** `ls` (unknown)"; ""]
  /\ In "**Total Commands:** 2  "
        ["# Terminal History"; "";
         "**Exported:** 2023-11-15 09:00:00  ";
         "**Total Commands:** 2  "; "";
         "## Recent Commands"; "";
         "**1.** `make test` (unknown)"; "";
         "**2.** `ls` (unknown)"; ""]
  /\ In "**1.** `make test` (unknown)"
        ["# Terminal History"; "";
         "**Exported:** 2023-11-15 09:00:00  ";
         "**Total Commands:** 2  "; "";
         "## Recent Commands"; "";
         "**1.** `make test` (unknown)"; "";
         "**2.** `ls` (unknown)"; ""].
Proof.
  split; [reflexivity|].
  apply (recent_commands_numbering ref_loads ref_repr "2023-11-15 09:00:00" two_commands
           None
           [("entries", JList [JDict [("key", JStr "ls")];
                               JDict [("key", JStr "make test")]])]
           [JDict [("key", JStr "ls")]; JDict [("key", JStr "make test")]]
           _ 0 [("key", JStr "make test")] "make test");
    try reflexivity.
  simpl. lia.
Defined.

(** X19 at a bubble with a tool invocation and the agentic mode set: it
    is not action-only, for the mode is context of its own, yet it
    passes the test of the look-ahead. *)
Lemma look_ahead_ignores_own_context_witness :
  ref_view agent_reads_agentic
  = Ok {| v_content := ""; v_role := Assistant; v_thinking := "";
          v_actions := ["📖 Read file: a.py"];
          v_context_info := ["**Mode:** Agentic"; ""] |}
  /\ next_action_only ref_loads ref_dumps ref_repr empty_store "abc12345"
                      agent_reads_agentic
     = Ok (Some ["📖 Read file: a.py"])
  /\ (bubble_context_info ref_repr agent_reads_agentic = Ok [] ->
      next_action_only ref_loads ref_dumps ref_repr empty_store "abc12345"
                       agent_reads_agentic
      = Ok None).
Proof.
  split; [reflexivity|].
  exact (look_ahead_ignores_own_context ref_loads ref_dumps ref_repr empty_store "abc12345"
           agent_reads_agentic
           {| v_content := ""; v_role := Assistant; v_thinking := "";
              v_actions := ["📖 Read file: a.py"];
              v_context_info := ["**Mode:** Agentic"; ""] |}
           (JDict []) [] eq_refl eq_refl eq_refl).
Defined.

(** X20 at four versions of one thread, the newest of them in the last
    workspace instance. *)
Lemma strictly_newest_version_wins_witness :
  exists sorted,
    get_all_composer_threads ref_loads newest_last = Ok sorted
    /\ assoc_get key_eqb (JStr "thread-0001") sorted = Some (version 12 "third").
Proof.
  apply (strictly_newest_version_wins ref_loads newest_last (JStr "thread-0001")
           (version 12 "third")).
  - assert (E : observed ref_loads newest_last
                = [(JStr "thread-0001", version 5 "global");
                   (JStr "thread-0001", version 10 "first");
                   (JStr "thread-0001", version 7 "second");
                   (JStr "thread-0001", version 12 "third")]) by reflexivity.
    rewrite E.
    repeat (apply Forall_cons;
            [split; [reflexivity
                    | eexists; split; [reflexivity
                                      | split; [eexists; reflexivity | exact I]]]|]).
    apply Forall_nil.
  - simpl. lia.
  - simpl. tauto.
  - intros w Hw. simpl in Hw.
    destruct Hw as [<-|[<-|[<-|[<-|[]]]]]; [right | right | right | left];
      try reflexivity; simpl; lia.
Defined.

(** X14 at a bubble with an empty [content] beside a padded [text]. *)
Lemma content_resolution_order_witness :
  extract_message_content ref_dumps ref_repr
    (JDict [("content", JStr ""); ("text", JStr "  hi  ")])
  = Ok "hi"
  /\ strip "hi" = "hi".
Proof.
  split; [reflexivity|].
  apply (proj2 (content_resolution_order ref_dumps ref_repr
                  (JDict [("content", JStr ""); ("text", JStr "  hi  ")]))
               [("content", JStr ""); ("text", JStr "  hi  ")] "hi" eq_refl eq_refl).
  intros o H. discriminate H.
Defined.

(** X15 at a global store that cannot be read and a workspace store
    without its table, beside a workspace store with one thread. *)
Lemma unreadable_stores_are_skipped_witness :
  get_all_composer_threads ref_loads broken_and_old
  = Ok [(JStr "thread-old", JDict [("createdAt", JInt 100)])]
  /\ get_all_composer_threads ref_loads broken_and_old
     = get_all_composer_threads ref_loads
         (with_workspaces broken_and_old
            ([] +++ [Ok (keyed_instance [("thread-old", created_text "100")])]))
  /\ get_all_composer_threads ref_loads broken_and_old
     = get_all_composer_threads ref_loads (without_global broken_and_old).
Proof.
  split; [reflexivity|]. split.
  - exact (proj1 (unreadable_stores_are_skipped ref_loads broken_and_old)
                 [] [Ok (keyed_instance [("thread-old", created_text "100")])]
                 (Raise OperationalError) OperationalError eq_refl eq_refl).
  - exact (proj1 (proj2 (unreadable_stores_are_skipped ref_loads broken_and_old))
                 DatabaseError eq_refl).
Defined.

(** X17 at a history of two commands, written beside a file of the
    user's own. *)
Lemma terminal_history_writes_one_file_witness :
  map fst (export_terminal_history ref_loads ref_repr
             (Ok {| commands_row := Ok (Some (Some two_commands)); dirs_row := Ok None |})
             writable "2023-11-15 09:00:00" 1700038800000 own_notes)
  = ["notes.md"; "terminal-history.md"]
  /\ exists table value,
       Ok {| commands_row := Ok (Some (Some two_commands)); dirs_row := Ok None |}
       = Ok table
       /\ commands_row table = Ok (Some (Some value))
       /\ value <> ""
       /\ writable "terminal-history.md" = true.
Proof.
  split; [reflexivity|].
  apply (proj2 (proj2 (terminal_history_writes_one_file ref_loads ref_repr
                         (Ok {| commands_row := Ok (Some (Some two_commands));
                                dirs_row := Ok None |})
                         writable "2023-11-15 09:00:00" 1700038800000 own_notes))).
  intros H. apply (f_equal (@List.length _)) in H. discriminate H.
Defined.
